(** * workers-almaviva: the appointment checker of [src/worker.ts]

    A shallow embedding of the worker and the proofs of its specification.

    The worker is TypeScript on a JavaScript host.  What it relies on from
    the host is modelled first:
    - [JSDate]: the time values of ECMA-262 (section 21.4.1), with the
      abstract operations [Day], [YearFromTime], [MonthFromTime],
      [DateFromTime], [MakeDay], [MakeDate], [TimeClip], and on top of them
      [Date.UTC], the getters, [setUTCDate], [toISOString] and the parsing of
      the date-time string format;
    - [JSString]: [slice], [substring], [padStart], [join], [parseInt] and
      the printing of integers;
    then the worker itself ([Worker]), function by function and under the
    names of the source, as a state-and-exception monad over the key-value
    store, the remote endpoints, the clock and a log of the effects
    performed.  [Calendar] holds the notions of the specification (leap
    years, the days of a month, dates in the form YYYY-MM-DD), [Fixture]
    concrete remotes and states for the examples.  The modules after them
    hold the proofs: [JSDateFacts] and [JSStringFacts] about the host,
    [FailureTracker], [ChangeNotifier], [Retry], [Orchestrator],
    [MonthRangeFacts] and [AvailableDays] about the worker, and after them
    the modules about whole runs: the store and the effects of each part
    ([Frames]), the authentication, the fetch and its retry, the failure
    counter, and whole cycles from the clock to the message.

    Numbers are integers of [Z]; the not-a-number value is [None] of
    [option Z].  The numbers of the host are doubles: the model is the host
    on the integers of magnitude below 2^53, where the arithmetic, the
    reading and the decimal printing of the host are exact, and a statement
    that ranges over the numbers of a run says so where it needs the bound.
    Strings are sequences of characters, one character of [string] standing
    for one code unit of the host string.  A character of [string] has
    eight bits: the strings of the model are the texts of the host with
    code units below 256, and a character beyond them in a text of the
    worker itself stands as the bytes of its UTF-8 form.  [CodeUnits] has
    the truncation of a message on texts of arbitrary code units.  The
    operations of the key-value store are taken to succeed. *)

From Stdlib Require Import ZArith List String Ascii Bool Lia DecimalString DecimalPos Sorted.
From stdpp Require Import gmap strings.

Local Open Scope Z_scope.

(** Arithmetic with the floor division and modulus by constants. *)
Ltac zdiv := Z.to_euclidean_division_equations; lia.

(* ===================================================================== *)
(** * Strings and numbers of the host *)
(* ===================================================================== *)

Module JSString.

(** The characters between positions [from] and [to]. *)
Definition between (from to : Z) (s : string) : string :=
  String.substring (Z.to_nat from) (Z.to_nat (to - from)) s.

(** [s.length]: the number of code units. *)
Definition len (s : string) : Z := Z.of_nat (String.length s).

(** [s.slice(start, end)]: a negative index counts from the end of [s]. *)
Definition slice (s : string) (start end_ : Z) : string :=
  let from := if start <? 0 then Z.max (len s + start) 0 else Z.min start (len s) in
  let to := if end_ <? 0 then Z.max (len s + end_) 0 else Z.min end_ (len s) in
  between from (Z.max from to) s.

(** [s.substring(start, end)]: indices are clamped to the string, and
    swapped when out of order. *)
Definition substring (s : string) (start end_ : Z) : string :=
  let a := Z.min (Z.max start 0) (len s) in
  let b := Z.min (Z.max end_ 0) (len s) in
  between (Z.min a b) (Z.max a b) s.

Fixpoint repeat_string (n : nat) (f : string) : string :=
  match n with
  | O => EmptyString
  | S k => f ++ repeat_string k f
  end.

(** [s.padStart(target, fill)]. *)
Definition padStart (s : string) (target : Z) (fill : string) : string :=
  if (target <=? len s) || (String.eqb fill "") then s
  else
    let n := Z.to_nat (target - len s) in
    String.substring 0 n (repeat_string n fill) ++ s.

(** [list.join(sep)]. *)
Definition join (sep : string) (l : list string) : string := String.concat sep l.

(** A string is falsy exactly when it is empty. *)
Definition truthy (s : string) : bool := negb (String.eqb s "").

(** [o || dflt] for an optional string: absent and empty both give [dflt]. *)
Definition or_default (o : option string) (dflt : string) : string :=
  match o with
  | Some s => if truthy s then s else dflt
  | None => dflt
  end.

Definition digit_char (d : Z) : ascii := ascii_of_nat (48 + Z.to_nat d).

Definition digit_value (c : ascii) : option Z :=
  let n := Z.of_nat (nat_of_ascii c) in
  if (48 <=? n) && (n <=? 57) then Some (n - 48) else None.

(** The [n] lowest decimal digits of [z], highest first. *)
Fixpoint digitsN (n : nat) (z : Z) : string :=
  match n with
  | O => EmptyString
  | S k => digitsN k (z / 10) ++ String (digit_char (z mod 10)) EmptyString
  end.

(** Read exactly [n] decimal digits. *)
Fixpoint take_digits (n : nat) (s : string) (acc : Z) : option (Z * string) :=
  match n with
  | O => Some (acc, s)
  | S k =>
      match s with
      | String c r =>
          match digit_value c with
          | Some v => take_digits k r (10 * acc + v)
          | None => None
          end
      | EmptyString => None
      end
  end.

(** [n.toString()] of an integer: its decimal form, which is what the host
    prints for the integers of magnitude below 2^53 (the host's numbers
    are doubles, and it turns to the exponent form from 1e21 on). *)
Definition Number_toString (z : Z) : string := NilZero.string_of_int (Z.to_int z).

(** [String(n)] of a number that may be not-a-number. *)
Definition number_toString (n : option Z) : string :=
  match n with
  | Some z => Number_toString z
  | None => "NaN"
  end.

(** The white space and the line terminators of the host among the code
    units below 256: TAB, LF, VT, FF, CR, the space and the no-break space
    U+00A0. *)
Definition is_white (c : ascii) : bool :=
  let n := nat_of_ascii c in
  (Nat.eqb n 32) || ((Nat.leb 9 n) && (Nat.leb n 13)) || (Nat.eqb n 160).

Fixpoint skip_white (s : string) : string :=
  match s with
  | String c r => if is_white c then skip_white r else s
  | EmptyString => s
  end.

(** The value of the longest prefix of decimal digits; [None] when the
    prefix is empty. *)
Fixpoint digits_prefix (s : string) (acc : option Z) : option Z :=
  match s with
  | String c r =>
      match digit_value c with
      | Some v => digits_prefix r (Some (10 * default 0 acc + v))
      | None => acc
      end
  | EmptyString => acc
  end.

(** [parseInt(s, 10)]: leading white space is skipped, a sign is read, and
    the longest prefix of digits is the value; not-a-number without one.
    The value is the exact integer, which is what the host returns below
    2^53 (beyond, the host rounds to a double). *)
Definition parseInt (s : string) : option Z :=
  match skip_white s with
  | String "-"%char r => option_map Z.opp (digits_prefix r None)
  | String "+"%char r => digits_prefix r None
  | r => digits_prefix r None
  end.

End JSString.

(* ===================================================================== *)
(** * Exceptions and outcomes *)
(* ===================================================================== *)

(** A thrown value: every value thrown in the worker is an [Error] object
    (or one of its subclasses) with a message. *)
Record JsError : Type := mkError { err_name : string; err_message : string }.

(** How a computation ends: with a value, with an exception, or not at all
    (the recursion budget of the model is used up). *)
Inductive Outcome (A : Type) : Type :=
  | Ret (a : A)
  | Throw (e : JsError)
  | Diverge.
Arguments Ret {A} a.
Arguments Throw {A} e.
Arguments Diverge {A}.

(* ===================================================================== *)
(** * Time values and dates (ECMA-262, 21.4.1) *)
(* ===================================================================== *)

Module JSDate.

Definition msPerDay : Z := 86400000.

(** [Day(t) = floor(t / msPerDay)], [TimeWithinDay(t) = t modulo msPerDay]. *)
Definition Day (t : Z) : Z := t / msPerDay.
Definition TimeWithinDay (t : Z) : Z := t mod msPerDay.

Definition DaysInYear (y : Z) : Z :=
  if negb (y mod 4 =? 0) then 365
  else if negb (y mod 100 =? 0) then 366
  else if negb (y mod 400 =? 0) then 365
  else 366.

Definition DayFromYear (y : Z) : Z :=
  365 * (y - 1970) + (y - 1969) / 4 - (y - 1901) / 100 + (y - 1601) / 400.

Definition TimeFromYear (y : Z) : Z := msPerDay * DayFromYear y.

(** The year of a day number: the largest [y] with [DayFromYear y <= d].
    The mean year has 146097/400 days, which gives an estimate that is off
    by at most one ([YearFromDay_spec] below proves the characterisation). *)
Definition YearFromDay (d : Z) : Z :=
  let y := 1970 + (400 * d) / 146097 in
  if DayFromYear (y + 1) <=? d then y + 1
  else if DayFromYear y <=? d then y
  else y - 1.

Definition YearFromTime (t : Z) : Z := YearFromDay (Day t).

(** [InLeapYear] as the number 0 or 1, as the standard uses it. *)
Definition LeapOfYear (y : Z) : Z := if DaysInYear y =? 366 then 1 else 0.
Definition InLeapYear (t : Z) : Z := LeapOfYear (YearFromTime t).

Definition DayWithinYear (t : Z) : Z := Day t - DayFromYear (YearFromTime t).

(** The month (0 to 11) of the day [dwy] of a year with leap flag [l]. *)
Definition MonthOfDayWithinYear (dwy l : Z) : Z :=
  if dwy <? 31 then 0
  else if dwy <? 59 + l then 1
  else if dwy <? 90 + l then 2
  else if dwy <? 120 + l then 3
  else if dwy <? 151 + l then 4
  else if dwy <? 181 + l then 5
  else if dwy <? 212 + l then 6
  else if dwy <? 243 + l then 7
  else if dwy <? 273 + l then 8
  else if dwy <? 304 + l then 9
  else if dwy <? 334 + l then 10
  else 11.

Definition MonthFromTime (t : Z) : Z :=
  MonthOfDayWithinYear (DayWithinYear t) (InLeapYear t).

(** The day within the year on which month [m] (0 to 11) starts. *)
Definition MonthStart (m l : Z) : Z :=
  if m =? 0 then 0
  else if m =? 1 then 31
  else if m =? 2 then 59 + l
  else if m =? 3 then 90 + l
  else if m =? 4 then 120 + l
  else if m =? 5 then 151 + l
  else if m =? 6 then 181 + l
  else if m =? 7 then 212 + l
  else if m =? 8 then 243 + l
  else if m =? 9 then 273 + l
  else if m =? 10 then 304 + l
  else 334 + l.

(** [DateFromTime]: the day of the month, 1 to 31. *)
Definition DateFromTime (t : Z) : Z :=
  DayWithinYear t - MonthStart (MonthFromTime t) (InLeapYear t) + 1.

(** [MakeDay(year, month, date)]: the day number of the first day of the
    month [month] counted from January of [year] (any integer: the year is
    carried), plus [date - 1]. *)
Definition MakeDay (year month date : Z) : Z :=
  let ym := year + month / 12 in
  let mn := month mod 12 in
  DayFromYear ym + MonthStart mn (LeapOfYear ym) + date - 1.

Definition MakeTime (hour min sec ms : Z) : Z :=
  hour * 3600000 + min * 60000 + sec * 1000 + ms.

Definition MakeDate (day time : Z) : Z := day * msPerDay + time.

(** [TimeClip]: a time value is at most 8.64e15 ms from the epoch. *)
Definition TimeClip (t : Z) : option Z :=
  if Z.abs t <=? 8640000000000000 then Some t else None.

(** [MakeFullYear]: the years 0 to 99 stand for 1900 to 1999. *)
Definition MakeFullYear (y : Z) : Z :=
  if (0 <=? y) && (y <=? 99) then 1900 + y else y.

(** A date object holds a time value, or not-a-number when invalid. *)
Definition Date : Type := option Z.

(** [Date.UTC(year, month, date)] followed by [new Date(tv)]. *)
Definition UTC (year month date : option Z) : Date :=
  match year, month, date with
  | Some y, Some m, Some d =>
      TimeClip (MakeDate (MakeDay (MakeFullYear y) m d) (MakeTime 0 0 0 0))
  | _, _, _ => None
  end.

Definition getUTCFullYear (d : Date) : option Z := option_map YearFromTime d.
Definition getUTCMonth (d : Date) : option Z := option_map MonthFromTime d.
Definition getUTCDate (d : Date) : option Z := option_map DateFromTime d.

(** [d.setUTCDate(date)]: the new time value of [d]. *)
Definition setUTCDate (d : Date) (date : option Z) : Date :=
  match d, date with
  | Some t, Some dt =>
      TimeClip (MakeDate (MakeDay (YearFromTime t) (MonthFromTime t) dt)
                         (TimeWithinDay t))
  | _, _ => None
  end.

(** [a <= b] on dates compares the time values; false on not-a-number. *)
Definition le (a b : Date) : bool :=
  match a, b with
  | Some x, Some y => x <=? y
  | _, _ => false
  end.

Definition HourFromTime (t : Z) : Z := (t / 3600000) mod 24.
Definition MinFromTime (t : Z) : Z := (t / 60000) mod 60.
Definition SecFromTime (t : Z) : Z := (t / 1000) mod 60.
Definition msFromTime (t : Z) : Z := t mod 1000.

(** The year of the date-time string format: four digits from 0 to 9999,
    otherwise a sign and six digits. *)
Definition year_string (y : Z) : string :=
  if (0 <=? y) && (y <=? 9999) then JSString.digitsN 4 y
  else (if y <? 0 then "-" else "+") ++ JSString.digitsN 6 (Z.abs y).

Definition iso_string (t : Z) : string :=
  year_string (YearFromTime t) ++ "-" ++ JSString.digitsN 2 (MonthFromTime t + 1)
    ++ "-" ++ JSString.digitsN 2 (DateFromTime t)
    ++ "T" ++ JSString.digitsN 2 (HourFromTime t)
    ++ ":" ++ JSString.digitsN 2 (MinFromTime t)
    ++ ":" ++ JSString.digitsN 2 (SecFromTime t)
    ++ "." ++ JSString.digitsN 3 (msFromTime t) ++ "Z".

(** [d.toISOString()]: a [RangeError] on an invalid date. *)
Definition toISOString (d : Date) : Outcome string :=
  match d with
  | Some t => Ret (iso_string t)
  | None => Throw (mkError "RangeError" "Invalid time value")
  end.

(** The number of days of the month [m] (0 to 11) of a year with leap flag
    [l], and of the month [m] of the year [y]. *)
Definition MonthLength (m l : Z) : Z :=
  if m =? 1 then 28 + l
  else if (m =? 3) || (m =? 5) || (m =? 8) || (m =? 10) then 30
  else 31.

Definition DaysInMonth (y m : Z) : Z := MonthLength m (LeapOfYear y).

(** ** Parsing the date-time string format

    [new Date(s)] for the strings of the format of 21.4.1.32 that carry a
    date (a year of four digits or a signed year of six, then optionally
    the month and the day) and either nothing more or the complete UTC
    time [THH:mm:ss.sssZ], as the host of the worker (V8) reads them: the
    month is from 01 to 12 and the day from 01 to 31, whatever the month,
    and [MakeDay] carries a day beyond the end of the month over into the
    next one (2025-02-30 is read as 2025-03-02).  A field out of its range
    makes the date invalid.  A string outside the format is left by the
    standard to the implementation; it is read as an invalid date here,
    and nothing that is proved below rests on how such a string is read:
    the worker parses only what it has cut from [toISOString]. *)

Definition parse_year (s : string) : option (Z * string) :=
  match s with
  | String "+"%char r => JSString.take_digits 6 r 0
  | String "-"%char r =>
      match JSString.take_digits 6 r 0 with
      | Some (y, r') => if y =? 0 then None else Some (- y, r')
      | None => None
      end
  | _ => JSString.take_digits 4 s 0
  end.

(** An optional field of two digits after the separator [sep]. *)
Definition parse_field (sep : ascii) (dflt : Z) (s : string) : option (Z * string) :=
  match s with
  | String c r =>
      if Ascii.eqb c sep then JSString.take_digits 2 r 0 else Some (dflt, s)
  | EmptyString => Some (dflt, s)
  end.

Definition parse_time (s : string) : option Z :=
  match s with
  | EmptyString => Some 0
  | String "T"%char r =>
      match JSString.take_digits 2 r 0 with
      | Some (h, String ":"%char r1) =>
          match JSString.take_digits 2 r1 0 with
          | Some (mi, String ":"%char r2) =>
              match JSString.take_digits 2 r2 0 with
              | Some (sec, String "."%char r3) =>
                  match JSString.take_digits 3 r3 0 with
                  | Some (ms, String "Z"%char EmptyString) =>
                      if ((h <=? 23) && (mi <=? 59) && (sec <=? 59))
                         || ((h =? 24) && (mi =? 0) && (sec =? 0) && (ms =? 0))
                      then Some (MakeTime h mi sec ms) else None
                  | _ => None
                  end
              | _ => None
              end
          | _ => None
          end
      | _ => None
      end
  | _ => None
  end.

Definition parse (s : string) : Date :=
  match parse_year s with
  | Some (y, r) =>
      match parse_field "-" 1 r with
      | Some (mo, r1) =>
          match parse_field "-" 1 r1 with
          | Some (dt, r2) =>
              match parse_time r2 with
              | Some time =>
                  if (1 <=? mo) && (mo <=? 12) && (1 <=? dt) && (dt <=? 31)
                  then TimeClip (MakeDate (MakeDay y (mo - 1) dt) time)
                  else None
              | None => None
              end
          | None => None
          end
      | None => None
      end
  | None => None
  end.

End JSDate.


(* ===================================================================== *)
(** * The calendar, as the specification speaks of it *)
(* ===================================================================== *)

(** Months are counted from 1 here, as on a calendar. *)
Module Calendar.

(** A year is a leap year when it is a multiple of 4, except the multiples
    of 100 that are not multiples of 400. *)
Definition is_leap_year (y : Z) : bool :=
  (y mod 4 =? 0) && (negb (y mod 100 =? 0) || (y mod 400 =? 0)).

(** The number of days of the month [m] (1 to 12) of the year [y]. *)
Definition days_in_month (y m : Z) : Z :=
  if m =? 2 then (if is_leap_year y then 29 else 28)
  else if (m =? 4) || (m =? 6) || (m =? 9) || (m =? 11) then 30
  else 31.

Definition valid_date (y m d : Z) : Prop :=
  1 <= m <= 12 /\ 1 <= d <= days_in_month y m.

(** The date [y]-[m]-[d] in the form YYYY-MM-DD (the year in the expanded
    form outside 0 to 9999). *)
Definition iso_date (y m d : Z) : string :=
  JSDate.year_string y +:+ "-" +:+ JSString.digitsN 2 m +:+ "-" +:+ JSString.digitsN 2 d.

(** The day number (days since 1970-01-01) of a date of the calendar. *)
Definition day_number (y m d : Z) : Z := JSDate.MakeDay y (m - 1) d.

(** The date of a day number, in the form YYYY-MM-DD. *)
Definition iso_of_day (n : Z) : string :=
  let t := JSDate.MakeDate n 0 in
  iso_date (JSDate.YearFromTime t) (JSDate.MonthFromTime t + 1) (JSDate.DateFromTime t).

(** The day numbers of the years 0 to 9999: from 0000-01-01 to 9999-12-31. *)
Definition in_window (n : Z) : Prop := -719528 <= n < 2932897.

(** The day numbers from [a] to [b], both included, in ascending order. *)
Definition days_from_to (a b : Z) : list Z :=
  map (fun i => a + Z.of_nat i) (seq 0 (Z.to_nat (b - a + 1))).

End Calendar.

(* ===================================================================== *)
(** * The worker *)
(* ===================================================================== *)

Module Worker.

Local Open Scope string_scope.

(** ** What the worker talks to *)

(** The bindings of [interface Env], apart from the store [KV], which is
    part of the state below. *)
Record Env : Type := {
  EMAIL : string;
  PASSWORD : string;
  TELEGRAM_BOT_TOKEN : string;
  TELEGRAM_CHAT_ID : string;
  TARGET_SITE_ID : option string;
  TARGET_MONTH_OFFSET : option string;
  PERSONS : option string
}.

(** [interface AuthCookie]: the token, and the JSON text of the whole
    object (what [JSON.stringify] gives for it). *)
Record AuthCookie : Type := { accessToken : string; cookie_json : string }.

(** A record of the disabled-dates answer; only [date] is read, and it may
    be missing. *)
Record DisabledDateRecord : Type := { date : option string }.

(** [interface MonthRange]. *)
Record MonthRange : Type := {
  startISO : string;
  endISO : string;
  displayMonth : option Z;
  displayYear : option Z
}.

(** What [fetch] gives: a rejection (a network failure), or a response with
    its status, its body as text, and its body read as JSON (a
    [SyntaxError] is thrown when the body is not JSON). *)
Record Response (A : Type) : Type := {
  status : Z;
  text : string;
  json : Outcome A
}.
Arguments status {A} _.
Arguments text {A} _.
Arguments json {A} _.

Inductive Reply (A : Type) : Type :=
  | Rejected (e : JsError)
  | Responded (r : Response A).
Arguments Rejected {A} e.
Arguments Responded {A} r.

(** [res.ok]: a status from 200 to 299. *)
Definition ok {A} (r : Response A) : bool :=
  ((200 <=? status r)%Z && (status r <=? 299)%Z)%bool.

(** The remote side and the clock: the [n]-th request to an endpoint gets
    the [n]-th reply of the endpoint, the [n]-th reading of the clock the
    [n]-th time value. *)
Record Remote : Type := {
  login_reply : nat -> Reply AuthCookie;
  dates_reply : nat -> Reply (list DisabledDateRecord);
  telegram_reply : nat -> Reply unit;
  clock : nat -> Z
}.

(** The functions of the host that the worker uses as they are. *)
Record Host : Type := {
  (** the SHA-256 digest of the UTF-8 encoding, in hexadecimal *)
  sha256 : string -> string;
  (** [new Date(t).toLocaleString("RU", { timeZone: "Europe/Moscow" })] *)
  toLocaleString : Z -> string;
  encodeURIComponent : string -> string;
  (** [JSON.stringify({ email, password })] *)
  credentials_json : string -> string -> string;
  (** the value stored under "Cookie" read as JSON: a [SyntaxError], a
      falsy value, or the object *)
  cookie_of_json : string -> Outcome (option AuthCookie)
}.

(** The effects of a run, the latest first: a reading of the clock, a
    write to the store, a request to one of the three endpoints (with what
    the request carries), a call of [console.log] or [console.error] (with
    its first argument). *)
Inductive Event : Type :=
  | EvClock
  | EvKvPut (key value : string) (expirationTtl : option Z)
  | EvKvDelete (key : string)
  | EvLogin (url body : string)
  | EvDates (url authorization cookie : string)
  | EvTelegram (url chat_id text : string)
  | EvConsole (label : string).

(** The state: the key-value store and the effects so far. *)
Record World : Type := { kv : gmap string string; trace : list Event }.

Definition is_login (e : Event) : bool := match e with EvLogin _ _ => true | _ => false end.
Definition is_dates (e : Event) : bool := match e with EvDates _ _ _ => true | _ => false end.
Definition is_telegram (e : Event) : bool := match e with EvTelegram _ _ _ => true | _ => false end.
Definition is_clock (e : Event) : bool := match e with EvClock => true | _ => false end.

(** How many effects of a kind a trace holds. *)
Definition count (p : Event -> bool) (tr : list Event) : nat :=
  length (List.filter p tr).

(** ** The monad of the worker: state and exceptions *)

Definition M (A : Type) : Type := World -> Outcome A * World.

Definition ret {A} (a : A) : M A := fun w => (Ret a, w).
Definition throw {A} (e : JsError) : M A := fun w => (Throw e, w).
Definition diverge {A} : M A := fun w => (Diverge, w).

Definition bind {A B} (m : M A) (k : A -> M B) : M B :=
  fun w =>
    match m w with
    | (Ret a, w') => k a w'
    | (Throw e, w') => (Throw e, w')
    | (Diverge, w') => (Diverge, w')
    end.

(** [try { m } catch (err) { h(err) }]. *)
Definition try_catch {A} (m : M A) (h : JsError -> M A) : M A :=
  fun w =>
    match m w with
    | (Throw e, w') => h e w'
    | r => r
    end.

Definition lift {A} (o : Outcome A) : M A := fun w => (o, w).

Notation "x <- m ;; k" := (bind m (fun x => k))
  (at level 100, m at next level, right associativity).
Notation "m ;;; k" := (bind m (fun _ => k))
  (at level 100, right associativity).

Definition emit (e : Event) : M unit :=
  fun w => (Ret tt, {| kv := kv w; trace := e :: trace w |}).

Definition console (line : string) : M unit := emit (EvConsole line).

(** [env.KV.get], [env.KV.put], [env.KV.delete].  The expiry of a key is
    part of the effect but not of the store: a key stays until it is
    overwritten or deleted (only "Cookie" is written with an expiry, and
    [ensureAuth] logs in again whenever it is absent). *)
Definition KV_get (k : string) : M (option string) := fun w => (Ret (kv w !! k), w).

Definition KV_put (k v : string) (ttl : option Z) : M unit :=
  fun w => (Ret tt, {| kv := <[k := v]> (kv w); trace := EvKvPut k v ttl :: trace w |}).

Definition KV_delete (k : string) : M unit :=
  fun w => (Ret tt, {| kv := delete k (kv w); trace := EvKvDelete k :: trace w |}).

Section Program.

Variable H : Host.
Variable R : Remote.
Variable env : Env.

(** [new Date()]: the next reading of the clock. *)
Definition now : M Z :=
  fun w => (Ret (clock R (count is_clock (trace w))),
            {| kv := kv w; trace := EvClock :: trace w |}).

(** A [fetch] of an endpoint: the request is an effect, the reply is the
    next one of the endpoint; a rejection is thrown. *)
Definition fetch {A} (request : Event) (p : Event -> bool) (replies : nat -> Reply A)
  : M (Response A) :=
  fun w =>
    let w' := {| kv := kv w; trace := request :: trace w |} in
    match replies (count p (trace w)) with
    | Rejected e => (Throw e, w')
    | Responded r => (Ret r, w')
    end.

(** ** Helpers *)

Definition BASE_URL := "https://ru.almaviva-visa.services".
Definition LOGIN_ENDPOINT := "/api/login".
Definition DISABLED_DATES_ENDPOINT := "/api/sites/disabled-dates/".

Definition timestamp : M string :=
  t <- now ;; ret (toLocaleString H t).

(** [s.split("-")]. *)
Fixpoint split_dash (s cur : string) : list string :=
  match s with
  | EmptyString => [cur]
  | String c r =>
      if Ascii.eqb c "-" then cur :: split_dash r ""
      else split_dash r (cur ++ String c "")
  end.

(** A component of a destructured array; [undefined] prints as such. *)
Definition component (l : list string) (i : nat) : string := nth i l "undefined".

Definition toDDMMYYYY (iso : string) : string :=
  let parts := split_dash iso "" in
  component parts 2 ++ "/" ++ component parts 1 ++ "/" ++ component parts 0.

Definition pad2 (n : option Z) : string :=
  JSString.padStart (JSString.number_toString n) 2 "0".

Definition truncate (s : string) (max : Z) : string :=
  if (max <? JSString.len s)%Z then JSString.slice s 0 (max - 3) ++ "..." else s.

Definition objectToCookieString (obj : list (string * string)) : string :=
  JSString.join "; "
    (map (fun kv => encodeURIComponent H (fst kv) ++ "=" ++ encodeURIComponent H (snd kv)) obj).

Definition prepareCookie (cookie : AuthCookie) : string :=
  objectToCookieString
    [("auth-token", accessToken cookie);
     ("auth-user", cookie_json cookie);
     ("cookie-consent", "true")].

Definition nl : string := String (ascii_of_nat 10) "".

(** ** Authentication *)

Definition login : M AuthCookie :=
  console "Authenticating..." ;;;
  res <- fetch (EvLogin (BASE_URL ++ LOGIN_ENDPOINT)
                  (credentials_json H (EMAIL env) (PASSWORD env)))
               is_login (login_reply R) ;;
  if negb (ok res) then
    throw (mkError "Error"
             ("Login failed: " ++ JSString.Number_toString (status res) ++ " " ++ text res))
  else
    json <- lift (json res) ;;
    KV_put "Cookie" (cookie_json json) (Some (8 * 60 * 60)%Z) ;;;
    ts <- timestamp ;;
    KV_put "Last_auth" ts None ;;;
    ret json.

Definition ensureAuth : M AuthCookie :=
  stored <- KV_get "Cookie" ;;
  cookie <- match stored with
            | Some v => lift (cookie_of_json H v)
            | None => ret None
            end ;;
  match cookie with
  | Some c => ret c
  | None => login
  end.

(** ** Date fetching and parsing *)

Definition calculateMonthRange (offset : option Z) : M MonthRange :=
  t <- now ;;
  let now_ : JSDate.Date := Some t in
  let first :=
    JSDate.UTC (JSDate.getUTCFullYear now_)
               (match JSDate.getUTCMonth now_, offset with
                | Some m, Some o => Some (m + o)%Z
                | _, _ => None
                end)
               (Some 1%Z) in
  let last :=
    JSDate.UTC (JSDate.getUTCFullYear first)
               (option_map (fun m => (m + 1)%Z) (JSDate.getUTCMonth first))
               (Some 0%Z) in
  s1 <- lift (JSDate.toISOString first) ;;
  s2 <- lift (JSDate.toISOString last) ;;
  ret {| startISO := JSString.slice s1 0 10;
         endISO := JSString.slice s2 0 10;
         displayMonth := option_map (fun m => (m + 1)%Z) (JSDate.getUTCMonth first);
         displayYear := JSDate.getUTCFullYear first |}.

(** The loop of [computeAvailableDays]: while [d <= end], push the date of
    [d] and move [d] to the next day.  [budget] bounds the number of
    rounds; [loop_budget] is the number of days from [d] to [end], which
    the loop never exceeds. *)
Fixpoint all_dates_loop (budget : nat) (d end_ : JSDate.Date) (all : list string)
  : Outcome (list string) :=
  if JSDate.le d end_ then
    match budget with
    | O => Diverge
    | S b =>
        match JSDate.toISOString d with
        | Ret s =>
            all_dates_loop b
              (JSDate.setUTCDate d (option_map (fun x => (x + 1)%Z) (JSDate.getUTCDate d)))
              end_ (all ++ [JSString.slice s 0 10])
        | Throw e => Throw e
        | Diverge => Diverge
        end
    end
  else Ret all.

Definition loop_budget (d end_ : JSDate.Date) : nat :=
  match d, end_ with
  | Some a, Some b => Z.to_nat ((b - a) / JSDate.msPerDay + 1)
  | _, _ => O
  end.

(** The callback of [disabledDates.map]: [null] for a record without a
    (truthy) date, otherwise the first ten characters of the date. *)
Definition disabled_iso (x : DisabledDateRecord) : option string :=
  match date x with
  | Some s => if JSString.truthy s then Some (JSString.substring s 0 10) else None
  | None => None
  end.

(** [.filter(Boolean)]: [null] and the empty string are dropped. *)
Definition filter_Boolean (l : list (option string)) : list string :=
  omap (fun o => match o with
                 | Some s => if JSString.truthy s then Some s else None
                 | None => None
                 end) l.

Definition computeAvailableDays (disabledDates : list DisabledDateRecord)
    (range : MonthRange) : Outcome (list string) :=
  let d := JSDate.parse (startISO range ++ "T00:00:00.000Z") in
  let end_ := JSDate.parse (endISO range ++ "T00:00:00.000Z") in
  match all_dates_loop (loop_budget d end_) d end_ [] with
  | Ret all =>
      let disabledSet : gset string :=
        list_to_set (filter_Boolean (map disabled_iso disabledDates)) in
      Ret (List.filter (fun dateISO => negb (bool_decide (dateISO ∈ disabledSet))) all)
  | Throw e => Throw e
  | Diverge => Diverge
  end.

(** The body of [fetchAvailableDates]; [self] stands for the function
    itself, which the body calls after a refusal of the credential. *)
Definition fetchAvailableDates_body
    (self : AuthCookie -> M (list string * MonthRange)) (cookie : AuthCookie)
  : M (list string * MonthRange) :=
  let siteId := JSString.or_default (TARGET_SITE_ID env) "16" in
  let persons := JSString.or_default (PERSONS env) "1" in
  let monthOffset :=
    JSString.parseInt (JSString.or_default (TARGET_MONTH_OFFSET env) "0") in
  range <- calculateMonthRange monthOffset ;;
  let startParam := toDDMMYYYY (startISO range) in
  let endParam := toDDMMYYYY (endISO range) in
  let url := BASE_URL ++ DISABLED_DATES_ENDPOINT ++ "?start=" ++ startParam
             ++ "&end=" ++ endParam ++ "&siteId=" ++ siteId
             ++ "&persons=" ++ persons in
  res <- fetch (EvDates url ("Bearer " ++ accessToken cookie) (prepareCookie cookie))
               is_dates (dates_reply R) ;;
  if ((status res =? 401) || (status res =? 403))%Z then
    console "Auth token expired, re-authenticating..." ;;;
    KV_delete "Cookie" ;;;
    newCookie <- login ;;
    self newCookie
  else if negb (ok res) then
    ts <- timestamp ;;
    KV_put "Last" (JSString.Number_toString (status res) ++ ":" ++ ts) None ;;;
    throw (mkError "Error"
             ("Dates fetch failed: " ++ JSString.Number_toString (status res)))
  else
    ts <- timestamp ;;
    KV_put "Last" ("200:" ++ ts) None ;;;
    disabledList <- lift (json res) ;;
    availableDates <- lift (computeAvailableDays disabledList range) ;;
    ret (availableDates, range).

(** [fetchAvailableDates]: [fuel] bounds the depth of the recursion of the
    function on itself; the run has no outcome when it is used up. *)
Fixpoint fetchAvailableDates (fuel : nat) : AuthCookie -> M (list string * MonthRange) :=
  match fuel with
  | O => fun _ => diverge
  | S fuel' => fetchAvailableDates_body (fetchAvailableDates fuel')
  end.

(** ** Telegram *)

Definition sendTelegram (text_ : string) : M unit :=
  if negb (JSString.truthy text_) then ret tt
  else
    let url := "https://api.telegram.org/bot" ++ TELEGRAM_BOT_TOKEN env
               ++ "/sendMessage" in
    res <- fetch (EvTelegram url (TELEGRAM_CHAT_ID env) text_)
                 is_telegram (telegram_reply R) ;;
    if negb (ok res) then console "Telegram send failed" else ret tt.

(** ** Notification logic *)

Definition buildDatesMessage (dates : list string) (range : MonthRange) : string :=
  let header := "✅ Free dates for " ++ pad2 (displayMonth range) ++ "/"
                ++ JSString.number_toString (displayYear range) ++ ":" in
  let list := JSString.join nl (map (fun d => "• " ++ d) (firstn 15 dates)) in
  let extra :=
    if (15 <? Z.of_nat (length dates))%Z
    then nl ++ "…(+" ++ JSString.Number_toString (Z.of_nat (length dates) - 15) ++ " more)"
    else "" in
  header ++ nl ++ list ++ extra.

Definition maybeNotifyNewDates (dates : list string) (range : MonthRange) : M unit :=
  let hash := sha256 H (JSString.join "," dates) in
  lastHash <- KV_get "Last_dates" ;;
  if bool_decide (lastHash = Some hash) then
    console "Dates unchanged; notification suppressed."
  else
    KV_put "Last_dates" hash None ;;;
    sendTelegram (buildDatesMessage dates range).

(** ** Error and failure handling *)

Definition recordFailureAndMaybeNotify (err : JsError) : M unit :=
  let failCountKey := "fail_count" in
  stored <- KV_get failCountKey ;;
  let prev := JSString.parseInt (JSString.or_default stored "0") in
  let current := option_map (fun p => (p + 1)%Z) prev in
  KV_put failCountKey (JSString.number_toString current) None ;;;
  let msg := err_message err in
  lastErrMsg <- KV_get "last_error_msg" ;;
  if negb (bool_decide (lastErrMsg = Some msg)) then
    KV_put "last_error_msg" msg None ;;;
    sendTelegram ("❗ Error: " ++ truncate msg 300 ++ " (fail #"
                  ++ JSString.number_toString current ++ ")")
  else
    match current with
    | Some c =>
        if ((c =? 3) || (c =? 5) || (Z.rem c 10 =? 0))%Z then
          sendTelegram ("⚠️ Still failing (" ++ JSString.Number_toString c
                        ++ " times): " ++ truncate msg 200)
        else ret tt
    | None => ret tt
    end.

Definition resetFailureCount : M unit :=
  KV_put "fail_count" "0" None ;;;
  KV_delete "last_error_msg".

(** ** Core orchestration *)

(** The block guarded by the [try] of [runCheck]. *)
Definition runCheck_try (fuel : nat) : M unit :=
  cookie <- ensureAuth ;;
  r <- fetchAvailableDates fuel cookie ;;
  let '(availableDates, monthRange) := r in
  if (0 <? Z.of_nat (length availableDates))%Z then
    maybeNotifyNewDates availableDates monthRange ;;;
    resetFailureCount
  else
    resetFailureCount ;;;
    ts <- timestamp ;;
    KV_put "Last" ("200:" ++ ts) None.

Definition runCheck (fuel : nat) : M unit :=
  try_catch (runCheck_try fuel)
    (fun err => console "runCheck error" ;;; recordFailureAndMaybeNotify err).

(** ** The two triggers *)

(** [fetch(_request, env)]: the manual trigger; the text of its answer. *)
Definition fetch_handler (fuel : nat) : M string :=
  try_catch (runCheck fuel)
    (fun err => console "Fetch-triggered runCheck error") ;;;
  status_ <- KV_get "Last" ;;
  lastAuth <- KV_get "Last_auth" ;;
  lastDates <- KV_get "Last_dates" ;;
  ret ("Last check: " ++ JSString.or_default status_ "n/a" ++ nl
       ++ "Last auth: " ++ JSString.or_default lastAuth "n/a" ++ nl
       ++ "Last dates hash: " ++ JSString.or_default lastDates "n/a" ++ nl).

(** [scheduled(_event, env, ctx)]: the timer trigger hands the promise of
    [runCheck] to [ctx.waitUntil]; the outcome is that of the promise. *)
Definition scheduled (fuel : nat) : M unit := runCheck fuel.

End Program.

(** ** What a run shows *)

(** The address of the messaging bot, as [sendTelegram] builds it. *)
Definition telegram_url (env : Env) : string :=
  "https://api.telegram.org/bot" +:+ TELEGRAM_BOT_TOKEN env +:+ "/sendMessage".

(** The texts sent to the messaging bot, the latest first. *)
Definition telegrams (w : World) : list string :=
  omap (fun e => match e with EvTelegram _ _ t => Some t | _ => None end) (trace w).

(** The first ten characters of the date fields of the records that have
    one. *)
Definition disabled_prefixes (l : list DisabledDateRecord) : list string :=
  omap (fun x => option_map (String.substring 0 10) (date x)) l.

(** The counts of the failure tracker at which a repeated error is
    reported again: 3, 5 and the multiples of 10. *)
Definition escalates (current : option Z) : Prop :=
  current = Some 3%Z \/ current = Some 5%Z \/ exists k : Z, current = Some (10 * k)%Z.

(** The failure count that [recordFailureAndMaybeNotify] works with: the
    stored count, read as the code reads it, plus one. *)
Definition next_fail_count (w : World) : option Z :=
  option_map (fun p => (p + 1)%Z)
    (JSString.parseInt (JSString.or_default (kv w !! "fail_count") "0")).

(** The two texts of the failure tracker. *)
Definition error_text (msg : string) (current : option Z) : string :=
  "❗ Error: " +:+ truncate msg 300 +:+ " (fail #" +:+ JSString.number_toString current +:+ ")".

Definition still_failing_text (msg : string) (c : Z) : string :=
  "⚠️ Still failing (" +:+ JSString.Number_toString c +:+ " times): " +:+ truncate msg 200.

(** The state after the failure count is written. *)
Definition counted (w : World) : World :=
  {| kv := <["fail_count" := JSString.number_toString (next_fail_count w)]> (kv w);
     trace := EvKvPut "fail_count" (JSString.number_toString (next_fail_count w)) None :: trace w |}.

End Worker.

(* ===================================================================== *)
(** * Concrete hosts, remotes and states, for the examples *)
(* ===================================================================== *)

Module Fixture.
Import Worker.

Definition host : Host :=
  {| sha256 := fun s => "sha256:" +:+ s;
     toLocaleString := fun t => JSString.Number_toString t;
     encodeURIComponent := fun s => s;
     credentials_json := fun e p => e +:+ ":" +:+ p;
     cookie_of_json := fun s => Ret (Some {| accessToken := s; cookie_json := s |}) |}.

Definition env : Env :=
  {| EMAIL := "user@example.org"; PASSWORD := "secret";
     TELEGRAM_BOT_TOKEN := "bot"; TELEGRAM_CHAT_ID := "chat";
     TARGET_SITE_ID := None; TARGET_MONTH_OFFSET := None; PERSONS := None |}.

Definition response {A} (st : Z) (body : Outcome A) : Reply A :=
  Responded {| status := st; text := ""; json := body |}.

Definition credential : AuthCookie := {| accessToken := "T"; cookie_json := "{T}" |}.

(** 2025-07-08T18:40:00.123Z *)
Definition july_2025 : Z := 1752000000123.

(** A remote where everything succeeds; two days of July 2025 are
    disabled, and one record has no date. *)
Definition remote_ok : Remote :=
  {| login_reply := fun _ => response 200 (Ret credential);
     dates_reply := fun _ =>
       response 200 (Ret [ {| date := Some "2025-07-01" |};
                           {| date := Some "2025-07-05T00:00:00" |};
                           {| date := None |} ]);
     telegram_reply := fun _ => response 200 (Ret tt);
     clock := fun _ => july_2025 |}.

(** A remote whose availability endpoint refuses every credential. *)
Definition remote_expired : Remote :=
  {| login_reply := fun _ => response 200 (Ret credential);
     dates_reply := fun _ => response 401 (Ret []);
     telegram_reply := fun _ => response 200 (Ret tt);
     clock := fun _ => july_2025 |}.

(** A remote whose login fails and whose messaging bot is unreachable. *)
Definition remote_down : Remote :=
  {| login_reply := fun _ => response 500 (Ret credential);
     dates_reply := fun _ => response 200 (Ret []);
     telegram_reply := fun _ => Rejected (mkError "TypeError" "fetch failed");
     clock := fun _ => july_2025 |}.

(** A remote whose login fails while the messaging bot works. *)
Definition remote_login_down : Remote :=
  {| login_reply := fun _ =>
       Responded {| status := 503; text := "busy"; json := Ret credential |};
     dates_reply := fun _ => response 200 (Ret []);
     telegram_reply := fun _ => response 200 (Ret tt);
     clock := fun _ => july_2025 |}.

(** The availability endpoint refuses the first two requests and accepts
    the third. *)
Definition remote_refusing_twice : Remote :=
  {| login_reply := fun _ => response 200 (Ret credential);
     dates_reply := fun n =>
       if (n <? 2)%nat then response 401 (Ret []) else response 200 (Ret []);
     telegram_reply := fun _ => response 200 (Ret tt);
     clock := fun _ => july_2025 |}.

(** The availability endpoint refuses the first request only. *)
Definition remote_refusing_once : Remote :=
  {| login_reply := fun _ => response 200 (Ret credential);
     dates_reply := fun n =>
       if (n <? 1)%nat then response 401 (Ret []) else response 200 (Ret []);
     telegram_reply := fun _ => response 200 (Ret tt);
     clock := fun _ => july_2025 |}.

(** Everything succeeds but the messaging bot cannot be reached. *)
Definition remote_bot_unreachable : Remote :=
  {| login_reply := fun _ => response 200 (Ret credential);
     dates_reply := fun _ => response 200 (Ret []);
     telegram_reply := fun _ => Rejected (mkError "TypeError" "fetch failed");
     clock := fun _ => july_2025 |}.

(** Everything succeeds but the messaging bot answers with an error. *)
Definition remote_bot_erroring : Remote :=
  {| login_reply := fun _ => response 200 (Ret credential);
     dates_reply := fun _ => response 200 (Ret []);
     telegram_reply := fun _ => response 500 (Ret tt);
     clock := fun _ => july_2025 |}.

(** Every day of July 2025 is disabled. *)
Definition remote_full : Remote :=
  {| login_reply := fun _ => response 200 (Ret credential);
     dates_reply := fun _ =>
       response 200
         (Ret (map (fun d => {| date := Some ("2025-07-" +:+ JSString.digitsN 2 (Z.of_nat d)) |})
                   (seq 1 31)));
     telegram_reply := fun _ => response 200 (Ret tt);
     clock := fun _ => july_2025 |}.

Definition empty_world : World := {| kv := ∅; trace := [] |}.

(** The state in which [fetchAvailableDates] calls itself again, after the
    request with the credential [c] was refused in the state [w] by
    [remote_expired]. *)
Definition refused (c : AuthCookie) (w : World) : World :=
  {| kv := <["Last_auth" := "1752000000123"]>
             (<["Cookie" := "{T}"]> (delete "Cookie" (kv w)));
     trace := EvKvPut "Last_auth" "1752000000123" None :: EvClock
              :: EvKvPut "Cookie" "{T}" (Some 28800)
              :: EvLogin "https://ru.almaviva-visa.services/api/login"
                   "user@example.org:secret"
              :: EvConsole "Authenticating..." :: EvKvDelete "Cookie"
              :: EvConsole "Auth token expired, re-authenticating..."
              :: EvDates ("https://ru.almaviva-visa.services/api/sites/disabled-dates/"
                          +:+ "?start=01/07/2025&end=31/07/2025&siteId=16&persons=1")
                   ("Bearer " +:+ accessToken c) (prepareCookie host c)
              :: EvClock :: trace w |}.

(** July 2025 with its first and fifth day disabled. *)
Definition july_range : MonthRange :=
  {| startISO := "2025-07-01"; endISO := "2025-07-31";
     displayMonth := Some 7; displayYear := Some 2025 |}.

Definition july_disabled : list DisabledDateRecord :=
  [ {| date := Some "2025-07-01" |}; {| date := Some "2025-07-05" |} ].

(** The same with a time after the second date, a record without a date
    and a record with an empty date. *)
Definition july_disabled_raw : list DisabledDateRecord :=
  [ {| date := Some "2025-07-01" |}; {| date := None |};
    {| date := Some "2025-07-05T09:30:00.000Z" |}; {| date := Some "" |} ].

Definition july_available : list string :=
  [ "2025-07-02"; "2025-07-03"; "2025-07-04"; "2025-07-06"; "2025-07-07";
    "2025-07-08"; "2025-07-09"; "2025-07-10"; "2025-07-11"; "2025-07-12";
    "2025-07-13"; "2025-07-14"; "2025-07-15"; "2025-07-16"; "2025-07-17";
    "2025-07-18"; "2025-07-19"; "2025-07-20"; "2025-07-21"; "2025-07-22";
    "2025-07-23"; "2025-07-24"; "2025-07-25"; "2025-07-26"; "2025-07-27";
    "2025-07-28"; "2025-07-29"; "2025-07-30"; "2025-07-31" ].

Definition july_message : string :=
  "✅ Free dates for 07/2025:
• 2025-07-02
• 2025-07-03
• 2025-07-04
• 2025-07-06
• 2025-07-07
• 2025-07-08
• 2025-07-09
• 2025-07-10
• 2025-07-11
• 2025-07-12
• 2025-07-13
• 2025-07-14
• 2025-07-15
• 2025-07-16
• 2025-07-17
…(+14 more)".

(** A state after two failures with the message "boom". *)
Definition failing_twice : World :=
  {| kv := <["fail_count" := "2"]> (<["last_error_msg" := "boom"]> ∅); trace := [] |}.

End Fixture.

(* ===================================================================== *)
(** * What a run leaves behind *)
(* ===================================================================== *)

(** Notions for the properties of whole runs: numerals and texts
    ([Text]), texts of arbitrary code units and their truncation
    ([CodeUnits]), the states between the effects of a run and the counts
    of the failure tracker ([Observed]), and more remotes ([Scenario]). *)

Module Text.

(** The value of a decimal numeral read from the left, after [acc]. *)
Fixpoint uint_value (d : Decimal.uint) (acc : Z) : Z :=
  match d with
  | Decimal.Nil => acc
  | Decimal.D0 l => uint_value l (10 * acc)
  | Decimal.D1 l => uint_value l (10 * acc + 1)
  | Decimal.D2 l => uint_value l (10 * acc + 2)
  | Decimal.D3 l => uint_value l (10 * acc + 3)
  | Decimal.D4 l => uint_value l (10 * acc + 4)
  | Decimal.D5 l => uint_value l (10 * acc + 5)
  | Decimal.D6 l => uint_value l (10 * acc + 6)
  | Decimal.D7 l => uint_value l (10 * acc + 7)
  | Decimal.D8 l => uint_value l (10 * acc + 8)
  | Decimal.D9 l => uint_value l (10 * acc + 9)
  end.

(** A string without the character "-". *)
Definition dashless (s : string) : bool :=
  forallb (fun c => negb (Ascii.eqb c "-")) (list_ascii_of_string s).

End Text.

Module CodeUnits.

(** A text of the host as the sequence of its UTF-16 code units, whatever
    their values. *)
Definition text : Type := list N.

(** The code units of a string of the model. *)
Definition units (s : string) : text :=
  map (fun c => N.of_nat (nat_of_ascii c)) (list_ascii_of_string s).

Definition units_len (t : text) : Z := Z.of_nat (length t).

(** [t.slice(start, end)] on code units. *)
Definition units_slice (t : text) (start end_ : Z) : text :=
  let from := if start <? 0 then Z.max (units_len t + start) 0
              else Z.min start (units_len t) in
  let to := if end_ <? 0 then Z.max (units_len t + end_) 0
            else Z.min end_ (units_len t) in
  firstn (Z.to_nat (Z.max from to - from)) (skipn (Z.to_nat from) t).

(** [truncate] of the worker on code units. *)
Definition truncate_units (t : text) (max : Z) : text :=
  if max <? units_len t then units_slice t 0 (max - 3) ++ units "..." else t.

End CodeUnits.

Module Observed.
Import Worker.

(** The keys outside [keys] hold in [w'] what they hold in [w]. *)
Definition keeps (keys : list string) (w w' : World) : Prop :=
  forall k, k ∉ keys -> kv w' !! k = kv w !! k.

(** An answer of the availability endpoint that makes the fetch log in
    again: a response with the status 401 or 403. *)
Definition is_refusal (rep : Reply (list DisabledDateRecord)) : bool :=
  match rep with
  | Responded r => (status r =? 401) || (status r =? 403)
  | Rejected _ => false
  end.

(** Every body of the remote side that is read as JSON is read to its end
    (with a value or with an exception). *)
Definition responsive (R : Remote) : Prop :=
  (forall n r, login_reply R n = Responded r -> json r <> Diverge)
  /\ (forall n r, dates_reply R n = Responded r -> json r <> Diverge).

(** The state after the request of [login], and after its two writes. *)
Definition asked (H : Host) (env : Env) (w : World) : World :=
  {| kv := kv w;
     trace := EvLogin (BASE_URL +:+ LOGIN_ENDPOINT)
                (credentials_json H (EMAIL env) (PASSWORD env))
              :: EvConsole "Authenticating..." :: trace w |}.

Definition logged_in (H : Host) (R : Remote) (env : Env) (c : AuthCookie)
    (w : World) : World :=
  let ts := toLocaleString H (clock R (count is_clock (trace w))) in
  {| kv := <["Last_auth" := ts]> (<["Cookie" := cookie_json c]> (kv w));
     trace := EvKvPut "Last_auth" ts None :: EvClock
              :: EvKvPut "Cookie" (cookie_json c) (Some 28800)
              :: trace (asked H env w) |}.

(** The month offset of the configuration, as [fetchAvailableDates] reads
    it. *)
Definition month_offset (env : Env) : option Z :=
  JSString.parseInt (JSString.or_default (TARGET_MONTH_OFFSET env) "0").

(** The request of [fetchAvailableDates] for the range [range] with the
    credential [c]. *)
Definition dates_request (H : Host) (env : Env) (range : MonthRange)
    (c : AuthCookie) : Event :=
  EvDates (BASE_URL +:+ DISABLED_DATES_ENDPOINT +:+ "?start="
           +:+ toDDMMYYYY (startISO range) +:+ "&end=" +:+ toDDMMYYYY (endISO range)
           +:+ "&siteId=" +:+ JSString.or_default (TARGET_SITE_ID env) "16"
           +:+ "&persons=" +:+ JSString.or_default (PERSONS env) "1")
          ("Bearer " +:+ accessToken c) (prepareCookie H c).

(** The state after the clock was read and the request was made. *)
Definition requested (H : Host) (env : Env) (range : MonthRange)
    (c : AuthCookie) (w : World) : World :=
  {| kv := kv w; trace := dates_request H env range c :: EvClock :: trace w |}.

(** The state in which [login] is called after a refusal. *)
Definition forgotten (w : World) : World :=
  {| kv := delete "Cookie" (kv w);
     trace := EvKvDelete "Cookie"
              :: EvConsole "Auth token expired, re-authenticating..." :: trace w |}.

(** The state after "Last" was written with the status text [st]. *)
Definition answered (H : Host) (R : Remote) (st : string) (w : World) : World :=
  let ts := toLocaleString H (clock R (count is_clock (trace w))) in
  {| kv := <["Last" := st +:+ ":" +:+ ts]> (kv w);
     trace := EvKvPut "Last" (st +:+ ":" +:+ ts) None :: EvClock :: trace w |}.

(** The stored failure count, as [recordFailureAndMaybeNotify] reads it. *)
Definition fail_count_read (w : World) : option Z :=
  JSString.parseInt (JSString.or_default (kv w !! "fail_count") "0").

(** The state after the failures [errs] were recorded one after the other. *)
Definition failures (R : Remote) (env : Env) (errs : list JsError) (w : World) : World :=
  fold_left (fun w e => snd (recordFailureAndMaybeNotify R env e w)) errs w.

(** The number of notifications for [k] failures in a row with one
    message: the first, the third, the fifth and every tenth. *)
Definition notifications_due (k : nat) : nat :=
  ((if 1 <=? k then 1 else 0) + (if 3 <=? k then 1 else 0)
   + (if 5 <=? k then 1 else 0) + k / 10)%nat.

(** [computeAvailableDays] from its two dates on: the loop over the days
    from [d] to [end_], and the filter by the records. *)
Definition available_days_between (d end_ : JSDate.Date)
    (disabledDates : list DisabledDateRecord) : Outcome (list string) :=
  match all_dates_loop (loop_budget d end_) d end_ [] with
  | Ret all =>
      let disabledSet : gset string :=
        list_to_set (filter_Boolean (map disabled_iso disabledDates)) in
      Ret (List.filter (fun dateISO => negb (bool_decide (dateISO ∈ disabledSet))) all)
  | Throw e => Throw e
  | Diverge => Diverge
  end.

(** The keys of the store that the worker writes. *)
Definition worker_keys : list string :=
  ["Cookie"; "Last_auth"; "Last"; "Last_dates"; "fail_count"; "last_error_msg"].

End Observed.

Module Scenario.
Import Worker.

(** A host whose reading of the stored credential gives back the
    credential that was stored: the token is the text between the braces. *)
Definition host_json : Host :=
  {| sha256 := sha256 Fixture.host;
     toLocaleString := toLocaleString Fixture.host;
     encodeURIComponent := encodeURIComponent Fixture.host;
     credentials_json := credentials_json Fixture.host;
     cookie_of_json := fun s =>
       Ret (Some {| accessToken := JSString.slice s 1 (-1); cookie_json := s |}) |}.

(** The availability endpoint answers 500. *)
Definition remote_dates_500 : Remote :=
  {| login_reply := fun _ => Fixture.response 200 (Ret Fixture.credential);
     dates_reply := fun _ =>
       Responded {| status := 500; text := "oops"; json := Throw (mkError "SyntaxError" "bad") |};
     telegram_reply := fun _ => Fixture.response 200 (Ret tt);
     clock := fun _ => Fixture.july_2025 |}.

(** The availability endpoint refuses the credential and the login is
    down. *)
Definition remote_expired_login_down : Remote :=
  {| login_reply := fun _ =>
       Responded {| status := 503; text := "busy"; json := Ret Fixture.credential |};
     dates_reply := fun _ => Fixture.response 403 (Ret []);
     telegram_reply := fun _ => Fixture.response 200 (Ret tt);
     clock := fun _ => Fixture.july_2025 |}.

End Scenario.

(* ===================================================================== *)
(** * Facts about the calendar *)
(* ===================================================================== *)

Module JSDateFacts.
Import JSDate.

Lemma DayFromYear_succ y : DayFromYear (y + 1) = DayFromYear y + DaysInYear y.
Proof.
  unfold DayFromYear, DaysInYear.
  repeat match goal with |- context [negb (?a =? ?b)] =>
    destruct (Z.eqb_spec a b) end; cbn [negb]; zdiv.
Qed.

Lemma DaysInYear_cases y : DaysInYear y = 365 \/ DaysInYear y = 366.
Proof.
  unfold DaysInYear.
  repeat match goal with |- context [negb (?a =? ?b)] =>
    destruct (Z.eqb_spec a b) end; cbn [negb]; auto.
Qed.

Lemma LeapOfYear_DaysInYear y : DaysInYear y = 365 + LeapOfYear y.
Proof.
  unfold LeapOfYear. destruct (DaysInYear_cases y) as [-> | ->]; reflexivity.
Qed.

Lemma LeapOfYear_cases y : LeapOfYear y = 0 \/ LeapOfYear y = 1.
Proof. unfold LeapOfYear. destruct (_ =? _); auto. Qed.

Lemma DayFromYear_lt y1 y2 : y1 < y2 -> DayFromYear y1 < DayFromYear y2.
Proof. unfold DayFromYear. intros. zdiv. Qed.

Lemma DayFromYear_le y1 y2 : y1 <= y2 -> DayFromYear y1 <= DayFromYear y2.
Proof. unfold DayFromYear. intros. zdiv. Qed.

(** [YearFromDay d] is the year whose days contain [d]. *)
Lemma YearFromDay_spec d :
  DayFromYear (YearFromDay d) <= d < DayFromYear (YearFromDay d + 1).
Proof.
  unfold YearFromDay.
  set (y := 1970 + 400 * d / 146097).
  assert (Hlo : DayFromYear (y - 1) <= d) by (unfold DayFromYear, y; zdiv).
  assert (Hhi : d < DayFromYear (y + 2)) by (unfold DayFromYear, y; zdiv).
  destruct (Z.leb_spec (DayFromYear (y + 1)) d).
  - replace (y + 1 + 1) with (y + 2) by lia. lia.
  - destruct (Z.leb_spec (DayFromYear y) d).
    + lia.
    + replace (y - 1 + 1) with y by lia. lia.
Qed.

Lemma YearFromDay_unique d y :
  DayFromYear y <= d < DayFromYear (y + 1) -> YearFromDay d = y.
Proof.
  intros Hy. pose proof (YearFromDay_spec d) as Hs.
  destruct (Z.lt_trichotomy (YearFromDay d) y) as [Hlt | [Heq | Hgt]]; auto.
  - pose proof (DayFromYear_le (YearFromDay d + 1) y). lia.
  - pose proof (DayFromYear_le (y + 1) (YearFromDay d)). lia.
Qed.

Lemma Day_MakeDate day w : 0 <= w < msPerDay -> Day (MakeDate day w) = day.
Proof. unfold Day, MakeDate, msPerDay. intros. zdiv. Qed.

Lemma TimeWithinDay_MakeDate day w :
  0 <= w < msPerDay -> TimeWithinDay (MakeDate day w) = w.
Proof. unfold TimeWithinDay, MakeDate, msPerDay. intros. zdiv. Qed.

Lemma MakeDate_Day t : MakeDate (Day t) (TimeWithinDay t) = t.
Proof. unfold MakeDate, Day, TimeWithinDay, msPerDay. zdiv. Qed.

Lemma TimeWithinDay_range t : 0 <= TimeWithinDay t < msPerDay.
Proof. unfold TimeWithinDay, msPerDay. zdiv. Qed.

Lemma DayWithinYear_range t :
  0 <= DayWithinYear t < 365 + InLeapYear t.
Proof.
  unfold DayWithinYear, InLeapYear, YearFromTime.
  pose proof (YearFromDay_spec (Day t)) as H.
  rewrite DayFromYear_succ, LeapOfYear_DaysInYear in H. lia.
Qed.

Lemma MonthOfDayWithinYear_range dwy l : 0 <= MonthOfDayWithinYear dwy l <= 11.
Proof.
  unfold MonthOfDayWithinYear.
  repeat match goal with |- context [?a <? ?b] =>
    destruct (Z.ltb_spec a b) end; lia.
Qed.

Lemma MonthFromTime_range t : 0 <= MonthFromTime t <= 11.
Proof. apply MonthOfDayWithinYear_range. Qed.

(** Decide the comparisons of the month tables one after the other. *)
Ltac month_table :=
  unfold MonthStart, MonthLength, MonthOfDayWithinYear;
  repeat match goal with
         | |- context [?a <? ?b] => destruct (Z.ltb_spec a b); try lia
         | |- context [?a =? ?b] => destruct (Z.eqb_spec a b); try lia
         end;
  cbn [orb]; try lia.

(** The month table: a month starts where the previous one ends. *)
Lemma MonthStart_succ m l :
  0 <= m < 11 -> MonthStart (m + 1) l = MonthStart m l + MonthLength m l.
Proof. intros Hm. month_table. Qed.

Lemma MonthStart_december l : MonthStart 11 l + MonthLength 11 l = 365 + l.
Proof. month_table. Qed.

Lemma MonthLength_range m l : (l = 0 \/ l = 1) -> 28 <= MonthLength m l <= 31.
Proof.
  intros Hl. unfold MonthLength.
  destruct (m =? 1); [lia|]. destruct (_ || _); lia.
Qed.

Lemma MonthStart_range m l :
  (l = 0 \/ l = 1) -> 0 <= m <= 11 ->
  0 <= MonthStart m l /\ MonthStart m l + MonthLength m l <= 365 + l.
Proof. intros Hl Hm. month_table. Qed.

(** The day [dwy] of a year lies in month [m] exactly when it lies between
    the start of [m] and the start of the next month. *)
Lemma MonthOfDayWithinYear_unique dwy l m :
  (l = 0 \/ l = 1) -> 0 <= m <= 11 ->
  MonthStart m l <= dwy < MonthStart m l + MonthLength m l ->
  MonthOfDayWithinYear dwy l = m.
Proof.
  intros Hl Hm Hd. revert Hd. month_table.
Qed.

Lemma MonthOfDayWithinYear_spec dwy l :
  (l = 0 \/ l = 1) -> 0 <= dwy < 365 + l ->
  let m := MonthOfDayWithinYear dwy l in
  MonthStart m l <= dwy < MonthStart m l + MonthLength m l.
Proof.
  intros Hl Hd. cbv zeta. month_table.
Qed.

(** ** Round trips between day numbers and calendar dates *)

Section Civil.
Variables (y m dt : Z).
Hypothesis Hm : 0 <= m <= 11.
Hypothesis Hdt : 1 <= dt <= DaysInMonth y m.

Let day := MakeDay y m dt.

Lemma MakeDay_normal : day = DayFromYear y + MonthStart m (LeapOfYear y) + dt - 1.
Proof.
  unfold day, MakeDay.
  replace (m / 12) with 0 by zdiv. replace (m mod 12) with m by zdiv.
  rewrite Z.add_0_r. reflexivity.
Qed.

Lemma YearFromDay_MakeDay : YearFromDay day = y.
Proof.
  apply YearFromDay_unique. rewrite MakeDay_normal, DayFromYear_succ.
  rewrite LeapOfYear_DaysInYear. unfold DaysInMonth in Hdt.
  pose proof (MonthStart_range m _ (LeapOfYear_cases y) Hm). lia.
Qed.

Lemma civil_of_MakeDay w :
  0 <= w < msPerDay ->
  let t := MakeDate day w in
  YearFromTime t = y /\ MonthFromTime t = m /\ DateFromTime t = dt.
Proof.
  intros Hw t.
  assert (Hy : YearFromTime t = y).
  { unfold YearFromTime, t. rewrite Day_MakeDate by assumption.
    apply YearFromDay_MakeDay. }
  assert (Hd : DayWithinYear t = MonthStart m (LeapOfYear y) + dt - 1).
  { unfold DayWithinYear. rewrite Hy. unfold t.
    rewrite Day_MakeDate by assumption. rewrite MakeDay_normal. lia. }
  assert (Hmo : MonthFromTime t = m).
  { unfold MonthFromTime, InLeapYear. rewrite Hy, Hd.
    apply MonthOfDayWithinYear_unique; auto using LeapOfYear_cases.
    unfold DaysInMonth in Hdt. lia. }
  repeat split; auto.
  unfold DateFromTime, InLeapYear. rewrite Hmo, Hy, Hd. lia.
Qed.
End Civil.

(** Every time value is the date that its getters return. *)
Lemma MakeDay_of_civil t :
  MakeDay (YearFromTime t) (MonthFromTime t) (DateFromTime t) = Day t.
Proof.
  pose proof (MonthFromTime_range t) as Hm.
  unfold MakeDay.
  replace (MonthFromTime t / 12) with 0 by zdiv.
  replace (MonthFromTime t mod 12) with (MonthFromTime t) by zdiv.
  rewrite Z.add_0_r. unfold DateFromTime, DayWithinYear, InLeapYear. lia.
Qed.

Lemma DateFromTime_range t :
  1 <= DateFromTime t <= DaysInMonth (YearFromTime t) (MonthFromTime t).
Proof.
  unfold DateFromTime, DaysInMonth, MonthFromTime.
  pose proof (DayWithinYear_range t) as Hd.
  pose proof (MonthOfDayWithinYear_spec (DayWithinYear t) (InLeapYear t)
                (LeapOfYear_cases _) Hd) as Hs.
  cbv zeta in Hs. unfold InLeapYear in *. lia.
Qed.

(** [MakeDay] is linear in the day of the month, whatever its value. *)
Lemma MakeDay_shift year month dt k :
  MakeDay year month (dt + k) = MakeDay year month dt + k.
Proof. unfold MakeDay. lia. Qed.

(** Day 0 of the next month is the last day of the month, across the end
    of the year too. *)
Lemma MakeDay_last_day year month :
  0 <= month <= 11 ->
  MakeDay year (month + 1) 0 = MakeDay year month (DaysInMonth year month).
Proof.
  intros Hm. unfold MakeDay, DaysInMonth.
  replace (month / 12) with 0 by zdiv. replace (month mod 12) with month by zdiv.
  replace (year + 0) with year by lia.
  destruct (Z.eq_dec month 11) as [-> | Hne].
  - replace ((11 + 1) / 12) with 1 by reflexivity.
    replace ((11 + 1) mod 12) with 0 by reflexivity.
    rewrite DayFromYear_succ, LeapOfYear_DaysInYear. month_table.
  - replace ((month + 1) / 12) with 0 by zdiv.
    replace ((month + 1) mod 12) with (month + 1) by zdiv.
    rewrite !Z.add_0_r, MonthStart_succ by lia. lia.
Qed.

(** [MakeDay] carries months beyond a year into the year. *)
Lemma MakeDay_carry year month dt :
  MakeDay year month dt = MakeDay (year + month / 12) (month mod 12) dt.
Proof.
  unfold MakeDay.
  replace ((month mod 12) / 12) with 0 by zdiv.
  replace ((month mod 12) mod 12) with (month mod 12) by zdiv.
  rewrite Z.add_0_r. reflexivity.
Qed.

End JSDateFacts.

(* ===================================================================== *)
(** * Facts about strings *)
(* ===================================================================== *)

Module JSStringFacts.
Import JSString.

Lemma append_nil_l (s : string) : "" +:+ s = s.
Proof. reflexivity. Qed.

Lemma append_cons (c : ascii) (s1 s2 : string) :
  String c s1 +:+ s2 = String c (s1 +:+ s2).
Proof. reflexivity. Qed.

Lemma length_append (s1 s2 : string) :
  String.length (s1 +:+ s2) = (String.length s1 + String.length s2)%nat.
Proof.
  induction s1 as [|c s1 IH]; [reflexivity|].
  rewrite append_cons. simpl. now f_equal.
Qed.

Lemma append_assoc (s1 s2 s3 : string) : (s1 +:+ s2) +:+ s3 = s1 +:+ (s2 +:+ s3).
Proof.
  induction s1 as [|c s1 IH]; [reflexivity|].
  rewrite !append_cons. now f_equal.
Qed.

Lemma substring_0_length (n : nat) (s : string) :
  String.length (String.substring 0 n s) = Nat.min n (String.length s).
Proof.
  revert s. induction n as [|n IH]; intros [|c s]; simpl; try reflexivity.
  now f_equal.
Qed.

Lemma substring_0_all (n : nat) (s : string) :
  (String.length s <= n)%nat -> String.substring 0 n s = s.
Proof.
  revert s. induction n as [|n IH]; intros [|c s]; simpl; intros Hn;
    try reflexivity; try lia.
  f_equal. apply IH. lia.
Qed.

Lemma substring_0_app (s1 s2 : string) :
  String.substring 0 (String.length s1) (s1 +:+ s2) = s1.
Proof.
  induction s1 as [|c s1 IH]; [now destruct s2|].
  rewrite append_cons. simpl. now f_equal.
Qed.

(** [s.slice(0, n)] keeps the first [n] characters. *)
Lemma slice_0 (s : string) (n : Z) :
  0 <= n -> slice s 0 n = String.substring 0 (Z.to_nat n) s.
Proof.
  intros Hn. unfold slice, between, len.
  replace (0 <? 0) with false by reflexivity.
  replace (n <? 0) with false by (symmetry; apply Z.ltb_ge; lia).
  rewrite Z.min_l by lia. cbn [Z.to_nat].
  destruct (Z.le_gt_cases n (Z.of_nat (String.length s))) as [Hle | Hgt].
  - rewrite Z.min_l, Z.max_r by lia. now rewrite Z.sub_0_r.
  - rewrite Z.min_r, Z.max_r by lia. rewrite Z.sub_0_r, Nat2Z.id.
    rewrite !substring_0_all by lia. reflexivity.
Qed.

Lemma slice_0_app (s1 s2 : string) (n : Z) :
  n = len s1 -> slice (s1 +:+ s2) 0 n = s1.
Proof.
  intros ->. unfold len. rewrite slice_0 by lia.
  rewrite Nat2Z.id. apply substring_0_app.
Qed.

Lemma truthy_nonempty (c : ascii) (s : string) : truthy (String c s) = true.
Proof. reflexivity. Qed.

Lemma digitsN_length (n : nat) (z : Z) : String.length (digitsN n z) = n.
Proof.
  revert z. induction n as [|n IH]; intros z; simpl; [reflexivity|].
  rewrite length_append, IH. simpl. lia.
Qed.

Lemma digit_value_char (d : Z) : 0 <= d <= 9 -> digit_value (digit_char d) = Some d.
Proof.
  intros Hd. unfold digit_value, digit_char.
  rewrite nat_ascii_embedding by lia.
  replace ((48 <=? Z.of_nat (48 + Z.to_nat d)) && (Z.of_nat (48 + Z.to_nat d) <=? 57))
    with true by (symmetry; apply andb_true_iff; split; apply Z.leb_le; lia).
  f_equal. lia.
Qed.

(** Reading back the digits that [digitsN] printed. *)
Lemma take_digits_digitsN (k j : nat) (z acc : Z) (rest : string) :
  0 <= z < 10 ^ Z.of_nat k ->
  take_digits (k + j) (digitsN k z +:+ rest) acc
  = take_digits j rest (acc * 10 ^ Z.of_nat k + z).
Proof.
  revert j z acc rest. induction k as [|k IH]; intros j z acc rest Hz.
  - cbn in *. f_equal. lia.
  - cbn [digitsN]. rewrite append_assoc, append_cons, append_nil_l.
    replace (S k + j)%nat with (k + S j)%nat by lia.
    assert (Hp : 10 ^ Z.of_nat (S k) = 10 * 10 ^ Z.of_nat k).
    { rewrite Nat2Z.inj_succ, Z.pow_succ_r by lia. reflexivity. }
    rewrite Hp in Hz.
    rewrite IH by zdiv.
    cbn [take_digits]. rewrite digit_value_char by zdiv.
    f_equal. rewrite Hp. zdiv.
Qed.

Lemma take_digits_exact (k : nat) (z : Z) (rest : string) :
  0 <= z < 10 ^ Z.of_nat k ->
  take_digits k (digitsN k z +:+ rest) 0 = Some (z, rest).
Proof.
  intros Hz. pose proof (take_digits_digitsN k 0 z 0 rest Hz) as E.
  rewrite Nat.add_0_r in E. rewrite E. reflexivity.
Qed.

End JSStringFacts.

(* ===================================================================== *)
(** * The failure tracker *)
(* ===================================================================== *)

Module FailureTracker.
Import JSString JSStringFacts Worker CodeUnits.

(** [truncate] keeps a message within its limit, and marks the cut. *)
Lemma truncate_short (s : string) (max : Z) : len s <= max -> truncate s max = s.
Proof.
  intros Hs. unfold truncate.
  replace (max <? len s) with false by (symmetry; apply Z.ltb_ge; lia).
  reflexivity.
Qed.

Lemma truncate_long (s : string) (max : Z) :
  3 <= max -> max < len s ->
  truncate s max = String.substring 0 (Z.to_nat (max - 3)) s +:+ "..."
  /\ len (truncate s max) = max.
Proof.
  intros Hmax Hs. unfold truncate.
  replace (max <? len s) with true by (symmetry; apply Z.ltb_lt; lia).
  rewrite slice_0 by lia. split; [reflexivity|].
  unfold len in *. rewrite length_append, substring_0_length. simpl. lia.
Qed.

Lemma truncate_bound (s : string) (max : Z) : 3 <= max -> len (truncate s max) <= max.
Proof.
  intros Hmax. destruct (Z.le_gt_cases (len s) max) as [Hle | Hgt].
  - now rewrite truncate_short.
  - destruct (truncate_long s max Hmax) as [_ ->]; lia.
Qed.

Section Run.
Variables (R : Remote) (env : Env).

(** What [sendTelegram] does with a text that is not empty: one request,
    whatever the reply, and the store is left alone. *)
Lemma sendTelegram_run (t : string) (w : World) :
  truthy t = true ->
  let w' := snd (sendTelegram R env t w) in
  kv w' = kv w /\ telegrams w' = t :: telegrams w.
Proof.
  intros Ht. unfold sendTelegram, bind, fetch. rewrite Ht. cbn [negb].
  destruct (telegram_reply R _) as [e | r]; cbn; [auto|].
  destruct (ok r); cbn; auto.
Qed.

Lemma error_text_truthy msg current : truthy (error_text msg current) = true.
Proof. reflexivity. Qed.

Lemma still_failing_text_truthy msg c : truthy (still_failing_text msg c) = true.
Proof. reflexivity. Qed.

Lemma recordFailure_new_message (err : JsError) (w : World) :
  kv w !! "last_error_msg" <> Some (err_message err) ->
  recordFailureAndMaybeNotify R env err w
  = sendTelegram R env (error_text (err_message err) (next_fail_count w))
      {| kv := <["last_error_msg" := err_message err]> (kv (counted w));
         trace := EvKvPut "last_error_msg" (err_message err) None :: trace (counted w) |}.
Proof.
  intros Hne. unfold recordFailureAndMaybeNotify, bind, KV_get, KV_put. cbn.
  rewrite lookup_insert_ne by done.
  rewrite bool_decide_eq_false_2 by assumption. reflexivity.
Qed.

Lemma recordFailure_same_message (err : JsError) (w : World) :
  kv w !! "last_error_msg" = Some (err_message err) ->
  recordFailureAndMaybeNotify R env err w
  = match next_fail_count w with
    | Some c =>
        if (c =? 3) || (c =? 5) || (Z.rem c 10 =? 0)
        then sendTelegram R env (still_failing_text (err_message err) c) (counted w)
        else (Ret tt, counted w)
    | None => (Ret tt, counted w)
    end.
Proof.
  intros He. unfold recordFailureAndMaybeNotify, bind, KV_get, KV_put. cbn.
  rewrite lookup_insert_ne by done.
  rewrite bool_decide_eq_true_2 by assumption. cbn [negb].
  fold (next_fail_count w). unfold counted.
  destruct (next_fail_count w) as [c|]; [destruct (_ || _)|]; reflexivity.
Qed.

(** The test of the code on the count, read as a property of the count. *)
Lemma escalates_test (c : Z) :
  (c =? 3) || (c =? 5) || (Z.rem c 10 =? 0) = true <-> escalates (Some c).
Proof.
  unfold escalates. rewrite !orb_true_iff, !Z.eqb_eq. split.
  - intros [[-> | ->] | Hr]; auto. right; right.
    exists (Z.quot c 10). f_equal. pose proof (Z.quot_rem' c 10). lia.
  - intros [E | [E | [k E]]]; try (injection E as ->; auto).
    right. rewrite Z.mul_comm. apply Z.rem_mul. lia.
Qed.

End Run.

(** C4. On a failure whose message equals the last recorded one, a
    notification is sent exactly when the incremented failure count is 3, 5
    or a multiple of 10; on a failure with another message a notification
    is always sent and the message is stored as [last_error_msg].  In both
    cases the incremented count is stored as [fail_count]. *)
Theorem escalation_policy (R : Remote) (env : Env) (err : JsError) (w : World) :
  let msg := err_message err in
  let current := next_fail_count w in
  let w' := snd (recordFailureAndMaybeNotify R env err w) in
  (kv w !! "last_error_msg" = Some msg ->
     (escalates current /\
      exists c, current = Some c /\ telegrams w' = still_failing_text msg c :: telegrams w)
     \/ (~ escalates current /\ telegrams w' = telegrams w))
  /\ (kv w !! "last_error_msg" <> Some msg ->
      telegrams w' = error_text msg current :: telegrams w
      /\ kv w' !! "last_error_msg" = Some msg)
  /\ kv w' !! "fail_count" = Some (number_toString current).
Proof.
  intros msg current w'. subst msg current w'.
  assert (Hcount : kv (counted w) !! "fail_count"
                   = Some (number_toString (next_fail_count w)))
    by apply lookup_insert_eq.
  destruct (decide (kv w !! "last_error_msg" = Some (err_message err))) as [He | Hne].
  - rewrite (recordFailure_same_message R env err w He).
    split; [intros _ | split; [intros Hne; contradiction|]].
    + destruct (next_fail_count w) as [c|] eqn:Ec.
      * destruct ((c =? 3) || (c =? 5) || (Z.rem c 10 =? 0)) eqn:Et.
        -- left. split; [now apply escalates_test|]. exists c. split; [reflexivity|].
           apply (sendTelegram_run R env _ (counted w) (still_failing_text_truthy _ c)).
        -- right. split; [|reflexivity].
           intros Hx. apply escalates_test in Hx. congruence.
      * right. split; [|reflexivity].
        intros [E | [E | [k E]]]; discriminate.
    + destruct (next_fail_count w) as [c|] eqn:Ec; [|exact Hcount].
      destruct (_ || _); [|exact Hcount].
      destruct (sendTelegram_run R env _ (counted w) (still_failing_text_truthy
                  (err_message err) c)) as [Hkv _].
      cbv zeta in Hkv. rewrite Hkv. exact Hcount.
  - rewrite (recordFailure_new_message R env err w Hne).
    match goal with |- context [sendTelegram R env ?t ?w0] =>
      destruct (sendTelegram_run R env t w0 (error_text_truthy _ _)) as [Hkv Htg]
    end.
    cbv zeta in Hkv, Htg. rewrite Hkv, Htg. cbn [kv].
    split; [intros He; contradiction | split].
    + intros _. split; [reflexivity | apply lookup_insert_eq].
    + rewrite lookup_insert_ne by done. exact Hcount.
Qed.

(** The third failure in a row with the same message is reported again. *)
Lemma escalation_policy_witness :
  let err := mkError "Error" "boom" in
  let w := Fixture.failing_twice in
  let w' := snd (recordFailureAndMaybeNotify Fixture.remote_ok Fixture.env err w) in
  (escalates (next_fail_count w) /\
   exists c, next_fail_count w = Some c
             /\ telegrams w' = still_failing_text "boom" c :: telegrams w)
  \/ (~ escalates (next_fail_count w) /\ telegrams w' = telegrams w).
Proof.
  exact (proj1 (escalation_policy Fixture.remote_ok Fixture.env
                  (mkError "Error" "boom") Fixture.failing_twice) eq_refl).
Defined.

Example third_failure_is_reported :
  telegrams (snd (recordFailureAndMaybeNotify Fixture.remote_ok Fixture.env
                    (mkError "Error" "boom") Fixture.failing_twice))
  = ["⚠️ Still failing (3 times): boom"].
Proof. vm_compute. reflexivity. Qed.

Example fourth_failure_is_silent :
  let w3 := snd (recordFailureAndMaybeNotify Fixture.remote_ok Fixture.env
                   (mkError "Error" "boom") Fixture.failing_twice) in
  let w4 := snd (recordFailureAndMaybeNotify Fixture.remote_ok Fixture.env
                   (mkError "Error" "boom") w3) in
  telegrams w4 = telegrams w3 /\ kv w4 !! "fail_count" = Some "4".
Proof. vm_compute. split; reflexivity. Qed.

(** ** Truncation on code units *)

Lemma units_app (s1 s2 : string) : units (s1 +:+ s2) = units s1 ++ units s2.
Proof.
  unfold units. induction s1 as [|c s1 IH]; [reflexivity|].
  rewrite append_cons. cbn [list_ascii_of_string map app]. now f_equal.
Qed.

Lemma units_length (s : string) : units_len (units s) = len s.
Proof.
  unfold units_len, len, units. f_equal. rewrite length_map.
  induction s as [|c s IH]; [reflexivity|]. cbn. now f_equal.
Qed.

Lemma units_substring (n : nat) (s : string) :
  units (String.substring 0 n s) = firstn n (units s).
Proof.
  unfold units. revert s. induction n as [|n IH]; intros [|c s]; try reflexivity.
  cbn [String.substring list_ascii_of_string map firstn]. f_equal. apply IH.
Qed.

Lemma units_slice_0 (t : text) (n : Z) :
  0 <= n -> units_slice t 0 n = firstn (Z.to_nat n) t.
Proof.
  intros Hn. unfold units_slice, units_len.
  replace (0 <? 0) with false by reflexivity.
  replace (n <? 0) with false by (symmetry; apply Z.ltb_ge; lia).
  rewrite (Z.min_l 0) by lia. change (Z.to_nat 0) with 0%nat.
  change (skipn 0 t) with t.
  destruct (Z.le_gt_cases n (Z.of_nat (length t))) as [Hle | Hgt].
  - rewrite Z.min_l, Z.max_r by lia. now rewrite Z.sub_0_r.
  - rewrite Z.min_r, Z.max_r by lia. rewrite Z.sub_0_r, Nat2Z.id.
    rewrite (firstn_all2 (n := length t)) by lia.
    rewrite (firstn_all2 (n := Z.to_nat n)) by lia. reflexivity.
Qed.

(** The worker's [truncate] is [truncate_units] on the strings of the
    model. *)
Lemma truncate_units_agree (s : string) (max : Z) :
  3 <= max -> units (truncate s max) = truncate_units (units s) max.
Proof.
  intros Hmax. unfold truncate, truncate_units. rewrite units_length.
  destruct (max <? len s); [|reflexivity].
  rewrite units_app, slice_0, units_slice_0, units_substring by lia. reflexivity.
Qed.

Lemma truncate_units_law (t : text) (max : Z) :
  3 <= max ->
  units_len (truncate_units t max) <= max
  /\ (units_len t <= max -> truncate_units t max = t)
  /\ (max < units_len t ->
      truncate_units t max = firstn (Z.to_nat (max - 3)) t ++ units "..."
      /\ units_len (truncate_units t max) = max).
Proof.
  intros Hmax. unfold truncate_units.
  destruct (Z.ltb_spec max (units_len t)) as [Hlt | Hge].
  - rewrite units_slice_0 by lia.
    assert (El : units_len (firstn (Z.to_nat (max - 3)) t ++ units "...") = max).
    { unfold units_len in *. rewrite length_app, firstn_length_le by lia.
      change (length (units "...")) with 3%nat. lia. }
    repeat split; try lia; exact El.
  - repeat split; lia.
Qed.

(** C10. The text of a failure notification holds the error message cut
    by [truncate]: to 300 characters where the message is new, which is
    always reported, and to 200 characters where a repeated message is
    reported again (at the counts 3, 5 and the multiples of 10).  The cut
    message is the message itself when it fits, and otherwise its first
    297 (197) characters followed by three dots, 300 (200) characters in
    all.  A character of a string of the model is a code unit below 256;
    the law of the cut holds as well for [truncate_units], the same
    function on texts of arbitrary UTF-16 code units, with which
    [truncate] agrees on the strings of the model. *)
Theorem failure_text_truncated (R : Remote) (env : Env) (err : JsError) (w : World) :
  let msg := err_message err in
  let w' := snd (recordFailureAndMaybeNotify R env err w) in
  (kv w !! "last_error_msg" <> Some msg ->
   telegrams w'
   = ("❗ Error: " +:+ truncate msg 300 +:+ " (fail #"
      +:+ number_toString (next_fail_count w) +:+ ")") :: telegrams w)
  /\ (kv w !! "last_error_msg" = Some msg ->
      forall c, next_fail_count w = Some c ->
        (c = 3 \/ c = 5 \/ Z.rem c 10 = 0 ->
         telegrams w'
         = ("⚠️ Still failing (" +:+ Number_toString c +:+ " times): "
            +:+ truncate msg 200) :: telegrams w)
        /\ (c <> 3 -> c <> 5 -> Z.rem c 10 <> 0 -> telegrams w' = telegrams w))
  /\ (kv w !! "last_error_msg" = Some msg -> next_fail_count w = None ->
      telegrams w' = telegrams w)
  /\ (forall max, max = 300 \/ max = 200 ->
        len (truncate msg max) <= max
        /\ (len msg <= max -> truncate msg max = msg)
        /\ (max < len msg ->
             truncate msg max = String.substring 0 (Z.to_nat (max - 3)) msg +:+ "..."
             /\ len (truncate msg max) = max))
  /\ (forall (t : text) max, max = 300 \/ max = 200 ->
        units_len (truncate_units t max) <= max
        /\ (units_len t <= max -> truncate_units t max = t)
        /\ (max < units_len t ->
             truncate_units t max = firstn (Z.to_nat (max - 3)) t ++ units "..."
             /\ units_len (truncate_units t max) = max))
  /\ (forall max, max = 300 \/ max = 200 ->
        units (truncate msg max) = truncate_units (units msg) max).
Proof.
  intros msg w'. subst w'.
  split; [|split; [|split; [|split; [|split]]]].
  - intros Hne. rewrite (recordFailure_new_message R env err w Hne).
    match goal with |- context [sendTelegram R env ?t ?w0] =>
      destruct (sendTelegram_run R env t w0 (error_text_truthy _ _)) as [_ Htg]
    end.
    exact Htg.
  - intros He c Hc. rewrite (recordFailure_same_message R env err w He), Hc.
    split.
    + intros Hesc.
      replace ((c =? 3) || (c =? 5) || (Z.rem c 10 =? 0)) with true
        by (symmetry; rewrite !orb_true_iff, !Z.eqb_eq; tauto).
      apply (sendTelegram_run R env _ (counted w) (still_failing_text_truthy _ c)).
    + intros H3 H5 H10.
      replace ((c =? 3) || (c =? 5) || (Z.rem c 10 =? 0)) with false; [reflexivity|].
      symmetry. rewrite !orb_false_iff, !Z.eqb_neq. tauto.
  - intros He Hc. rewrite (recordFailure_same_message R env err w He), Hc.
    reflexivity.
  - intros max Hmax. assert (3 <= max) by lia.
    split; [now apply truncate_bound|].
    split; [apply truncate_short | now apply truncate_long].
  - intros t max Hmax. apply truncate_units_law. lia.
  - intros max Hmax. apply truncate_units_agree. lia.
Qed.

(** A new message of 400 characters is reported with its first 297
    characters and three dots; 160 code units above 255 (Cyrillic
    letters) are left whole. *)
Example long_message_is_reported_cut :
  let msg := repeat_string 400 "x" in
  telegrams (snd (recordFailureAndMaybeNotify Fixture.remote_ok Fixture.env
                    (mkError "Error" msg) Fixture.failing_twice))
  = ["❗ Error: " +:+ repeat_string 297 "x" +:+ "... (fail #3)"]
  /\ truncate_units (repeat 1078%N 160) 300 = repeat 1078%N 160
  /\ truncate_units (repeat 1078%N 301) 300 = repeat 1078%N 297 ++ [46; 46; 46]%N.
Proof. vm_compute. repeat split; reflexivity. Qed.

Example long_message_is_cut :
  truncate "0123456789" 8 = "01234..." /\ truncate "01234567" 8 = "01234567".
Proof. split; reflexivity. Qed.

End FailureTracker.

(* ===================================================================== *)
(** * The change notifier *)
(* ===================================================================== *)

Module ChangeNotifier.
Import JSString JSStringFacts Worker.

Section Run.
Variables (H : Host) (R : Remote) (env : Env).

Lemma buildDatesMessage_truthy dates range :
  truthy (buildDatesMessage dates range) = true.
Proof. reflexivity. Qed.

(** The effects of [sendTelegram] on a text that is not empty: the request,
    and a line on the console when the answer is not a success. *)
Lemma sendTelegram_trace (t : string) (w : World) :
  truthy t = true ->
  let w' := snd (sendTelegram R env t w) in
  exists logged,
    trace w' = logged ++ EvTelegram (telegram_url env) (TELEGRAM_CHAT_ID env) t
                         :: trace w
    /\ (logged = [] \/ logged = [EvConsole "Telegram send failed"]).
Proof.
  intros Ht. unfold sendTelegram, bind, fetch. rewrite Ht. cbn [negb].
  destruct (telegram_reply R _) as [e | r]; cbn.
  - exists []. auto.
  - destruct (ok r); cbn; [exists [] | exists [EvConsole "Telegram send failed"]]; auto.
Qed.

(** The two ways of [maybeNotifyNewDates]. *)
Lemma maybeNotify_same_hash dates range (w : World) :
  kv w !! "Last_dates" = Some (sha256 H (join "," dates)) ->
  maybeNotifyNewDates H R env dates range w
  = (Ret tt, {| kv := kv w;
                trace := EvConsole "Dates unchanged; notification suppressed."
                         :: trace w |}).
Proof.
  intros He. unfold maybeNotifyNewDates, bind, KV_get. cbn.
  rewrite bool_decide_eq_true_2 by assumption. reflexivity.
Qed.

Lemma maybeNotify_new_hash dates range (w : World) :
  kv w !! "Last_dates" <> Some (sha256 H (join "," dates)) ->
  maybeNotifyNewDates H R env dates range w
  = sendTelegram R env (buildDatesMessage dates range)
      {| kv := <["Last_dates" := sha256 H (join "," dates)]> (kv w);
         trace := EvKvPut "Last_dates" (sha256 H (join "," dates)) None :: trace w |}.
Proof.
  intros Hne. unfold maybeNotifyNewDates, bind, KV_get, KV_put. cbn.
  rewrite bool_decide_eq_false_2 by assumption. reflexivity.
Qed.

(** After a call the stored hash is that of the dates of the call. *)
Lemma maybeNotify_stores_hash dates range (w : World) :
  kv (snd (maybeNotifyNewDates H R env dates range w)) !! "Last_dates"
  = Some (sha256 H (join "," dates)).
Proof.
  destruct (decide (kv w !! "Last_dates" = Some (sha256 H (join "," dates))))
    as [He | Hne].
  - rewrite maybeNotify_same_hash by assumption. exact He.
  - rewrite maybeNotify_new_hash by assumption.
    destruct (FailureTracker.sendTelegram_run R env _
                {| kv := <["Last_dates" := sha256 H (join "," dates)]> (kv w);
                   trace := EvKvPut "Last_dates" (sha256 H (join "," dates)) None
                            :: trace w |}
                (buildDatesMessage_truthy dates range)) as [Hkv _].
    cbv zeta in Hkv. rewrite Hkv. apply lookup_insert_eq.
Qed.

End Run.

(** C3. Two calls of the notifier in a row with the same list of dates
    send at most one message: the second call sends nothing.  A call with
    a list whose hash is not the stored one sends its message. *)
Theorem duplicate_suppression (H : Host) (R : Remote) (env : Env)
    (dates : list string) (range1 range2 : MonthRange) (w : World) :
  let w1 := snd (maybeNotifyNewDates H R env dates range1 w) in
  let w2 := snd (maybeNotifyNewDates H R env dates range2 w1) in
  telegrams w2 = telegrams w1
  /\ (length (telegrams w2) <= S (length (telegrams w)))%nat
  /\ (kv w !! "Last_dates" <> Some (sha256 H (join "," dates)) ->
      telegrams w1 = buildDatesMessage dates range1 :: telegrams w).
Proof.
  intros w1 w2.
  assert (Hnew : kv w !! "Last_dates" <> Some (sha256 H (join "," dates)) ->
                 telegrams w1 = buildDatesMessage dates range1 :: telegrams w).
  { intros Hne. subst w1. rewrite maybeNotify_new_hash by assumption.
    match goal with |- context [sendTelegram R env ?t ?w0] =>
      destruct (FailureTracker.sendTelegram_run R env t w0
                  (buildDatesMessage_truthy _ _)) as [_ Htg]
    end.
    exact Htg. }
  assert (H2 : telegrams w2 = telegrams w1).
  { subst w2. rewrite maybeNotify_same_hash; [reflexivity|].
    apply maybeNotify_stores_hash. }
  split; [exact H2 | split; [|exact Hnew]].
  rewrite H2.
  destruct (decide (kv w !! "Last_dates" = Some (sha256 H (join "," dates))))
    as [He | Hne].
  - subst w1. rewrite maybeNotify_same_hash by assumption.
    unfold telegrams. cbn. lia.
  - rewrite (Hnew Hne). cbn. lia.
Qed.

Lemma duplicate_suppression_witness :
  let dates := ["2025-07-02"; "2025-07-03"] in
  let range := {| startISO := "2025-07-01"; endISO := "2025-07-31";
                  displayMonth := Some 7; displayYear := Some 2025 |} in
  let w1 := snd (maybeNotifyNewDates Fixture.host Fixture.remote_ok Fixture.env
                   dates range Fixture.empty_world) in
  let w2 := snd (maybeNotifyNewDates Fixture.host Fixture.remote_ok Fixture.env
                   dates range w1) in
  telegrams w2 = telegrams w1
  /\ (length (telegrams w2) <= 1)%nat
  /\ telegrams w1 = [buildDatesMessage dates range].
Proof.
  intros dates range w1 w2.
  destruct (duplicate_suppression Fixture.host Fixture.remote_ok Fixture.env
              dates range range Fixture.empty_world) as (H2 & Hle & Hnew).
  split; [exact H2 | split; [exact Hle|]].
  apply Hnew. discriminate.
Defined.

(** C9. When the hash of the dates is not the stored one, the notifier
    stores the new hash and then sends the message (the hash is stored even
    when the send is rejected).  The message is a header with the month and
    the year of the range, then the first 15 dates at most, one per line,
    then the number of the dates left out when there are more than 15: the
    29 free dates of July 2025 give 15 lines and "(+14 more)". *)
Theorem hash_stored_before_send (H : Host) (R : Remote) (env : Env)
    (dates : list string) (range : MonthRange) (w : World) :
  let hash := sha256 H (join "," dates) in
  let n := Z.of_nat (length dates) in
  let w' := snd (maybeNotifyNewDates H R env dates range w) in
  kv w !! "Last_dates" <> Some hash ->
  (exists logged,
      trace w' = logged
                 ++ EvTelegram (telegram_url env) (TELEGRAM_CHAT_ID env)
                      (buildDatesMessage dates range)
                 :: EvKvPut "Last_dates" hash None :: trace w
      /\ (logged = [] \/ logged = [EvConsole "Telegram send failed"]))
  /\ kv w' !! "Last_dates" = Some hash
  /\ buildDatesMessage dates range
     = ("✅ Free dates for " +:+ pad2 (displayMonth range) +:+ "/"
        +:+ number_toString (displayYear range) +:+ ":")
       +:+ nl +:+ join nl (map (fun d => "• " +:+ d) (firstn 15 dates))
       +:+ (if 15 <? n
            then nl +:+ "…(+" +:+ Number_toString (n - 15) +:+ " more)"
            else "")
  /\ length (firstn 15 dates) = Nat.min 15 (length dates)
  /\ (computeAvailableDays Fixture.july_disabled Fixture.july_range
      = Ret Fixture.july_available
      /\ length Fixture.july_available = 29%nat
      /\ buildDatesMessage Fixture.july_available Fixture.july_range
         = Fixture.july_message).
Proof.
  intros hash n w' Hne. subst hash w'.
  split; [|split; [apply maybeNotify_stores_hash | split; [reflexivity|split]]].
  - rewrite maybeNotify_new_hash by assumption.
    match goal with |- context [sendTelegram R env ?t ?w0] =>
      destruct (sendTelegram_trace R env t w0 (buildDatesMessage_truthy _ _))
        as (logged & Htr & Hlog)
    end.
    exists logged. split; assumption.
  - apply length_firstn.
  - vm_compute. repeat split; reflexivity.
Qed.

Lemma hash_stored_before_send_witness :
  let w' := snd (maybeNotifyNewDates Fixture.host Fixture.remote_ok Fixture.env
                   Fixture.july_available Fixture.july_range Fixture.empty_world) in
  trace w' = [ EvTelegram "https://api.telegram.org/botbot/sendMessage" "chat"
                 Fixture.july_message;
               EvKvPut "Last_dates"
                 (sha256 Fixture.host (join "," Fixture.july_available)) None ]
  /\ kv w' !! "Last_dates"
     = Some (sha256 Fixture.host (join "," Fixture.july_available)).
Proof.
  assert (Hne : kv Fixture.empty_world !! "Last_dates"
                <> Some (sha256 Fixture.host (join "," Fixture.july_available)))
    by discriminate.
  pose proof (hash_stored_before_send Fixture.host Fixture.remote_ok Fixture.env
                Fixture.july_available Fixture.july_range Fixture.empty_world Hne)
    as (_ & Hkv & _).
  split; [vm_compute; reflexivity | exact Hkv].
Defined.

End ChangeNotifier.

(* ===================================================================== *)
(** * The retry of the availability fetch *)
(* ===================================================================== *)

Module Retry.
Import JSString Worker.

(** A run of [fetchAvailableDates] that ends within a depth of recursion
    ends the same way with any greater depth: where the model gives an
    outcome, the outcome does not depend on [fuel]. *)
Lemma fetchAvailableDates_more_fuel (H : Host) (R : Remote) (env : Env)
    (fuel : nat) (c : AuthCookie) (w : World) :
  fst (fetchAvailableDates H R env fuel c w) <> Diverge ->
  fetchAvailableDates H R env (S fuel) c w = fetchAvailableDates H R env fuel c w.
Proof.
  revert c w. induction fuel as [|fuel IH]; intros c w Hn.
  - exfalso. apply Hn. reflexivity.
  - revert Hn.
    change (fetchAvailableDates H R env (S (S fuel)))
      with (fetchAvailableDates_body H R env (fetchAvailableDates H R env (S fuel))).
    change (fetchAvailableDates H R env (S fuel) c w)
      with (fetchAvailableDates_body H R env (fetchAvailableDates H R env fuel) c w).
    unfold fetchAvailableDates_body, bind.
    destruct (calculateMonthRange R _ w) as [[range|e|] w1]; try reflexivity.
    destruct (fetch _ is_dates (dates_reply R) w1) as [[res|e|] w2]; try reflexivity.
    destruct ((status res =? 401) || (status res =? 403)); [|reflexivity].
    destruct (console _ w2) as [[[]|e|] w3]; try reflexivity.
    destruct (KV_delete _ w3) as [[[]|e|] w4]; try reflexivity.
    destruct (login H R env w4) as [[c'|e|] w5]; try reflexivity.
    intros Hn. apply IH. exact Hn.
Qed.

(** One refusal: the function calls itself with the fresh credential. *)
Lemma refused_step (fuel : nat) (c : AuthCookie) (w : World) :
  fetchAvailableDates Fixture.host Fixture.remote_expired Fixture.env (S fuel) c w
  = fetchAvailableDates Fixture.host Fixture.remote_expired Fixture.env fuel
      Fixture.credential (Fixture.refused c w).
Proof. reflexivity. Qed.

Lemma refused_requests (c : AuthCookie) (w : World) :
  count is_dates (trace (Fixture.refused c w)) = S (count is_dates (trace w)).
Proof. reflexivity. Qed.

(** C1, on the code: the retry after a 401 is the function calling itself,
    so a refusal of the fresh credential is retried as well.  With an
    endpoint that refuses every credential no depth of recursion ends the
    run, and each level sends one more request; with two refusals followed
    by an acceptance the run sends three requests and returns. *)
Theorem refusal_is_retried_without_bound :
  (forall fuel c w,
      let r := fetchAvailableDates Fixture.host Fixture.remote_expired
                 Fixture.env fuel c w in
      fst r = Diverge
      /\ count is_dates (trace (snd r)) = (count is_dates (trace w) + fuel)%nat)
  /\ (let r := fetchAvailableDates Fixture.host Fixture.remote_refusing_twice
                 Fixture.env 3 Fixture.credential Fixture.empty_world in
      (exists dates range, fst r = Ret (dates, range))
      /\ count is_dates (trace (snd r)) = 3%nat
      /\ count is_login (trace (snd r)) = 2%nat).
Proof.
  split.
  - induction fuel as [|fuel IH]; intros c w.
    + cbn. split; [reflexivity | lia].
    + cbv zeta. rewrite refused_step.
      destruct (IH Fixture.credential (Fixture.refused c w)) as [Hd Hn].
      cbv zeta in Hd, Hn. rewrite Hd, Hn, refused_requests.
      split; [reflexivity | lia].
  - vm_compute. repeat split; eauto.
Qed.

(** One refusal followed by an acceptance: the stored credential is
    deleted, one login is made, the second request carries the fresh token,
    and the run returns. *)
Example one_refusal_is_retried_once :
  let r := fetchAvailableDates Fixture.host Fixture.remote_refusing_once
             Fixture.env 2
             {| accessToken := "stale"; cookie_json := "{stale}" |}
             {| kv := <["Cookie" := "{stale}"]> ∅; trace := [] |} in
  (exists dates range, fst r = Ret (dates, range))
  /\ count is_dates (trace (snd r)) = 2%nat
  /\ count is_login (trace (snd r)) = 1%nat
  /\ kv (snd r) !! "Cookie" = Some "{T}"
  /\ omap (fun e => match e with EvDates _ a _ => Some a | _ => None end)
          (trace (snd r))
     = ["Bearer T"; "Bearer stale"].
Proof. vm_compute. repeat split; eauto. Qed.

End Retry.

(* ===================================================================== *)
(** * The orchestrator *)
(* ===================================================================== *)

Module Orchestrator.
Import JSString Worker.

Section Run.
Variables (H : Host) (R : Remote) (env : Env).

Lemma resetFailureCount_run (w : World) :
  resetFailureCount w
  = (Ret tt, {| kv := delete "last_error_msg" (<["fail_count" := "0"]> (kv w));
                trace := EvKvDelete "last_error_msg"
                         :: EvKvPut "fail_count" "0" None :: trace w |}).
Proof. reflexivity. Qed.

(** [sendTelegram] throws only what the messaging bot's endpoint rejects
    with, and returns normally on every response. *)
Lemma sendTelegram_outcome (t : string) (w : World) :
  match fst (sendTelegram R env t w) with
  | Ret _ => True
  | Throw e => telegram_reply R (count is_telegram (trace w)) = Rejected e
  | Diverge => False
  end.
Proof.
  unfold sendTelegram, bind, fetch. destruct (negb (truthy t)); cbn; [exact I|].
  destruct (telegram_reply R _) as [e | r]; cbn; [reflexivity|].
  destruct (negb (ok r)); cbn; exact I.
Qed.

Lemma sendTelegram_responded (t : string) (w : World) (r : Response unit) :
  telegram_reply R (count is_telegram (trace w)) = Responded r ->
  fst (sendTelegram R env t w) = Ret tt /\ kv (snd (sendTelegram R env t w)) = kv w.
Proof.
  intros Hr. unfold sendTelegram, bind, fetch.
  destruct (negb (truthy t)); cbn; [auto|].
  rewrite Hr. cbn. destruct (negb (ok r)); cbn; auto.
Qed.

Lemma recordFailure_outcome (err : JsError) (w : World) :
  match fst (recordFailureAndMaybeNotify R env err w) with
  | Ret _ => True
  | Throw e => exists n, telegram_reply R n = Rejected e
  | Diverge => False
  end.
Proof.
  destruct (decide (kv w !! "last_error_msg" = Some (err_message err))) as [He | Hne].
  - rewrite FailureTracker.recordFailure_same_message by assumption.
    destruct (next_fail_count w) as [c|]; [|exact I].
    destruct (_ || _); [|exact I].
    pose proof (sendTelegram_outcome (still_failing_text (err_message err) c)
                  (counted w)) as Hs.
    destruct (fst (sendTelegram R env _ (counted w))); eauto.
  - rewrite FailureTracker.recordFailure_new_message by assumption.
    match goal with |- context [sendTelegram R env ?t ?w0] =>
      pose proof (sendTelegram_outcome t w0) as Hs;
      destruct (fst (sendTelegram R env t w0)); eauto
    end.
Qed.

Lemma runCheck_caught (fuel : nat) (w w0 : World) (e0 : JsError) :
  runCheck_try H R env fuel w = (Throw e0, w0) ->
  runCheck H R env fuel w
  = recordFailureAndMaybeNotify R env e0
      {| kv := kv w0; trace := EvConsole "runCheck error" :: trace w0 |}.
Proof. intros Ht. unfold runCheck, try_catch. rewrite Ht. reflexivity. Qed.

Lemma runCheck_not_caught (fuel : nat) (w : World) :
  (forall e0, fst (runCheck_try H R env fuel w) <> Throw e0) ->
  runCheck H R env fuel w = runCheck_try H R env fuel w.
Proof.
  intros Hn. unfold runCheck, try_catch.
  destruct (runCheck_try H R env fuel w) as [[[]|e|] w1] eqn:E; try reflexivity.
  exfalso. apply (Hn e). reflexivity.
Qed.

(** Where [runCheck] has an outcome, the outcome does not depend on the
    depth given to the recursion of the fetch. *)
Lemma runCheck_more_fuel (fuel : nat) (w : World) :
  fst (runCheck H R env fuel w) <> Diverge ->
  runCheck H R env (S fuel) w = runCheck H R env fuel w.
Proof.
  unfold runCheck, try_catch, runCheck_try, bind.
  destruct (ensureAuth H R env w) as [[c|e|] w1]; try reflexivity.
  intros Hn.
  rewrite Retry.fetchAvailableDates_more_fuel; [reflexivity|].
  intros Hd. apply Hn.
  destruct (fetchAvailableDates H R env fuel c w1) as [[r|e|] w2];
    try discriminate.
  reflexivity.
Qed.

End Run.

(** C6. After a check cycle that succeeds (the guarded block of [runCheck]
    ends without an exception), whether dates were found or not, the stored
    [fail_count] is "0" and [last_error_msg] is absent, whatever they were
    before. *)
Theorem success_resets_failure_state (H : Host) (R : Remote) (env : Env)
    (fuel : nat) (w w' : World) :
  runCheck_try H R env fuel w = (Ret tt, w') ->
  runCheck H R env fuel w = (Ret tt, w')
  /\ kv w' !! "fail_count" = Some "0"
  /\ kv w' !! "last_error_msg" = None.
Proof.
  intros Hrun. split.
  - unfold runCheck, try_catch. rewrite Hrun. reflexivity.
  - unfold runCheck_try, bind in Hrun.
    destruct (ensureAuth H R env w) as [[c|e|] w1]; try discriminate.
    destruct (fetchAvailableDates H R env fuel c w1) as [[[dates range]|e|] w2];
      try discriminate.
    destruct (0 <? Z.of_nat (length dates)).
    + destruct (maybeNotifyNewDates H R env dates range w2) as [[[]|e|] w3];
        try discriminate.
      rewrite resetFailureCount_run in Hrun. injection Hrun as <-. cbn [kv].
      split; [rewrite lookup_delete_ne by done; apply lookup_insert_eq
             | apply lookup_delete_eq].
    + rewrite resetFailureCount_run in Hrun. cbn in Hrun.
      injection Hrun as <-. cbn [kv].
      rewrite !lookup_insert_ne by done.
      split; [rewrite lookup_delete_ne by done; apply lookup_insert_eq
             | apply lookup_delete_eq].
Qed.

(** Two cycles that succeed after two failures: one that finds 29 free
    dates, one that finds none. *)
Lemma success_resets_failure_state_witness :
  let found := snd (runCheck_try Fixture.host Fixture.remote_ok Fixture.env 1
                      Fixture.failing_twice) in
  let none := snd (runCheck_try Fixture.host Fixture.remote_full Fixture.env 1
                     Fixture.failing_twice) in
  (telegrams found = [Fixture.july_message]
   /\ kv found !! "fail_count" = Some "0" /\ kv found !! "last_error_msg" = None)
  /\ (telegrams none = []
      /\ kv none !! "fail_count" = Some "0" /\ kv none !! "last_error_msg" = None).
Proof.
  intros found none. split; (split; [vm_compute; reflexivity|]).
  - refine (proj2 (success_resets_failure_state Fixture.host Fixture.remote_ok
                     Fixture.env 1 Fixture.failing_twice found _)).
    vm_compute. reflexivity.
  - refine (proj2 (success_resets_failure_state Fixture.host Fixture.remote_full
                     Fixture.env 1 Fixture.failing_twice none _)).
    vm_compute. reflexivity.
Defined.

(** A request to the messaging bot that is rejected: [sendTelegram] throws
    the rejection, and nothing is written to the console. *)
Lemma sendTelegram_rejected (R : Remote) (env : Env) (t : string) (w : World)
    (e : JsError) :
  truthy t = true ->
  telegram_reply R (count is_telegram (trace w)) = Rejected e ->
  sendTelegram R env t w
  = (Throw e, {| kv := kv w;
                 trace := EvTelegram (telegram_url env) (TELEGRAM_CHAT_ID env) t
                          :: trace w |}).
Proof.
  intros Ht Hr. unfold sendTelegram, bind, fetch. rewrite Ht. cbn [negb].
  rewrite Hr. reflexivity.
Qed.

(** C7, on the code: the failure tracker runs inside the [catch] of
    [runCheck] with no guard of its own, and [sendTelegram] lets the
    rejection of its request through.  So whenever the guarded block
    throws a message that is not the last recorded one and the request of
    the failure notification is rejected, the rejection leaves [runCheck],
    and the timer trigger with it: the exception of the cycle is routed to
    the tracker, but [runCheck] raises to its caller.  The manual trigger
    catches what [runCheck] raises, the timer trigger does not.  With a
    login that answers 500 and a messaging bot that cannot be reached,
    [runCheck] and [scheduled] raise the [TypeError] of the send, after
    the failure was counted, and the manual trigger answers. *)
Theorem tracker_failure_leaves_runCheck :
  (forall H R env fuel w e0 w0 e,
      runCheck_try H R env fuel w = (Throw e0, w0) ->
      kv w0 !! "last_error_msg" <> Some (err_message e0) ->
      telegram_reply R (count is_telegram (trace w0)) = Rejected e ->
      fst (runCheck H R env fuel w) = Throw e
      /\ fst (scheduled H R env fuel w) = Throw e
      /\ exists body, fst (fetch_handler H R env fuel w) = Ret body)
  /\ (let down := runCheck Fixture.host Fixture.remote_down Fixture.env 1
                    Fixture.empty_world in
      fst (runCheck_try Fixture.host Fixture.remote_down Fixture.env 1
             Fixture.empty_world)
      = Throw (mkError "Error" "Login failed: 500 ")
      /\ fst down = Throw (mkError "TypeError" "fetch failed")
      /\ fst (scheduled Fixture.host Fixture.remote_down Fixture.env 1
                Fixture.empty_world)
         = Throw (mkError "TypeError" "fetch failed")
      /\ kv (snd down) !! "fail_count" = Some "1"
      /\ telegrams (snd down) = ["❗ Error: Login failed: 500  (fail #1)"])
  /\ ~ (forall H R env fuel w e, fst (runCheck H R env fuel w) <> Throw e).
Proof.
  assert (Hgen : forall H R env fuel w e0 w0 e,
             runCheck_try H R env fuel w = (Throw e0, w0) ->
             kv w0 !! "last_error_msg" <> Some (err_message e0) ->
             telegram_reply R (count is_telegram (trace w0)) = Rejected e ->
             fst (runCheck H R env fuel w) = Throw e).
  { intros H R env fuel w e0 w0 e Htry Hnew Hbot.
    rewrite (runCheck_caught H R env fuel w w0 e0 Htry).
    rewrite FailureTracker.recordFailure_new_message by exact Hnew.
    rewrite sendTelegram_rejected with (e := e);
      [reflexivity | apply FailureTracker.error_text_truthy | exact Hbot]. }
  assert (E : fst (runCheck Fixture.host Fixture.remote_down Fixture.env 1
                     Fixture.empty_world)
              = Throw (mkError "TypeError" "fetch failed"))
    by (vm_compute; reflexivity).
  split; [|split].
  - intros H R env fuel w e0 w0 e Htry Hnew Hbot.
    pose proof (Hgen H R env fuel w e0 w0 e Htry Hnew Hbot) as Hrun.
    split; [exact Hrun | split; [exact Hrun|]].
    unfold fetch_handler, bind, try_catch.
    destruct (runCheck H R env fuel w) as [[[]|e1|] w1]; cbn in *;
      try discriminate; eauto.
  - cbv zeta. split; [vm_compute; reflexivity|].
    split; [exact E | split; [exact E|]].
    split; vm_compute; reflexivity.
  - intros Hall. exact (Hall _ _ _ _ _ _ E).
Qed.

(** What the [catch] of [runCheck] does catch: every exception of the
    guarded block is handed to the failure tracker, so that [runCheck]
    raises nothing but an exception of the failure tracker itself, which
    (the operations of the store succeeding) is a rejection of the request
    to the messaging bot; the manual trigger catches it as well. *)
Theorem runCheck_raises_only_from_tracker (H : Host) (R : Remote) (env : Env)
    (fuel : nat) (w : World) :
  (forall e0 w0,
      runCheck_try H R env fuel w = (Throw e0, w0) ->
      runCheck H R env fuel w
      = recordFailureAndMaybeNotify R env e0
          {| kv := kv w0; trace := EvConsole "runCheck error" :: trace w0 |})
  /\ (forall e,
        fst (runCheck H R env fuel w) = Throw e ->
        (exists e0 w0, runCheck_try H R env fuel w = (Throw e0, w0))
        /\ exists n, telegram_reply R n = Rejected e)
  /\ (forall e, fst (fetch_handler H R env fuel w) <> Throw e).
Proof.
  split; [intros e0 w0; apply runCheck_caught | split].
  - intros e He.
    destruct (runCheck_try H R env fuel w) as [[[]|e0|] w0] eqn:Et;
      try (unfold runCheck, try_catch in He; rewrite Et in He; discriminate).
    split; [eauto|]. rewrite (runCheck_caught H R env fuel w w0 e0 Et) in He.
    pose proof (recordFailure_outcome R env e0
                  {| kv := kv w0; trace := EvConsole "runCheck error" :: trace w0 |})
      as Ho.
    rewrite He in Ho. exact Ho.
  - intros e. unfold fetch_handler, bind, try_catch.
    destruct (runCheck H R env fuel w) as [[[]|e1|] w1]; cbn; discriminate.
Qed.

Lemma runCheck_raises_only_from_tracker_witness :
  let w := Fixture.empty_world in
  (exists e0 w0, runCheck_try Fixture.host Fixture.remote_down Fixture.env 1 w
                 = (Throw e0, w0))
  /\ exists n, telegram_reply Fixture.remote_down n
               = Rejected (mkError "TypeError" "fetch failed").
Proof.
  refine (proj1 (proj2 (runCheck_raises_only_from_tracker Fixture.host
                          Fixture.remote_down Fixture.env 1 Fixture.empty_world))
            (mkError "TypeError" "fetch failed") _).
  vm_compute. reflexivity.
Defined.

(** C8, on the code: [sendTelegram] guards the answer of the messaging
    bot only ([!res.ok] is logged), not the request: when the request is
    rejected (the bot cannot be reached), [sendTelegram] throws to its
    caller and logs nothing, the notifier throws with it, and in a cycle
    that found dates the exception reaches the [catch] of [runCheck]: the
    failure tracker runs, counts a failure and sends a failure
    notification of its own.  The hash of the dates is stored by then, so
    the dates are not announced again. *)
Theorem rejected_send_runs_the_tracker :
  (forall R env t w e,
      truthy t = true ->
      telegram_reply R (count is_telegram (trace w)) = Rejected e ->
      sendTelegram R env t w
      = (Throw e, {| kv := kv w;
                     trace := EvTelegram (telegram_url env) (TELEGRAM_CHAT_ID env) t
                              :: trace w |}))
  /\ (forall H R env dates range w e,
        kv w !! "Last_dates" <> Some (sha256 H (join "," dates)) ->
        telegram_reply R (count is_telegram (trace w)) = Rejected e ->
        fst (maybeNotifyNewDates H R env dates range w) = Throw e)
  /\ (let cycle := runCheck Fixture.host Fixture.remote_bot_unreachable Fixture.env 1
                     Fixture.empty_world in
      fst (sendTelegram Fixture.remote_bot_unreachable Fixture.env "free dates"
             Fixture.empty_world)
      = Throw (mkError "TypeError" "fetch failed")
      /\ fst (runCheck_try Fixture.host Fixture.remote_bot_unreachable Fixture.env 1
                Fixture.empty_world)
         = Throw (mkError "TypeError" "fetch failed")
      /\ kv (snd cycle) !! "fail_count" = Some "1"
      /\ kv (snd cycle) !! "last_error_msg" = Some "fetch failed"
      /\ head (telegrams (snd cycle)) = Some "❗ Error: fetch failed (fail #1)"
      /\ length (telegrams (snd cycle)) = 2%nat
      /\ kv (snd cycle) !! "Last_dates"
         = Some (sha256 Fixture.host (join "," (map (fun d => "2025-07-" +:+ d)
              ["01"; "02"; "03"; "04"; "05"; "06"; "07"; "08"; "09"; "10"; "11";
               "12"; "13"; "14"; "15"; "16"; "17"; "18"; "19"; "20"; "21"; "22";
               "23"; "24"; "25"; "26"; "27"; "28"; "29"; "30"; "31"]))))
  /\ ~ (forall R env t w e, fst (sendTelegram R env t w) <> Throw e).
Proof.
  split; [exact sendTelegram_rejected | split; [|split]].
  - intros H R env dates range w e Hne Hbot.
    rewrite ChangeNotifier.maybeNotify_new_hash by exact Hne.
    rewrite sendTelegram_rejected with (e := e);
      [reflexivity | apply ChangeNotifier.buildDatesMessage_truthy | exact Hbot].
  - cbv zeta. repeat split; vm_compute; reflexivity.
  - intros Hall.
    apply (Hall Fixture.remote_bot_unreachable Fixture.env "free dates"
             Fixture.empty_world (mkError "TypeError" "fetch failed")).
    vm_compute. reflexivity.
Qed.

(** The path that [sendTelegram] does guard: a send that the messaging
    bot answers, with whatever status, raises nothing and leaves the store
    alone; an answer that is not a success is written to the console only.
    When every send is answered, the notifier raises nothing, and a cycle
    whose authentication and fetch succeed ends without the failure
    tracker. *)
Theorem answered_send_is_only_logged (H : Host) (R : Remote) (env : Env) :
  (forall n, exists r, telegram_reply R n = Responded r) ->
  (forall t w,
      fst (sendTelegram R env t w) = Ret tt
      /\ kv (snd (sendTelegram R env t w)) = kv w)
  /\ (forall t w r,
        telegram_reply R (count is_telegram (trace w)) = Responded r ->
        ok r = false -> truthy t = true ->
        trace (snd (sendTelegram R env t w))
        = EvConsole "Telegram send failed"
          :: EvTelegram (telegram_url env) (TELEGRAM_CHAT_ID env) t :: trace w)
  /\ (forall dates range w,
        fst (maybeNotifyNewDates H R env dates range w) = Ret tt)
  /\ (forall fuel w c w1 dates range w2,
        ensureAuth H R env w = (Ret c, w1) ->
        fetchAvailableDates H R env fuel c w1 = (Ret (dates, range), w2) ->
        fst (runCheck_try H R env fuel w) = Ret tt
        /\ runCheck H R env fuel w = runCheck_try H R env fuel w).
Proof.
  intros Hans.
  assert (Hsend : forall t w, fst (sendTelegram R env t w) = Ret tt
                              /\ kv (snd (sendTelegram R env t w)) = kv w).
  { intros t w. destruct (Hans (count is_telegram (trace w))) as [r Hr].
    exact (sendTelegram_responded R env t w r Hr). }
  assert (Hnotify : forall dates range w,
             fst (maybeNotifyNewDates H R env dates range w) = Ret tt).
  { intros dates range w.
    destruct (decide (kv w !! "Last_dates" = Some (sha256 H (join "," dates))))
      as [He | Hne].
    - rewrite ChangeNotifier.maybeNotify_same_hash by assumption. reflexivity.
    - rewrite ChangeNotifier.maybeNotify_new_hash by assumption. apply Hsend. }
  split; [exact Hsend | split; [|split; [exact Hnotify|]]].
  - intros t w r Hr Hok Ht. unfold sendTelegram, bind, fetch.
    rewrite Ht. cbn [negb]. rewrite Hr, Hok. reflexivity.
  - intros fuel w c w1 dates range w2 Hauth Hfetch.
    assert (Htry : fst (runCheck_try H R env fuel w) = Ret tt).
    { unfold runCheck_try, bind. rewrite Hauth, Hfetch.
      destruct (0 <? Z.of_nat (length dates)); [|reflexivity].
      pose proof (Hnotify dates range w2) as Hn.
      destruct (maybeNotifyNewDates H R env dates range w2) as [[[]|e|] w3];
        try discriminate.
      reflexivity. }
    split; [exact Htry|].
    apply runCheck_not_caught. intros e0 He0. congruence.
Qed.

Lemma answered_send_is_only_logged_witness :
  let w' := snd (runCheck Fixture.host Fixture.remote_bot_erroring Fixture.env 1
                   Fixture.failing_twice) in
  fst (runCheck_try Fixture.host Fixture.remote_bot_erroring Fixture.env 1
         Fixture.failing_twice) = Ret tt
  /\ kv w' !! "fail_count" = Some "0"
  /\ hd_error (trace (snd (sendTelegram Fixture.remote_bot_erroring Fixture.env
                             "free dates" Fixture.empty_world)))
     = Some (EvConsole "Telegram send failed").
Proof.
  assert (Hans : forall n, exists r,
             telegram_reply Fixture.remote_bot_erroring n = Responded r)
    by (intros n; eexists; reflexivity).
  destruct (answered_send_is_only_logged Fixture.host Fixture.remote_bot_erroring
              Fixture.env Hans) as (_ & Hlog & _ & Hcycle).
  split; [|split].
  - refine (proj1 (Hcycle 1%nat Fixture.failing_twice _ _ _ _ _ _ _));
      vm_compute; reflexivity.
  - vm_compute. reflexivity.
  - rewrite (Hlog "free dates" Fixture.empty_world _ eq_refl eq_refl eq_refl).
    reflexivity.
Defined.

(** ** Whole cycles *)

(** Two cycles in a row that find the same 29 dates: one notification. *)
Example two_cycles_one_notification :
  let w1 := snd (runCheck Fixture.host Fixture.remote_ok Fixture.env 1
                   Fixture.empty_world) in
  let w2 := snd (runCheck Fixture.host Fixture.remote_ok Fixture.env 1 w1) in
  telegrams w1 = [Fixture.july_message] /\ telegrams w2 = [Fixture.july_message].
Proof. vm_compute. split; reflexivity. Qed.

(** A credential refused once: the cycle goes on with the fresh one and no
    failure is recorded. *)
Example refused_once_cycle :
  let r := runCheck Fixture.host Fixture.remote_refusing_once Fixture.env 2
             {| kv := <["Cookie" := "{stale}"]> ∅; trace := [] |} in
  fst r = Ret tt
  /\ kv (snd r) !! "fail_count" = Some "0"
  /\ kv (snd r) !! "Cookie" = Some "{T}"
  /\ length (telegrams (snd r)) = 1%nat.
Proof. vm_compute. repeat split; reflexivity. Qed.

(** Ten cycles in a row that fail at the login with the same message: the
    first failure is reported, then the third, the fifth and the tenth. *)
Example ten_failures_four_notifications :
  let cycle w := snd (runCheck Fixture.host Fixture.remote_login_down Fixture.env 1 w) in
  let w10 := Nat.iter 10 cycle Fixture.empty_world in
  telegrams w10
  = [ "⚠️ Still failing (10 times): Login failed: 503 busy";
      "⚠️ Still failing (5 times): Login failed: 503 busy";
      "⚠️ Still failing (3 times): Login failed: 503 busy";
      "❗ Error: Login failed: 503 busy (fail #1)" ]
  /\ kv w10 !! "fail_count" = Some "10"
  /\ kv w10 !! "last_error_msg" = Some "Login failed: 503 busy".
Proof. vm_compute. repeat split; reflexivity. Qed.

End Orchestrator.

(* ===================================================================== *)
(** * The month range *)
(* ===================================================================== *)

Module MonthRangeFacts.
Import JSString JSStringFacts JSDate JSDateFacts Worker.

Lemma LeapOfYear_calendar (y : Z) :
  LeapOfYear y = if Calendar.is_leap_year y then 1 else 0.
Proof.
  unfold LeapOfYear, DaysInYear, Calendar.is_leap_year.
  destruct (y mod 4 =? 0), (y mod 100 =? 0), (y mod 400 =? 0); reflexivity.
Qed.

Lemma DaysInMonth_calendar (y m : Z) :
  0 <= m <= 11 -> DaysInMonth y m = Calendar.days_in_month y (m + 1).
Proof.
  intros Hm. unfold DaysInMonth, Calendar.days_in_month.
  rewrite LeapOfYear_calendar. destruct (Calendar.is_leap_year y); month_table.
Qed.

(** The day numbers of the years 0 to 9999 are far inside the range of the
    time values. *)
Lemma DayFromYear_window (y : Z) :
  0 <= y <= 10000 -> -719528 <= DayFromYear y <= 2932897.
Proof.
  intros Hy.
  pose proof (DayFromYear_le 0 y ltac:(lia)) as H0.
  pose proof (DayFromYear_le y 10000 ltac:(lia)) as H1.
  change (DayFromYear 0) with (-719528) in H0.
  change (DayFromYear 10000) with 2932897 in H1. lia.
Qed.

Lemma MakeDay_window (y m dt : Z) :
  0 <= y <= 9999 -> 0 <= m <= 11 -> 0 <= dt <= 32 ->
  -719529 <= MakeDay y m dt <= 2932900.
Proof.
  intros Hy Hm Hdt. unfold MakeDay.
  replace (m / 12) with 0 by zdiv. replace (m mod 12) with m by zdiv.
  rewrite Z.add_0_r.
  pose proof (DayFromYear_window y ltac:(lia)) as Hlo.
  pose proof (DayFromYear_window (y + 1) ltac:(lia)) as Hhi.
  rewrite DayFromYear_succ, LeapOfYear_DaysInYear in Hhi.
  pose proof (MonthStart_range m _ (LeapOfYear_cases y) Hm) as Hs.
  pose proof (MonthLength_range m _ (LeapOfYear_cases y)) as Hl.
  lia.
Qed.

Lemma TimeClip_window (n w : Z) :
  -100000000 < n < 100000000 -> 0 <= w < msPerDay ->
  TimeClip (MakeDate n w) = Some (MakeDate n w).
Proof.
  intros Hn Hw. unfold TimeClip, MakeDate, msPerDay in *.
  replace (Z.abs (n * 86400000 + w) <=? 8640000000000000) with true; [reflexivity|].
  symmetry. apply Z.leb_le. lia.
Qed.

(** The first ten characters of the ISO string of a time value of the
    years 0 to 9999 are its date. *)
Lemma iso_string_date (t : Z) :
  0 <= YearFromTime t <= 9999 ->
  slice (iso_string t) 0 10
  = Calendar.iso_date (YearFromTime t) (MonthFromTime t + 1) (DateFromTime t).
Proof.
  intros Hy. unfold iso_string, Calendar.iso_date.
  set (tail := "T" +:+ _).
  set (a := year_string _). set (c := digitsN 2 (MonthFromTime t + 1)).
  set (e := digitsN 2 (DateFromTime t)).
  replace (a +:+ "-" +:+ c +:+ "-" +:+ e +:+ tail)
    with ((a +:+ "-" +:+ c +:+ "-" +:+ e) +:+ tail)
    by (now rewrite !append_assoc).
  apply slice_0_app.
  unfold len, a, c, e, year_string.
  replace ((0 <=? YearFromTime t) && (YearFromTime t <=? 9999)) with true
    by (symmetry; apply andb_true_iff; split; apply Z.leb_le; lia).
  rewrite !length_append, !digitsN_length. reflexivity.
Qed.

Lemma UTC_full_year (y k dt : Z) :
  ~ (0 <= y <= 99) ->
  UTC (Some y) (Some k) (Some dt) = TimeClip (MakeDate (MakeDay y k dt) 0).
Proof.
  intros Hy. unfold UTC, MakeFullYear.
  replace ((0 <=? y) && (y <=? 99)) with false; [reflexivity|].
  symmetry. apply andb_false_iff.
  destruct (Z.leb_spec 0 y); [right; apply Z.leb_gt; lia | now left].
Qed.

(** The time value of midnight of a date of the years 0 to 9999, and what
    its getters and its ISO string give back. *)
Lemma midnight_of_date (y m dt : Z) :
  0 <= y <= 9999 -> 0 <= m <= 11 -> 1 <= dt <= DaysInMonth y m ->
  let t := MakeDate (MakeDay y m dt) 0 in
  TimeClip t = Some t
  /\ YearFromTime t = y /\ MonthFromTime t = m /\ DateFromTime t = dt
  /\ slice (iso_string t) 0 10 = Calendar.iso_date y (m + 1) dt.
Proof.
  intros Hy Hm Hdt t.
  pose proof (MonthLength_range m _ (LeapOfYear_cases y)) as Hl.
  unfold DaysInMonth in Hdt.
  assert (Hw : -719529 <= MakeDay y m dt <= 2932900)
    by (apply MakeDay_window; lia).
  destruct (civil_of_MakeDay y m dt Hm Hdt 0 ltac:(unfold msPerDay; lia))
    as (Ey & Em & Ed).
  fold t in Ey, Em, Ed.
  split; [apply TimeClip_window; unfold msPerDay; lia|].
  repeat (split; [assumption|]).
  rewrite iso_string_date by lia. rewrite Ey, Em, Ed. reflexivity.
Qed.

(** C5 as stated fails outside the years 100 to 9999.  From July 2025,
    100000 months ahead is November 10358: the ISO string has a signed
    year of six digits, and its first ten characters are not a date, for
    the start and for the end alike.  And 23706 months back is January of
    the year 50, which [Date.UTC] takes for 1950 when it computes the last
    day: the range starts on 0050-01-01 and ends on 1950-01-31. *)
Lemma month_range_counterexample :
  let far := fst (calculateMonthRange Fixture.remote_ok (Some 100000)
                    Fixture.empty_world) in
  let early := fst (calculateMonthRange Fixture.remote_ok (Some (-23706))
                      Fixture.empty_world) in
  far = Ret {| startISO := "+010358-11"; endISO := "+010358-11";
               displayMonth := Some 11; displayYear := Some 10358 |}
  /\ early = Ret {| startISO := "0050-01-01"; endISO := "1950-01-31";
                    displayMonth := Some 1; displayYear := Some 50 |}
  /\ ~ (forall R o w,
          let t := clock R (count is_clock (trace w)) in
          let k := MonthFromTime t + o in
          let Y := YearFromTime t + k / 12 in
          let M := k mod 12 + 1 in
          exists r,
            fst (calculateMonthRange R (Some o) w) = Ret r
            /\ startISO r = Calendar.iso_date Y M 1
            /\ endISO r = Calendar.iso_date Y M (Calendar.days_in_month Y M)).
Proof.
  split; [vm_compute; reflexivity | split; [vm_compute; reflexivity|]].
  intros Hall.
  destruct (Hall Fixture.remote_ok 100000 Fixture.empty_world)
    as (r & Hr & Hs & _).
  vm_compute in Hr. injection Hr as <-. vm_compute in Hs. discriminate.
Qed.

(** C5, amended. With the clock in the year 100 or later and the target
    month (the month of the clock plus the offset, the year carried) in
    the years 100 to 9999, [calculateMonthRange] gives the first and the
    last day of the target month, for months of 28, 29, 30 and 31 days. *)
Theorem month_range_is_the_target_month (R : Remote) (o : Z) (w : World) :
  let t := clock R (count is_clock (trace w)) in
  let k := MonthFromTime t + o in
  let Y := YearFromTime t + k / 12 in
  let M := k mod 12 + 1 in
  100 <= YearFromTime t ->
  100 <= Y <= 9999 ->
  fst (calculateMonthRange R (Some o) w)
  = Ret {| startISO := Calendar.iso_date Y M 1;
           endISO := Calendar.iso_date Y M (Calendar.days_in_month Y M);
           displayMonth := Some M;
           displayYear := Some Y |}.
Proof.
  intros t k Y M Hnow HY.
  assert (Hm : 0 <= k mod 12 <= 11) by zdiv.
  pose proof (MonthLength_range (k mod 12) _ (LeapOfYear_cases Y)) as Hl.
  fold (DaysInMonth Y (k mod 12)) in Hl.
  destruct (midnight_of_date Y (k mod 12) 1 ltac:(lia) Hm ltac:(lia))
    as (Hc1 & Hy1 & Hm1 & Hd1 & Hs1).
  destruct (midnight_of_date Y (k mod 12) (DaysInMonth Y (k mod 12))
              ltac:(lia) Hm ltac:(lia))
    as (Hc2 & Hy2 & Hm2 & Hd2 & Hs2).
  unfold calculateMonthRange, bind, now. cbn [fst snd trace kv].
  fold t. cbn [getUTCFullYear getUTCMonth option_map].
  rewrite UTC_full_year by lia.
  fold k. rewrite (MakeDay_carry (YearFromTime t) k 1). fold Y.
  rewrite Hc1. cbn [getUTCFullYear getUTCMonth option_map].
  rewrite Hy1, Hm1.
  rewrite UTC_full_year by lia.
  rewrite MakeDay_last_day by assumption. rewrite Hc2.
  cbn [toISOString lift ret fst]. rewrite Hs1, Hs2.
  rewrite DaysInMonth_calendar by assumption. reflexivity.
Qed.

(** July 2025 from the clock of July 2025; February 2024, a leap year, 17
    months back; and January 2026, six months ahead across the end of the
    year. *)
Lemma month_range_is_the_target_month_witness :
  fst (calculateMonthRange Fixture.remote_ok (Some 0) Fixture.empty_world)
  = Ret {| startISO := "2025-07-01"; endISO := "2025-07-31";
           displayMonth := Some 7; displayYear := Some 2025 |}
  /\ fst (calculateMonthRange Fixture.remote_ok (Some (-17)) Fixture.empty_world)
     = Ret {| startISO := "2024-02-01"; endISO := "2024-02-29";
              displayMonth := Some 2; displayYear := Some 2024 |}
  /\ fst (calculateMonthRange Fixture.remote_ok (Some 6) Fixture.empty_world)
     = Ret {| startISO := "2026-01-01"; endISO := "2026-01-31";
              displayMonth := Some 1; displayYear := Some 2026 |}.
Proof.
  split; [|split].
  - rewrite (month_range_is_the_target_month Fixture.remote_ok 0 Fixture.empty_world);
      [reflexivity | vm_compute; discriminate | vm_compute; split; discriminate].
  - rewrite (month_range_is_the_target_month Fixture.remote_ok (-17)
               Fixture.empty_world);
      [reflexivity | vm_compute; discriminate | vm_compute; split; discriminate].
  - rewrite (month_range_is_the_target_month Fixture.remote_ok 6 Fixture.empty_world);
      [reflexivity | vm_compute; discriminate | vm_compute; split; discriminate].
Defined.

(** An offset that is not a number (a setting that [parseInt] cannot
    read) makes both dates invalid, and [toISOString] throws. *)
Example month_range_of_not_a_number :
  JSString.parseInt "next" = None
  /\ fst (calculateMonthRange Fixture.remote_ok None Fixture.empty_world)
     = Throw (mkError "RangeError" "Invalid time value").
Proof. split; reflexivity. Qed.

End MonthRangeFacts.

(* ===================================================================== *)
(** * The available days *)
(* ===================================================================== *)

Module AvailableDays.
Import JSString JSStringFacts JSDate JSDateFacts Worker MonthRangeFacts.

(** ** Reading a date back *)

Lemma parse_year_digit_first (d : Z) (r : string) :
  0 <= d <= 9 ->
  parse_year (String (digit_char d) r) = take_digits 4 (String (digit_char d) r) 0.
Proof.
  intros Hd.
  assert (Hc : d = 0 \/ d = 1 \/ d = 2 \/ d = 3 \/ d = 4 \/ d = 5 \/ d = 6
               \/ d = 7 \/ d = 8 \/ d = 9) by lia.
  repeat destruct Hc as [-> | Hc]; try subst d; reflexivity.
Qed.

Lemma parse_year_digits (y : Z) (rest : string) :
  0 <= y <= 9999 -> parse_year (digitsN 4 y +:+ rest) = Some (y, rest).
Proof.
  intros Hy.
  assert (E : digitsN 4 y +:+ rest
              = String (digit_char (y / 10 / 10 / 10 mod 10))
                  (digitsN 3 y +:+ rest)).
  { cbn [digitsN]. rewrite !append_assoc. reflexivity. }
  rewrite E at 1. rewrite parse_year_digit_first by zdiv. rewrite <- E.
  apply take_digits_exact. change (10 ^ Z.of_nat 4) with 10000. lia.
Qed.

Lemma parse_field_dash (v : Z) (rest : string) :
  0 <= v <= 99 ->
  parse_field "-" 1 ("-" +:+ digitsN 2 v +:+ rest) = Some (v, rest).
Proof.
  intros Hv. change ("-" +:+ digitsN 2 v +:+ rest)
    with (String "-"%char (digitsN 2 v +:+ rest)).
  cbn [parse_field]. change (Ascii.eqb "-" "-") with true. cbn iota.
  apply take_digits_exact. change (10 ^ Z.of_nat 2) with 100. lia.
Qed.

(** Midnight of a date of the years 0 to 9999, read from its ISO form. *)
Lemma parse_midnight (y m dt : Z) :
  0 <= y <= 9999 -> 0 <= m <= 11 -> 1 <= dt <= DaysInMonth y m ->
  parse (Calendar.iso_date y (m + 1) dt +:+ "T00:00:00.000Z")
  = Some (MakeDate (MakeDay y m dt) 0).
Proof.
  intros Hy Hm Hdt.
  pose proof (MonthLength_range m _ (LeapOfYear_cases y)) as Hl.
  fold (DaysInMonth y m) in Hl.
  destruct (midnight_of_date y m dt Hy Hm Hdt) as (Hclip & _).
  unfold parse, Calendar.iso_date, year_string.
  replace ((0 <=? y) && (y <=? 9999)) with true
    by (symmetry; apply andb_true_iff; split; apply Z.leb_le; lia).
  rewrite !append_assoc.
  rewrite parse_year_digits by assumption.
  rewrite parse_field_dash by lia.
  rewrite parse_field_dash by lia.
  change (parse_time "T00:00:00.000Z") with (Some 0).
  replace (m + 1 - 1) with m by lia.
  replace ((1 <=? m + 1) && (m + 1 <=? 12) && (1 <=? dt) && (dt <=? 31))
    with true; [exact Hclip|].
  symmetry. rewrite !andb_true_iff, !Z.leb_le. lia.
Qed.

(** ** The loop over the days *)

Lemma year_in_window (n : Z) :
  Calendar.in_window n -> 0 <= YearFromTime (MakeDate n 0) <= 9999.
Proof.
  unfold Calendar.in_window, YearFromTime. intros Hn.
  rewrite Day_MakeDate by (unfold msPerDay; lia).
  pose proof (YearFromDay_spec n) as Hs.
  destruct (Z.lt_ge_cases (YearFromDay n) 0) as [Hneg | Hpos].
  - pose proof (DayFromYear_le (YearFromDay n + 1) 0 ltac:(lia)) as Hle.
    change (DayFromYear 0) with (-719528) in Hle. lia.
  - destruct (Z.lt_ge_cases 9999 (YearFromDay n)) as [Hbig | Hok]; [|lia].
    pose proof (DayFromYear_le 10000 (YearFromDay n) ltac:(lia)) as Hle.
    change (DayFromYear 10000) with 2932897 in Hle. lia.
Qed.

Lemma day_number_in_window (y m dt : Z) :
  0 <= y <= 9999 -> 0 <= m <= 11 -> 1 <= dt <= DaysInMonth y m ->
  Calendar.in_window (MakeDay y m dt).
Proof.
  intros Hy Hm Hdt. unfold Calendar.in_window.
  pose proof (MakeDay_normal y m dt Hm) as E.
  pose proof (DayFromYear_window y ltac:(lia)) as Hlo.
  pose proof (DayFromYear_window (y + 1) ltac:(lia)) as Hhi.
  rewrite DayFromYear_succ, LeapOfYear_DaysInYear in Hhi.
  pose proof (MonthStart_range m _ (LeapOfYear_cases y) Hm) as Hs.
  unfold DaysInMonth in Hdt. lia.
Qed.

(** The date pushed for the day [n]. *)
Lemma pushed_date (n : Z) :
  Calendar.in_window n ->
  slice (iso_string (MakeDate n 0)) 0 10 = Calendar.iso_of_day n.
Proof. intros Hn. apply iso_string_date. now apply year_in_window. Qed.

(** [d.setUTCDate(d.getUTCDate() + 1)] moves midnight of the day [n] to
    midnight of the day [n + 1]. *)
Lemma next_day (n : Z) :
  Calendar.in_window n ->
  setUTCDate (Some (MakeDate n 0))
    (option_map (fun x => x + 1) (getUTCDate (Some (MakeDate n 0))))
  = Some (MakeDate (n + 1) 0).
Proof.
  unfold Calendar.in_window. intros Hn. cbn [getUTCDate option_map setUTCDate].
  rewrite MakeDay_shift, MakeDay_of_civil.
  rewrite Day_MakeDate, TimeWithinDay_MakeDate by (unfold msPerDay; lia).
  apply TimeClip_window; unfold msPerDay; lia.
Qed.

Lemma days_from_to_empty (a b : Z) : b < a -> Calendar.days_from_to a b = [].
Proof.
  intros Hlt. unfold Calendar.days_from_to.
  replace (Z.to_nat (b - a + 1)) with 0%nat by lia. reflexivity.
Qed.

Lemma days_from_to_cons (a b : Z) :
  a <= b -> Calendar.days_from_to a b = a :: Calendar.days_from_to (a + 1) b.
Proof.
  intros Hle. unfold Calendar.days_from_to.
  replace (Z.to_nat (b - a + 1)) with (S (Z.to_nat (b - (a + 1) + 1))) by lia.
  cbn [seq map]. f_equal; [lia|].
  rewrite <- seq_shift, map_map. apply map_ext. intros i. lia.
Qed.

Lemma all_dates_loop_run (b : Z) (budget : nat) (n : Z) (acc : list string) :
  -719528 <= n -> b < 2932897 ->
  (Z.to_nat (b - n + 1) <= budget)%nat ->
  all_dates_loop budget (Some (MakeDate n 0)) (Some (MakeDate b 0)) acc
  = Ret (acc ++ map Calendar.iso_of_day (Calendar.days_from_to n b)).
Proof.
  revert n acc. induction budget as [|budget IH]; intros n acc Hn Hb Hbudget.
  - assert (b < n) by lia.
    cbn [all_dates_loop le].
    replace (MakeDate n 0 <=? MakeDate b 0) with false
      by (symmetry; apply Z.leb_gt; unfold MakeDate, msPerDay; lia).
    rewrite days_from_to_empty by assumption. cbn [map].
    now rewrite app_nil_r.
  - cbn [all_dates_loop le].
    destruct (Z.le_gt_cases n b) as [Hle | Hgt].
    + replace (MakeDate n 0 <=? MakeDate b 0) with true
        by (symmetry; apply Z.leb_le; unfold MakeDate, msPerDay; lia).
      cbn [toISOString].
      rewrite pushed_date, next_day by (unfold Calendar.in_window; lia).
      rewrite IH by lia.
      rewrite (days_from_to_cons n b Hle). cbn [map].
      now rewrite <- app_assoc.
    + replace (MakeDate n 0 <=? MakeDate b 0) with false
        by (symmetry; apply Z.leb_gt; unfold MakeDate, msPerDay; lia).
      rewrite days_from_to_empty by lia. cbn [map].
      now rewrite app_nil_r.
Qed.

(** The budget that [computeAvailableDays] gives to its loop is enough. *)
Lemma loop_budget_days (n b : Z) :
  loop_budget (Some (MakeDate n 0)) (Some (MakeDate b 0)) = Z.to_nat (b - n + 1).
Proof.
  cbn [loop_budget]. f_equal. unfold MakeDate, msPerDay. zdiv.
Qed.

(** Whatever the two dates, a round of the loop moves [d] one day ahead
    (or makes it invalid, at the end of the range of the time values), so
    the budget is never used up: the bounded loop is the loop of the
    source. *)
Lemma next_day_any (t : Z) :
  setUTCDate (Some t) (option_map (fun x => x + 1) (getUTCDate (Some t)))
  = TimeClip (t + msPerDay).
Proof.
  cbn [getUTCDate option_map setUTCDate].
  rewrite MakeDay_shift, MakeDay_of_civil. f_equal.
  pose proof (MakeDate_Day t) as E. unfold MakeDate in *. lia.
Qed.

Lemma loop_budget_zero (d e : Date) : loop_budget d e = 0%nat -> le d e = false.
Proof.
  destruct d as [ta|], e as [tb|]; cbn; try reflexivity.
  intros Hb. apply Z.leb_gt. revert Hb. unfold msPerDay. zdiv.
Qed.

Lemma loop_budget_next (ta : Z) (e : Date) (n : nat) :
  le (Some ta) e = true ->
  (loop_budget (Some ta) e <= S n)%nat ->
  (loop_budget (TimeClip (ta + msPerDay)) e <= n)%nat.
Proof.
  destruct e as [tb|]; [|discriminate]. cbn [le loop_budget].
  intros Hle Hb. apply Z.leb_le in Hle.
  unfold TimeClip. destruct (_ <=? _); cbn [loop_budget]; [|lia].
  revert Hb. unfold msPerDay. zdiv.
Qed.

Lemma all_dates_loop_terminates (n : nat) (d e : Date) (acc : list string) :
  (loop_budget d e <= n)%nat -> all_dates_loop n d e acc <> Diverge.
Proof.
  revert d acc. induction n as [|n IH]; intros d acc Hb; cbn [all_dates_loop].
  - rewrite loop_budget_zero by lia. discriminate.
  - destruct (le d e) eqn:Hle; [|discriminate].
    destruct d as [ta|]; [|discriminate]. cbn [toISOString].
    rewrite next_day_any. apply IH. now apply loop_budget_next.
Qed.

Lemma all_dates_loop_more (n : nat) (d e : Date) (acc : list string) :
  all_dates_loop n d e acc <> Diverge ->
  all_dates_loop (S n) d e acc = all_dates_loop n d e acc.
Proof.
  revert d acc. induction n as [|n IH]; intros d acc Hn.
  - cbn [all_dates_loop] in *. destruct (le d e); [congruence | reflexivity].
  - change (all_dates_loop (S (S n)) d e acc)
      with (if le d e then
              match toISOString d with
              | Ret s => all_dates_loop (S n)
                           (setUTCDate d (option_map (fun x => x + 1) (getUTCDate d)))
                           e (acc ++ [slice s 0 10])
              | Throw err => Throw err
              | Diverge => Diverge
              end
            else Ret acc).
    cbn [all_dates_loop] in Hn |- *.
    destruct (le d e); [|reflexivity].
    destruct (toISOString d); try reflexivity.
    apply IH. exact Hn.
Qed.

Lemma all_dates_loop_enough (budget : nat) (d e : Date) (acc : list string) :
  (loop_budget d e <= budget)%nat ->
  all_dates_loop budget d e acc = all_dates_loop (loop_budget d e) d e acc
  /\ all_dates_loop budget d e acc <> Diverge.
Proof.
  intros Hb. split; [|now apply all_dates_loop_terminates].
  induction Hb as [|m Hm IH]; [reflexivity|].
  rewrite all_dates_loop_more; [exact IH|].
  rewrite IH. now apply all_dates_loop_terminates.
Qed.

(** [computeAvailableDays] always returns, and never throws. *)
Lemma computeAvailableDays_returns (disabled : list DisabledDateRecord)
    (range : MonthRange) :
  exists l, computeAvailableDays disabled range = Ret l.
Proof.
  unfold computeAvailableDays.
  set (d := parse _). set (e := parse _).
  pose proof (all_dates_loop_terminates (loop_budget d e) d e [] ltac:(lia)) as Hn.
  assert (Ht : forall n d0 acc err, all_dates_loop n d0 e acc <> Throw err).
  { induction n as [|n IH]; intros d0 acc err; cbn [all_dates_loop].
    - destruct (le d0 e); discriminate.
    - destruct (le d0 e) eqn:Hle; [|discriminate].
      destruct d0 as [ta|]; [|discriminate]. cbn [toISOString]. apply IH. }
  destruct (all_dates_loop (loop_budget d e) d e []) as [l|err|] eqn:E.
  - eauto.
  - exfalso. exact (Ht _ _ _ _ E).
  - congruence.
Qed.

(** ** The disabled set *)

Lemma substring_0_10 (s : string) : substring s 0 10 = String.substring 0 10 s.
Proof.
  unfold substring, between, len.
  rewrite (Z.max_l 0 0), (Z.max_l 10 0) by lia.
  rewrite (Z.min_l 0) by lia. rewrite (Z.min_l 0) by lia.
  rewrite Z.max_r by lia. rewrite Z.sub_0_r. cbn [Z.to_nat].
  destruct (Z.le_gt_cases 10 (Z.of_nat (String.length s))) as [Hle | Hgt].
  - rewrite Z.min_l by lia. reflexivity.
  - rewrite Z.min_r by lia. rewrite Nat2Z.id.
    rewrite !substring_0_all by lia. reflexivity.
Qed.

Lemma truthy_iff (s : string) : truthy s = true <-> s <> "".
Proof.
  unfold truthy. rewrite negb_true_iff. apply String.eqb_neq.
Qed.

(** On a string that is not empty, the set that the code builds and the
    prefixes of the date fields agree. *)
Lemma disabled_set_prefixes (l : list DisabledDateRecord) (s : string) :
  s <> "" ->
  s ∈ (list_to_set (filter_Boolean (map disabled_iso l)) : gset string)
  <-> s ∈ disabled_prefixes l.
Proof.
  intros Hs. rewrite elem_of_list_to_set.
  unfold filter_Boolean, disabled_prefixes. rewrite !list_elem_of_omap. split.
  - intros (o & Ho & Hf).
    apply list_elem_of_In, in_map_iff in Ho. destruct Ho as (x & <- & Hx).
    exists x. split; [now apply list_elem_of_In|].
    unfold disabled_iso in Hf. destruct (date x) as [d|]; [|discriminate].
    destruct (truthy d); [|discriminate].
    destruct (truthy (substring d 0 10)); [|discriminate].
    injection Hf as <-. cbn. now rewrite substring_0_10.
  - intros (x & Hx & Hf).
    exists (disabled_iso x). split.
    + apply list_elem_of_In, in_map_iff. exists x. split; [reflexivity|].
      now apply list_elem_of_In.
    + unfold disabled_iso. destruct (date x) as [d|]; [|discriminate].
      cbn in Hf. injection Hf as Hf.
      assert (Hd : truthy d = true).
      { apply truthy_iff. intros ->. apply Hs. rewrite <- Hf. reflexivity. }
      rewrite Hd, substring_0_10, Hf.
      replace (truthy s) with true by (symmetry; now apply truthy_iff).
      reflexivity.
Qed.

Lemma iso_of_day_nonempty (n : Z) : Calendar.iso_of_day n <> "".
Proof.
  unfold Calendar.iso_of_day, Calendar.iso_date. intros E.
  apply (f_equal String.length) in E. rewrite !length_append in E.
  cbn in E. lia.
Qed.

(** ** Order *)

Lemma StronglySorted_filter {A} (R : A -> A -> Prop) (p : A -> bool) (l : list A) :
  StronglySorted R l -> StronglySorted R (List.filter p l).
Proof.
  induction 1 as [|x l Hl IH Hx]; cbn; [constructor|].
  destruct (p x); [|exact IH].
  constructor; [exact IH|].
  apply List.Forall_forall. intros z Hz. apply filter_In in Hz.
  rewrite List.Forall_forall in Hx. apply Hx, Hz.
Qed.

Lemma days_from_to_sorted (a b : Z) : StronglySorted Z.lt (Calendar.days_from_to a b).
Proof.
  unfold Calendar.days_from_to. generalize (Z.to_nat (b - a + 1)) as n.
  generalize 0%nat as s. intros s n. revert s.
  induction n as [|n IH]; intros s; cbn; constructor; [apply IH|].
  apply List.Forall_forall. intros z Hz.
  apply in_map_iff in Hz. destruct Hz as (i & <- & Hi).
  apply in_seq in Hi. lia.
Qed.

Lemma days_from_to_In (a b n : Z) : In n (Calendar.days_from_to a b) <-> a <= n <= b.
Proof.
  unfold Calendar.days_from_to. rewrite in_map_iff. split.
  - intros (i & <- & Hi). apply in_seq in Hi. lia.
  - intros Hn. exists (Z.to_nat (n - a)). split; [lia|]. apply in_seq. lia.
Qed.

Lemma iso_of_day_number (y m d : Z) :
  0 <= y <= 9999 -> Calendar.valid_date y m d ->
  Calendar.in_window (Calendar.day_number y m d)
  /\ Calendar.iso_of_day (Calendar.day_number y m d) = Calendar.iso_date y m d
  /\ parse (Calendar.iso_date y m d +:+ "T00:00:00.000Z")
     = Some (MakeDate (Calendar.day_number y m d) 0).
Proof.
  intros Hy [Hm Hd]. unfold Calendar.day_number.
  assert (Hd' : 1 <= d <= DaysInMonth y (m - 1)).
  { rewrite DaysInMonth_calendar by lia. now replace (m - 1 + 1) with m by lia. }
  destruct (midnight_of_date y (m - 1) d Hy ltac:(lia) Hd')
    as (_ & Ey & Em & Ed & _).
  split; [apply day_number_in_window; lia | split].
  - unfold Calendar.iso_of_day. rewrite Ey, Em, Ed.
    now replace (m - 1 + 1) with m by lia.
  - pose proof (parse_midnight y (m - 1) d Hy ltac:(lia) Hd') as Hp.
    now replace (m - 1 + 1) with m in Hp by lia.
Qed.

(** C2. For a range from one date to another (of the years 0 to 9999)
    and any list of records, [computeAvailableDays] returns the dates of
    the days from the first to the last, both included, that are not among
    the ten-character prefixes of the date fields of the records, in
    ascending order; a record without a date field adds nothing to the
    prefixes and raises nothing. *)
Theorem available_days_are_the_complement
    (disabled : list DisabledDateRecord)
    (y1 m1 d1 y2 m2 d2 : Z) (month year : option Z) :
  0 <= y1 <= 9999 -> Calendar.valid_date y1 m1 d1 ->
  0 <= y2 <= 9999 -> Calendar.valid_date y2 m2 d2 ->
  let range := {| startISO := Calendar.iso_date y1 m1 d1;
                  endISO := Calendar.iso_date y2 m2 d2;
                  displayMonth := month; displayYear := year |} in
  let a := Calendar.day_number y1 m1 d1 in
  let b := Calendar.day_number y2 m2 d2 in
  let days :=
    List.filter
      (fun n => negb (bool_decide (Calendar.iso_of_day n ∈ disabled_prefixes disabled)))
      (Calendar.days_from_to a b) in
  computeAvailableDays disabled range = Ret (map Calendar.iso_of_day days)
  /\ StronglySorted Z.lt days
  /\ (forall n, In n days
                <-> a <= n <= b
                    /\ Calendar.iso_of_day n ∉ disabled_prefixes disabled)
  /\ (forall y m d, 0 <= y <= 9999 -> Calendar.valid_date y m d ->
        Calendar.iso_of_day (Calendar.day_number y m d) = Calendar.iso_date y m d).
Proof.
  intros Hy1 Hv1 Hy2 Hv2 range a b days.
  destruct (iso_of_day_number y1 m1 d1 Hy1 Hv1) as (Hwa & _ & Hpa).
  destruct (iso_of_day_number y2 m2 d2 Hy2 Hv2) as (Hwb & _ & Hpb).
  fold a in Hwa, Hpa. fold b in Hwb, Hpb. unfold Calendar.in_window in Hwa, Hwb.
  split; [|split; [|split]].
  - unfold computeAvailableDays, range. cbn [startISO endISO].
    rewrite Hpa, Hpb, loop_budget_days.
    rewrite (all_dates_loop_run b _ a []) by lia. cbn [app].
    rewrite filter_map_swap. f_equal. f_equal. subst days.
    apply filter_ext_in. intros n _. f_equal.
    apply bool_decide_ext, disabled_set_prefixes, iso_of_day_nonempty.
  - apply StronglySorted_filter, days_from_to_sorted.
  - intros n. subst days. rewrite filter_In, days_from_to_In.
    rewrite negb_true_iff, bool_decide_eq_false. reflexivity.
  - intros y m d Hy Hv. now destruct (iso_of_day_number y m d Hy Hv) as (_ & E & _).
Qed.

(** July 2025 with the first and the fifth day disabled: the other 29
    days, whatever follows the date in the field, and with records that
    have no date. *)
Lemma available_days_are_the_complement_witness :
  computeAvailableDays Fixture.july_disabled_raw Fixture.july_range
  = Ret Fixture.july_available.
Proof.
  assert (Hv1 : Calendar.valid_date 2025 7 1) by (vm_compute; intuition discriminate).
  assert (Hv2 : Calendar.valid_date 2025 7 31) by (vm_compute; intuition discriminate).
  destruct (available_days_are_the_complement Fixture.july_disabled_raw
              2025 7 1 2025 7 31 (Some 7) (Some 2025)
              ltac:(lia) Hv1 ltac:(lia) Hv2) as (Hrun & _).
  refine (eq_trans Hrun _). vm_compute. reflexivity.
Defined.

End AvailableDays.

(* ===================================================================== *)
(** * Numerals read back *)
(* ===================================================================== *)

Module DecimalFacts.
Import JSString Text.

Lemma of_uint_acc_value (l : Decimal.uint) (acc : positive) :
  Z.pos (Pos.of_uint_acc l acc) = uint_value l (Z.pos acc).
Proof.
  revert acc. induction l; intros acc; cbn [Pos.of_uint_acc uint_value];
    try reflexivity; rewrite IHl; f_equal; lia.
Qed.

Lemma of_uint_value (d : Decimal.uint) : Z.of_N (Pos.of_uint d) = uint_value d 0.
Proof.
  induction d; cbn [Pos.of_uint uint_value]; try reflexivity;
    try exact IHd; cbn [Z.of_N]; rewrite of_uint_acc_value; reflexivity.
Qed.

Lemma digits_prefix_uint (d : Decimal.uint) (acc : option Z) :
  digits_prefix (NilEmpty.string_of_uint d) acc
  = match d with
    | Decimal.Nil => acc
    | _ => Some (uint_value d (default 0 acc))
    end.
Proof.
  revert acc. induction d; intros acc; cbn [NilEmpty.string_of_uint digits_prefix];
    try reflexivity;
    match goal with |- context [digit_value ?c] =>
      let v := eval vm_compute in (digit_value c) in
      change (digit_value c) with v end;
    cbn iota; rewrite IHd; destruct d; cbn [default uint_value];
    rewrite ?Z.add_0_r; reflexivity.
Qed.

Lemma parseInt_digit_first (c : ascii) (r : string) (v : Z) :
  digit_value c = Some v -> parseInt (String c r) = digits_prefix (String c r) None.
Proof.
  intros Hv. destruct c as [[] [] [] [] [] [] [] []];
    vm_compute in Hv; try discriminate; reflexivity.
Qed.

Lemma to_uint_value (p : positive) :
  Pos.to_uint p <> Decimal.Nil /\ uint_value (Pos.to_uint p) 0 = Z.pos p.
Proof.
  pose proof (DecimalPos.Unsigned.of_to p) as E.
  split.
  - intros Hn. rewrite Hn in E. discriminate.
  - rewrite <- of_uint_value, E. reflexivity.
Qed.

Lemma digits_of_positive (p : positive) :
  digits_prefix (NilEmpty.string_of_uint (Pos.to_uint p)) None = Some (Z.pos p).
Proof.
  destruct (to_uint_value p) as [Hn Hv]. rewrite digits_prefix_uint.
  destruct (Pos.to_uint p); [contradiction| ..]; cbn [default]; now rewrite Hv.
Qed.

(** Reading back a printed integer. *)
Lemma parseInt_toString (z : Z) : parseInt (Number_toString z) = Some z.
Proof.
  destruct z as [|p|p]; [reflexivity| |].
  - pose proof (digits_of_positive p) as Hd.
    destruct (to_uint_value p) as [Hn _].
    unfold Number_toString. cbn [Z.to_int NilZero.string_of_int].
    unfold NilZero.string_of_uint.
    destruct (Pos.to_uint p) eqn:E; [contradiction| ..];
      cbn [NilEmpty.string_of_uint] in *;
      (erewrite parseInt_digit_first; [exact Hd | reflexivity]).
  - pose proof (digits_of_positive p) as Hd.
    destruct (to_uint_value p) as [Hn _].
    unfold Number_toString. cbn [Z.to_int NilZero.string_of_int].
    unfold NilZero.string_of_uint.
    destruct (Pos.to_uint p) eqn:E; [contradiction| ..];
      unfold parseInt; cbn [skip_white]; change (is_white "-") with false;
      cbn iota; rewrite Hd; reflexivity.
Qed.

Lemma toString_nonempty (z : Z) : truthy (Number_toString z) = true.
Proof.
  destruct z as [|p|p]; [reflexivity| |reflexivity].
  destruct (to_uint_value p) as [Hn _].
  unfold Number_toString. cbn [Z.to_int NilZero.string_of_int].
  unfold NilZero.string_of_uint.
  destruct (Pos.to_uint p); [contradiction| ..]; reflexivity.
Qed.

End DecimalFacts.

(* ===================================================================== *)
(** * The store and the effects of the parts *)
(* ===================================================================== *)

Module Frames.
Import JSString Worker Observed.

Lemma keeps_refl keys w : keeps keys w w.
Proof. intros k _. reflexivity. Qed.

Lemma keeps_trans keys w1 w2 w3 : keeps keys w1 w2 -> keeps keys w2 w3 -> keeps keys w1 w3.
Proof. intros H12 H23 k Hk. rewrite (H23 k Hk). apply (H12 k Hk). Qed.

Lemma keeps_weaken keys keys' w w' :
  (forall k, k ∈ keys -> k ∈ keys') -> keeps keys w w' -> keeps keys' w w'.
Proof. intros Hsub Hk k Hn. apply Hk. intros Hin. apply Hn, Hsub, Hin. Qed.

Lemma keeps_same keys w w' : kv w' = kv w -> keeps keys w w'.
Proof. intros E k _. now rewrite E. Qed.

Lemma keeps_insert keys k v w tr :
  k ∈ keys -> keeps keys w {| kv := <[k := v]> (kv w); trace := tr |}.
Proof.
  intros Hk j Hj. cbn. apply lookup_insert_ne. intros ->. contradiction.
Qed.

Lemma keeps_delete keys k w tr :
  k ∈ keys -> keeps keys w {| kv := delete k (kv w); trace := tr |}.
Proof.
  intros Hk j Hj. cbn. apply lookup_delete_ne. intros ->. contradiction.
Qed.

Section Run.
Variables (H : Host) (R : Remote) (env : Env).

(** [sendTelegram]: the store is never written, one request at most, none
    for an empty text. *)
Lemma sendTelegram_kv (t : string) (w : World) :
  kv (snd (sendTelegram R env t w)) = kv w.
Proof.
  unfold sendTelegram, bind, fetch. destruct (negb (truthy t)); [reflexivity|].
  destruct (telegram_reply R _) as [e | r]; cbn; [reflexivity|].
  destruct (negb (ok r)); reflexivity.
Qed.

Lemma calculateMonthRange_world (o : option Z) (w : World) :
  snd (calculateMonthRange R o w) = {| kv := kv w; trace := EvClock :: trace w |}
  /\ fst (calculateMonthRange R o w) <> Diverge.
Proof.
  unfold calculateMonthRange, bind, now, lift, ret. cbn [fst snd].
  destruct (JSDate.UTC (JSDate.getUTCFullYear _) _ (Some 1)) as [t1|];
    [|split; [reflexivity | discriminate]].
  destruct (JSDate.UTC _ _ (Some 0)) as [t2|]; split; try reflexivity; discriminate.
Qed.

Lemma login_run (w : World) :
  login H R env w
  = match login_reply R (count is_login (trace w)) with
    | Rejected e => (Throw e, asked H env w)
    | Responded r =>
        if ok r then
          match json r with
          | Ret c => (Ret c, logged_in H R env c w)
          | Throw e => (Throw e, asked H env w)
          | Diverge => (Diverge, asked H env w)
          end
        else (Throw (mkError "Error"
                       ("Login failed: " +:+ Number_toString (status r) +:+ " "
                        +:+ text r)), asked H env w)
    end.
Proof.
  unfold login, bind, console, emit, fetch. cbn [fst snd trace kv].
  change (count is_login (EvConsole "Authenticating..." :: trace w))
    with (count is_login (trace w)).
  destruct (login_reply R _) as [e | r]; [reflexivity|].
  destruct (ok r); cbn [negb]; [|reflexivity].
  unfold lift. destruct (json r); reflexivity.
Qed.

Lemma login_throws_keeps_store (w : World) (e : JsError) :
  fst (login H R env w) = Throw e -> kv (snd (login H R env w)) = kv w.
Proof.
  rewrite login_run.
  destruct (login_reply R _) as [e' | r]; [reflexivity|].
  destruct (ok r); [|reflexivity].
  destruct (json r); try reflexivity. discriminate.
Qed.

Lemma login_counts (w : World) :
  count is_login (trace (snd (login H R env w))) = S (count is_login (trace w))
  /\ count is_dates (trace (snd (login H R env w))) = count is_dates (trace w)
  /\ count is_telegram (trace (snd (login H R env w))) = count is_telegram (trace w).
Proof.
  rewrite login_run.
  destruct (login_reply R _) as [e' | r]; [repeat split|].
  destruct (ok r); [|repeat split].
  destruct (json r); repeat split.
Qed.

Lemma login_keeps (keys : list string) (w : World) :
  "Cookie" ∈ keys -> "Last_auth" ∈ keys ->
  keeps keys w (snd (login H R env w)).
Proof.
  intros Hc Ha. rewrite login_run.
  destruct (login_reply R _) as [e' | r]; [now apply keeps_same|].
  destruct (ok r); [|now apply keeps_same].
  destruct (json r); try now apply keeps_same.
  intros k Hk. cbn.
  rewrite !lookup_insert_ne; [reflexivity| |]; intros <-; contradiction.
Qed.

Lemma ensureAuth_cases (w : World) :
  ensureAuth H R env w
  = match kv w !! "Cookie" with
    | Some v =>
        match cookie_of_json H v with
        | Ret (Some c) => (Ret c, w)
        | Ret None => login H R env w
        | Throw e => (Throw e, w)
        | Diverge => (Diverge, w)
        end
    | None => login H R env w
    end.
Proof.
  unfold ensureAuth, bind, KV_get, lift, ret. cbn [fst snd].
  destruct (kv w !! "Cookie") as [v|]; [|reflexivity].
  destruct (cookie_of_json H v) as [[c|]|e|]; reflexivity.
Qed.

Lemma fetch_body_run (self : AuthCookie -> M (list string * MonthRange))
    (c : AuthCookie) (w : World) :
  fetchAvailableDates_body H R env self c w
  = match fst (calculateMonthRange R (month_offset env) w) with
    | Ret range =>
        let w2 := requested H env range c w in
        match dates_reply R (count is_dates (trace w)) with
        | Rejected e => (Throw e, w2)
        | Responded res =>
            if (status res =? 401) || (status res =? 403) then
              match login H R env (forgotten w2) with
              | (Ret c', w5) => self c' w5
              | (Throw e, w5) => (Throw e, w5)
              | (Diverge, w5) => (Diverge, w5)
              end
            else if negb (ok res) then
              (Throw (mkError "Error"
                        ("Dates fetch failed: " +:+ Number_toString (status res))),
               answered H R (Number_toString (status res)) w2)
            else
              match json res with
              | Ret l =>
                  match computeAvailableDays l range with
                  | Ret a => (Ret (a, range), answered H R "200" w2)
                  | Throw e => (Throw e, answered H R "200" w2)
                  | Diverge => (Diverge, answered H R "200" w2)
                  end
              | Throw e => (Throw e, answered H R "200" w2)
              | Diverge => (Diverge, answered H R "200" w2)
              end
        end
    | Throw e => (Throw e, {| kv := kv w; trace := EvClock :: trace w |})
    | Diverge => (Diverge, {| kv := kv w; trace := EvClock :: trace w |})
    end.
Proof.
  unfold fetchAvailableDates_body, bind. fold (month_offset env).
  destruct (calculateMonthRange_world (month_offset env) w) as [Hw _].
  destruct (calculateMonthRange R (month_offset env) w) as [[range|e|] w1];
    cbn [fst snd] in *; subst w1; try reflexivity.
  cbv zeta. unfold fetch. cbn [trace kv].
  change (count is_dates (EvClock :: trace w)) with (count is_dates (trace w)).
  destruct (dates_reply R _) as [e | res]; [reflexivity|].
  destruct ((status res =? 401) || (status res =? 403)); [reflexivity|].
  destruct (negb (ok res)); [reflexivity|].
  destruct (json res) as [l|e|]; reflexivity.
Qed.

Lemma requested_counts range c w :
  count is_dates (trace (forgotten (requested H env range c w)))
  = S (count is_dates (trace w))
  /\ count is_login (trace (forgotten (requested H env range c w)))
     = count is_login (trace w).
Proof. split; reflexivity. Qed.

Lemma fetch_keeps (fuel : nat) (c : AuthCookie) (w : World) :
  keeps ["Cookie"; "Last_auth"; "Last"] w
    (snd (fetchAvailableDates H R env fuel c w)).
Proof.
  revert c w. induction fuel as [|fuel IH]; intros c w; [apply keeps_refl|].
  change (fetchAvailableDates H R env (S fuel))
    with (fetchAvailableDates_body H R env (fetchAvailableDates H R env fuel)).
  rewrite fetch_body_run.
  destruct (fst (calculateMonthRange R (month_offset env) w)) as [range|e|];
    try now apply keeps_same.
  cbv zeta.
  destruct (dates_reply R _) as [e | res]; [now apply keeps_same|].
  destruct ((status res =? 401) || (status res =? 403)).
  - assert (Hl : keeps ["Cookie"; "Last_auth"; "Last"] w
                   (snd (login H R env (forgotten (requested H env range c w))))).
    { apply (keeps_trans _ _ (forgotten (requested H env range c w))).
      - apply (keeps_delete _ "Cookie" w). repeat constructor.
      - apply login_keeps; repeat constructor. }
    destruct (login H R env (forgotten (requested H env range c w)))
      as [[c'|e|] w5]; try exact Hl.
    eapply keeps_trans; [exact Hl | apply IH].
  - assert (Ha : forall st, keeps ["Cookie"; "Last_auth"; "Last"] w
                              (answered H R st (requested H env range c w))).
    { intros st. apply (keeps_insert _ "Last" _ w). repeat constructor. }
    destruct (negb (ok res)); [apply Ha|].
    destruct (json res) as [l|e|]; try apply Ha.
    destruct (computeAvailableDays l range); apply Ha.
Qed.

End Run.
End Frames.

(* ===================================================================== *)
(** * Authentication *)
(* ===================================================================== *)

Module Authentication.
Import JSString Worker Observed Frames.

(** X2. An authentication that fails leaves the store as it was: the
    credential and the time of the login are written only after the login
    endpoint answered with a success and its body was read. *)
Theorem failed_authentication_keeps_store (H : Host) (R : Remote) (env : Env)
    (w : World) (e : JsError) :
  fst (ensureAuth H R env w) = Throw e ->
  kv (snd (ensureAuth H R env w)) = kv w.
Proof.
  rewrite ensureAuth_cases.
  destruct (kv w !! "Cookie") as [v|]; [|apply login_throws_keeps_store].
  destruct (cookie_of_json H v) as [[c|]|e'|]; try reflexivity.
  apply login_throws_keeps_store.
Qed.

Lemma failed_authentication_keeps_store_witness :
  kv (snd (ensureAuth Fixture.host Fixture.remote_login_down Fixture.env
             Fixture.failing_twice))
  = kv Fixture.failing_twice.
Proof.
  apply (failed_authentication_keeps_store Fixture.host Fixture.remote_login_down
           Fixture.env Fixture.failing_twice
           (mkError "Error" "Login failed: 503 busy")).
  reflexivity.
Defined.

(** X1. A credential obtained by [login] is stored under "Cookie", and the
    next [ensureAuth] returns it from the store without a request and
    without any effect, provided the host reads the stored text back as
    the credential. *)
Theorem login_caches_credential (H : Host) (R : Remote) (env : Env)
    (w w1 : World) (c : AuthCookie) :
  login H R env w = (Ret c, w1) ->
  cookie_of_json H (cookie_json c) = Ret (Some c) ->
  kv w1 !! "Cookie" = Some (cookie_json c)
  /\ ensureAuth H R env w1 = (Ret c, w1)
  /\ count is_login (trace w1) = S (count is_login (trace w)).
Proof.
  intros Hl Hj. pose proof (login_counts H R env w) as (Hc & _).
  rewrite Hl in Hc. cbn [snd] in Hc.
  assert (Hk : kv w1 !! "Cookie" = Some (cookie_json c)).
  { rewrite login_run in Hl.
    destruct (login_reply R _) as [e | r]; [discriminate|].
    destruct (ok r); [|discriminate].
    destruct (json r) as [c'|e|]; try discriminate.
    injection Hl as -> <-. cbn.
    rewrite lookup_insert_ne by done. apply lookup_insert_eq. }
  split; [exact Hk | split; [|exact Hc]].
  rewrite ensureAuth_cases, Hk, Hj. reflexivity.
Qed.

Lemma login_caches_credential_witness :
  let w1 := snd (login Scenario.host_json Fixture.remote_ok Fixture.env
                   Fixture.empty_world) in
  kv w1 !! "Cookie" = Some "{T}"
  /\ ensureAuth Scenario.host_json Fixture.remote_ok Fixture.env w1
     = (Ret Fixture.credential, w1)
  /\ count is_login (trace w1) = 1%nat.
Proof.
  exact (login_caches_credential Scenario.host_json Fixture.remote_ok Fixture.env
           Fixture.empty_world _ Fixture.credential eq_refl eq_refl).
Defined.

End Authentication.

(* ===================================================================== *)
(** * The fetch and its retry *)
(* ===================================================================== *)

Module Fetching.
Import JSString Worker Observed Frames.

Lemma login_ends (H : Host) (R : Remote) (env : Env) (w : World) :
  responsive R -> fst (login H R env w) <> Diverge.
Proof.
  intros [Hl _]. rewrite login_run.
  destruct (login_reply R _) as [e | r] eqn:Er; [discriminate|].
  destruct (ok r); [|discriminate].
  pose proof (Hl _ _ Er) as Hj.
  destruct (json r); try discriminate. contradiction.
Qed.

(** X6. The retry ends as soon as the availability endpoint gives an answer
    that is not a refusal: if one of the next [fuel] answers is no 401/403,
    the recursion of [fetchAvailableDates] ends within the depth [fuel],
    with a result or with an exception. *)
Theorem retry_ends_when_answered (H : Host) (R : Remote) (env : Env)
    (fuel k : nat) (c : AuthCookie) (w : World) :
  responsive R ->
  (k < fuel)%nat ->
  is_refusal (dates_reply R (count is_dates (trace w) + k)) = false ->
  fst (fetchAvailableDates H R env fuel c w) <> Diverge.
Proof.
  intros Hresp. revert k c w.
  induction fuel as [|fuel IH]; intros k c w Hk Hrep; [lia|].
  change (fetchAvailableDates H R env (S fuel))
    with (fetchAvailableDates_body H R env (fetchAvailableDates H R env fuel)).
  rewrite fetch_body_run.
  destruct (calculateMonthRange_world R (month_offset env) w) as [_ Hcal].
  destruct (fst (calculateMonthRange R (month_offset env) w)) as [range|e|];
    [|discriminate|contradiction].
  cbv zeta.
  destruct (dates_reply R (count is_dates (trace w))) as [e | res] eqn:Erep;
    [discriminate|].
  destruct ((status res =? 401) || (status res =? 403)) eqn:Et.
  - destruct k as [|k].
    { rewrite Nat.add_0_r, Erep in Hrep. cbn in Hrep. congruence. }
    pose proof (login_ends H R env (forgotten (requested H env range c w)) Hresp)
      as Hle.
    pose proof (login_counts H R env (forgotten (requested H env range c w)))
      as (_ & Hd & _).
    destruct (login H R env (forgotten (requested H env range c w)))
      as [[c'|e|] w5]; [|discriminate|exfalso; apply Hle; reflexivity].
    cbn [snd] in Hd. apply (IH k); [lia|].
    rewrite Hd. destruct (requested_counts H env range c w) as [-> _].
    now replace (S (count is_dates (trace w)) + k)%nat
      with (count is_dates (trace w) + S k)%nat by lia.
  - destruct (negb (ok res)); [discriminate|].
    destruct Hresp as [_ Hj]. pose proof (Hj _ _ Erep) as Hjson.
    destruct (json res) as [l|e|]; [|discriminate|contradiction].
    destruct (AvailableDays.computeAvailableDays_returns l range) as [a ->].
    discriminate.
Qed.

Lemma retry_ends_when_answered_witness :
  fst (fetchAvailableDates Fixture.host Fixture.remote_refusing_twice Fixture.env 3
         Fixture.credential Fixture.empty_world) <> Diverge.
Proof.
  apply (retry_ends_when_answered Fixture.host Fixture.remote_refusing_twice
           Fixture.env 3 2).
  - split.
    + intros n r E. unfold Fixture.remote_refusing_twice, Fixture.response in E.
      cbn [login_reply] in E. injection E as <-. discriminate.
    + intros n r E. unfold Fixture.remote_refusing_twice, Fixture.response in E.
      cbn [dates_reply] in E.
      destruct (n <? 2)%nat; injection E as <-; discriminate.
  - lia.
  - reflexivity.
Defined.

(** X7. Every availability request after the first follows a login of its
    own: in any run of [fetchAvailableDates] the logins are as many as the
    requests or one less, and the requests are at most the depth of the
    recursion. *)
Theorem one_login_per_retry (H : Host) (R : Remote) (env : Env)
    (fuel : nat) (c : AuthCookie) (w : World) :
  let w' := snd (fetchAvailableDates H R env fuel c w) in
  exists d l : nat,
    count is_dates (trace w') = (count is_dates (trace w) + d)%nat
    /\ count is_login (trace w') = (count is_login (trace w) + l)%nat
    /\ (l <= d <= l + 1)%nat /\ (d <= fuel)%nat.
Proof.
  revert c w. induction fuel as [|fuel IH]; intros c w.
  { exists 0%nat, 0%nat. cbn. repeat split; lia. }
  change (fetchAvailableDates H R env (S fuel))
    with (fetchAvailableDates_body H R env (fetchAvailableDates H R env fuel)).
  rewrite fetch_body_run.
  destruct (fst (calculateMonthRange R (month_offset env) w)) as [range|e|];
    try (exists 0%nat, 0%nat; cbn; unfold count; cbn; repeat split; lia).
  cbv zeta.
  assert (Hone : forall st,
             let w' := answered H R st (requested H env range c w) in
             exists d l : nat,
               count is_dates (trace w') = (count is_dates (trace w) + d)%nat
               /\ count is_login (trace w') = (count is_login (trace w) + l)%nat
               /\ (l <= d <= l + 1)%nat /\ (d <= S fuel)%nat).
  { intros st. exists 1%nat, 0%nat. cbn. unfold count. cbn. repeat split; lia. }
  destruct (dates_reply R (count is_dates (trace w))) as [e | res].
  { exists 1%nat, 0%nat. cbn. unfold count. cbn. repeat split; lia. }
  destruct ((status res =? 401) || (status res =? 403)).
  - pose proof (login_counts H R env (forgotten (requested H env range c w)))
      as (Hl & Hd & _).
    destruct (requested_counts H env range c w) as [Ed El].
    rewrite Ed in Hd. rewrite El in Hl.
    destruct (login H R env (forgotten (requested H env range c w)))
      as [[c'|e|] w5]; cbn [snd] in *;
      try (exists 1%nat, 1%nat; repeat split; lia).
    destruct (IH c' w5) as (d & l & Hd' & Hl' & Hb & Hf).
    cbv zeta in Hd', Hl'.
    exists (S d), (S l). repeat split; lia.
  - destruct (negb (ok res)); [apply Hone|].
    destruct (json res) as [l|e|]; try apply Hone.
    destruct (computeAvailableDays l range); apply Hone.
Qed.

(** X4. An answer of the availability endpoint other than 401 and 403 ends
    the fetch with this one request and no login, and "Last" records it
    with the time of the second clock reading: "200" for a success, the
    status otherwise.  A status outside 200..299 is raised as
    "Dates fetch failed: <status>"; a success whose body is not JSON is
    raised as the parser's exception, after "Last" was set to "200". *)
Theorem answer_is_recorded (H : Host) (R : Remote) (env : Env) (fuel : nat)
    (c : AuthCookie) (w : World) (range : MonthRange)
    (res : Response (list DisabledDateRecord)) :
  fst (calculateMonthRange R (month_offset env) w) = Ret range ->
  dates_reply R (count is_dates (trace w)) = Responded res ->
  status res <> 401 -> status res <> 403 ->
  let run := fetchAvailableDates H R env (S fuel) c w in
  let ts := toLocaleString H (clock R (S (count is_clock (trace w)))) in
  kv (snd run)
  = <["Last" := (if ok res then "200" else Number_toString (status res))
                +:+ ":" +:+ ts]> (kv w)
  /\ (ok res = false ->
      fst run = Throw (mkError "Error"
                         ("Dates fetch failed: " +:+ Number_toString (status res))))
  /\ (ok res = true -> forall e, json res = Throw e -> fst run = Throw e)
  /\ count is_dates (trace (snd run)) = S (count is_dates (trace w))
  /\ count is_login (trace (snd run)) = count is_login (trace w).
Proof.
  intros Hrange Hrep H401 H403 run ts. subst run ts.
  change (fetchAvailableDates H R env (S fuel))
    with (fetchAvailableDates_body H R env (fetchAvailableDates H R env fuel)).
  rewrite fetch_body_run, Hrange. cbv zeta. rewrite Hrep.
  replace ((status res =? 401) || (status res =? 403)) with false
    by (symmetry; apply orb_false_iff; split; apply Z.eqb_neq; assumption).
  destruct (ok res); cbn [negb].
  - destruct (json res) as [l|e|].
    + destruct (computeAvailableDays l range); repeat split; try discriminate.
    + repeat split; try discriminate. intros _ e' [= ->]. reflexivity.
    + repeat split; discriminate.
  - repeat split; discriminate.
Qed.

Lemma answer_is_recorded_witness :
  let run := fetchAvailableDates Fixture.host Scenario.remote_dates_500 Fixture.env 1
               Fixture.credential Fixture.empty_world in
  kv (snd run) !! "Last" = Some "500:1752000000123"
  /\ fst run = Throw (mkError "Error" "Dates fetch failed: 500").
Proof.
  destruct (answer_is_recorded Fixture.host Scenario.remote_dates_500 Fixture.env 0
              Fixture.credential Fixture.empty_world Fixture.july_range
              {| status := 500; text := "oops";
                 json := Throw (mkError "SyntaxError" "bad") |}
              eq_refl eq_refl ltac:(discriminate) ltac:(discriminate))
    as (Hkv & Hthrow & _).
  cbv zeta in *. split.
  - rewrite Hkv. reflexivity.
  - apply Hthrow. reflexivity.
Defined.

(** X5. When the availability endpoint refuses the credential and the
    login that follows fails (the request is rejected, or the answer is not
    a success), the fetch raises the failure of the login and the store is
    left without a "Cookie", so that the next cycle logs in again; nothing
    else of the store is changed. *)
Theorem failed_relogin_leaves_no_cookie (H : Host) (R : Remote) (env : Env)
    (fuel : nat) (c : AuthCookie) (w : World) (range : MonthRange)
    (res : Response (list DisabledDateRecord)) (rep : Reply AuthCookie) :
  fst (calculateMonthRange R (month_offset env) w) = Ret range ->
  dates_reply R (count is_dates (trace w)) = Responded res ->
  status res = 401 \/ status res = 403 ->
  login_reply R (count is_login (trace w)) = rep ->
  match rep with Rejected _ => True | Responded r => ok r = false end ->
  let run := fetchAvailableDates H R env (S fuel) c w in
  fst run
  = Throw (match rep with
           | Rejected e => e
           | Responded r =>
               mkError "Error" ("Login failed: " +:+ Number_toString (status r)
                                +:+ " " +:+ text r)
           end)
  /\ kv (snd run) = delete "Cookie" (kv w)
  /\ fst (ensureAuth H R env (snd run)) = fst (login H R env (snd run)).
Proof.
  intros Hrange Hrep Hst Hlog Hfail run. subst run.
  change (fetchAvailableDates H R env (S fuel))
    with (fetchAvailableDates_body H R env (fetchAvailableDates H R env fuel)).
  rewrite fetch_body_run, Hrange. cbv zeta. rewrite Hrep.
  replace ((status res =? 401) || (status res =? 403)) with true
    by (symmetry; apply orb_true_iff; rewrite !Z.eqb_eq; exact Hst).
  rewrite login_run.
  destruct (requested_counts H env range c w) as [_ ->]. rewrite Hlog.
  assert (Hauth : forall w0, kv w0 = delete "Cookie" (kv w) ->
                             fst (ensureAuth H R env w0) = fst (login H R env w0)).
  { intros w0 E. rewrite ensureAuth_cases, E, lookup_delete_eq. reflexivity. }
  destruct rep as [e | r].
  - repeat split. apply Hauth. reflexivity.
  - rewrite Hfail. repeat split. apply Hauth. reflexivity.
Qed.

Lemma failed_relogin_leaves_no_cookie_witness :
  let run := fetchAvailableDates Fixture.host Scenario.remote_expired_login_down
               Fixture.env 1 Fixture.credential Fixture.failing_twice in
  fst run = Throw (mkError "Error" "Login failed: 503 busy")
  /\ kv (snd run) !! "Cookie" = None.
Proof.
  destruct (failed_relogin_leaves_no_cookie Fixture.host
              Scenario.remote_expired_login_down Fixture.env 0 Fixture.credential
              Fixture.failing_twice Fixture.july_range
              {| status := 403; text := ""; json := Ret [] |}
              (Responded {| status := 503; text := "busy";
                            json := Ret Fixture.credential |})
              eq_refl eq_refl (or_intror eq_refl) eq_refl eq_refl)
    as (Hthrow & Hkv & _).
  cbv zeta in *. split.
  - exact Hthrow.
  - rewrite Hkv. apply lookup_delete_eq.
Defined.

End Fetching.

(* ===================================================================== *)
(** * The parameters of the request *)
(* ===================================================================== *)

Module UrlFacts.
Import JSString JSStringFacts JSDateFacts Worker Text DecimalFacts.

Lemma dashless_cons c s :
  dashless (String c s) = negb (Ascii.eqb c "-") && dashless s.
Proof. reflexivity. Qed.

Lemma dashless_app a b : dashless (a +:+ b) = dashless a && dashless b.
Proof.
  induction a as [|c a IH]; [reflexivity|].
  rewrite append_cons, !dashless_cons, IH. now rewrite andb_assoc.
Qed.

Lemma digit_char_range (d : Z) :
  0 <= d <= 9 -> negb (Ascii.eqb (digit_char d) "-") = true.
Proof.
  intros Hd.
  assert (Hc : d = 0 \/ d = 1 \/ d = 2 \/ d = 3 \/ d = 4 \/ d = 5 \/ d = 6
               \/ d = 7 \/ d = 8 \/ d = 9) by lia.
  repeat destruct Hc as [-> | Hc]; try subst d; reflexivity.
Qed.

Lemma dashless_digitsN (n : nat) (z : Z) : dashless (digitsN n z) = true.
Proof.
  revert z. induction n as [|n IH]; intros z; [reflexivity|].
  cbn [digitsN]. rewrite dashless_app, IH, dashless_cons.
  rewrite digit_char_range by zdiv. reflexivity.
Qed.

Lemma append_snoc (cur : string) (c : ascii) (s : string) :
  (cur +:+ String c "") +:+ s = cur +:+ String c s.
Proof. now rewrite append_assoc. Qed.

Lemma append_nil_r (s : string) : s +:+ "" = s.
Proof. induction s as [|c s IH]; [reflexivity|]. rewrite append_cons. now f_equal. Qed.

Lemma split_dash_last (s cur : string) :
  dashless s = true -> split_dash s cur = [cur +:+ s].
Proof.
  revert cur. induction s as [|c s IH]; intros cur Hs.
  - cbn. now rewrite append_nil_r.
  - rewrite dashless_cons in Hs. apply andb_true_iff in Hs as [Hc Hs].
    cbn [split_dash]. apply negb_true_iff in Hc. rewrite Hc.
    rewrite IH by assumption. now rewrite append_snoc.
Qed.

Lemma split_dash_segment (s rest cur : string) :
  dashless s = true ->
  split_dash (s +:+ String "-" rest) cur = (cur +:+ s) :: split_dash rest "".
Proof.
  revert cur. induction s as [|c s IH]; intros cur Hs.
  - cbn. now rewrite append_nil_r.
  - rewrite dashless_cons in Hs. apply andb_true_iff in Hs as [Hc Hs].
    rewrite append_cons. cbn [split_dash]. apply negb_true_iff in Hc. rewrite Hc.
    rewrite IH by assumption. now rewrite append_snoc.
Qed.

(** Three parts without a dash. *)
Lemma toDDMMYYYY_three (a b c : string) :
  dashless a = true -> dashless b = true -> dashless c = true ->
  toDDMMYYYY (a +:+ "-" +:+ b +:+ "-" +:+ c) = c +:+ "/" +:+ b +:+ "/" +:+ a.
Proof.
  intros Ha Hb Hc. unfold toDDMMYYYY.
  change ("-" +:+ b +:+ "-" +:+ c) with (String "-" (b +:+ String "-" c)).
  rewrite (split_dash_segment a _ "" Ha), (split_dash_segment b _ "" Hb).
  rewrite (split_dash_last c "" Hc). reflexivity.
Qed.

(** X19. [toDDMMYYYY] turns the three parts of a text around: for parts
    without a dash, "a-b-c" becomes "c/b/a", whatever follows a fourth
    dash is dropped, and a text without any dash gives "undefined" for the
    day and for the month. *)
Theorem toDDMMYYYY_turns_the_parts (a b c : string) :
  dashless a = true -> dashless b = true -> dashless c = true ->
  toDDMMYYYY (a +:+ "-" +:+ b +:+ "-" +:+ c) = c +:+ "/" +:+ b +:+ "/" +:+ a
  /\ (forall rest, toDDMMYYYY (a +:+ "-" +:+ b +:+ "-" +:+ c +:+ "-" +:+ rest)
                   = c +:+ "/" +:+ b +:+ "/" +:+ a)
  /\ toDDMMYYYY a = "undefined/undefined/" +:+ a.
Proof.
  intros Ha Hb Hc. split; [now apply toDDMMYYYY_three|].
  unfold toDDMMYYYY. split.
  - intros rest.
    change ("-" +:+ b +:+ "-" +:+ c +:+ "-" +:+ rest)
      with (String "-" (b +:+ String "-" (c +:+ String "-" rest))).
    rewrite (split_dash_segment a _ "" Ha), (split_dash_segment b _ "" Hb).
    rewrite (split_dash_segment c _ "" Hc). reflexivity.
  - rewrite (split_dash_last a "" Ha). reflexivity.
Qed.

Lemma toDDMMYYYY_turns_the_parts_witness :
  toDDMMYYYY "2025-07-31" = "31/07/2025".
Proof.
  exact (proj1 (toDDMMYYYY_turns_the_parts "2025" "07" "31" eq_refl eq_refl eq_refl)).
Defined.

(** The parameter of the request for a date of the years 0 to 9999. *)
Lemma toDDMMYYYY_of_date (y m d : Z) :
  0 <= y <= 9999 ->
  toDDMMYYYY (Calendar.iso_date y m d)
  = digitsN 2 d +:+ "/" +:+ digitsN 2 m +:+ "/" +:+ digitsN 4 y.
Proof.
  intros Hy. unfold Calendar.iso_date, JSDate.year_string.
  replace ((0 <=? y) && (y <=? 9999)) with true
    by (symmetry; apply andb_true_iff; split; apply Z.leb_le; lia).
  apply toDDMMYYYY_three; apply dashless_digitsN.
Qed.

(** A text of one character is read by [parseInt] as a digit, or not at
    all. *)
Lemma parseInt_one_char (c : ascii) (n : Z) :
  parseInt (String c "") = Some n -> 0 <= n <= 9.
Proof.
  destruct c as [[] [] [] [] [] [] [] []]; vm_compute; intros E;
    try discriminate; injection E as <-; split; discriminate.
Qed.

Lemma toString_two_chars (n : Z) :
  n < 0 \/ 10 <= n -> 2 <= len (Number_toString n).
Proof.
  intros Hn. pose proof (parseInt_toString n) as Hp.
  unfold len. destruct (Number_toString n) as [|c [|c' s]].
  - discriminate.
  - apply parseInt_one_char in Hp. lia.
  - cbn [String.length]. lia.
Qed.

Lemma pad2_two_digits_nat (k : nat) :
  (k < 100)%nat -> pad2 (Some (Z.of_nat k)) = digitsN 2 (Z.of_nat k).
Proof.
  intros Hk.
  assert (Hall : forallb (fun k => String.eqb (pad2 (Some (Z.of_nat k)))
                                     (digitsN 2 (Z.of_nat k))) (seq 0 100) = true)
    by (vm_compute; reflexivity).
  rewrite forallb_forall in Hall. apply String.eqb_eq, Hall, in_seq. lia.
Qed.

(** X20. [pad2] gives the two decimal digits of an integer from 0 to 99
    (with a leading zero below 10) and leaves the decimal form of every
    other integer of magnitude below 2^53 as it is: nothing is cut, and a
    negative number is not padded.  Not-a-number is printed as "NaN". *)
Theorem pad2_pads_to_two_digits (n : Z) :
  (0 <= n <= 99 -> pad2 (Some n) = digitsN 2 n)
  /\ (- 9007199254740992 < n < 0 \/ 100 <= n < 9007199254740992 ->
      pad2 (Some n) = Number_toString n)
  /\ pad2 None = "NaN".
Proof.
  split; [|split; [|reflexivity]].
  - intros Hn. rewrite <- (Z2Nat.id n) by lia. apply pad2_two_digits_nat. lia.
  - intros Hn. unfold pad2, padStart. cbn [number_toString].
    pose proof (toString_two_chars n ltac:(lia)) as Hl.
    replace (2 <=? len (Number_toString n)) with true
      by (symmetry; apply Z.leb_le; exact Hl).
    reflexivity.
Qed.

End UrlFacts.

(* ===================================================================== *)
(** * The failure counter *)
(* ===================================================================== *)

Module CounterFacts.
Import JSString JSStringFacts Worker Observed Frames DecimalFacts.

Section Run.
Variables (R : Remote) (env : Env).

Lemma next_fail_count_read (w : World) :
  next_fail_count w = option_map (fun p => p + 1) (fail_count_read w).
Proof. reflexivity. Qed.

(** The store after a failure was recorded. *)
Lemma recordFailure_kv (err : JsError) (w : World) :
  kv (snd (recordFailureAndMaybeNotify R env err w))
  = <["last_error_msg" := err_message err]>
      (<["fail_count" := number_toString (next_fail_count w)]> (kv w)).
Proof.
  destruct (decide (kv w !! "last_error_msg" = Some (err_message err))) as [He | Hne].
  - rewrite FailureTracker.recordFailure_same_message by assumption.
    assert (E : kv (counted w)
                = <["last_error_msg" := err_message err]>
                    (<["fail_count" := number_toString (next_fail_count w)]> (kv w))).
    { unfold counted. cbn [kv]. symmetry. apply insert_id.
      now rewrite lookup_insert_ne by done. }
    destruct (next_fail_count w) as [c|] eqn:Ec; [|exact E].
    destruct (_ || _); [|exact E].
    rewrite sendTelegram_kv. exact E.
  - rewrite FailureTracker.recordFailure_new_message by assumption.
    rewrite sendTelegram_kv. reflexivity.
Qed.

Lemma recordFailure_count (err : JsError) (w : World) :
  kv (snd (recordFailureAndMaybeNotify R env err w)) !! "fail_count"
  = Some (number_toString (next_fail_count w)).
Proof.
  rewrite recordFailure_kv, lookup_insert_ne by done. apply lookup_insert_eq.
Qed.

Lemma recordFailure_message (err : JsError) (w : World) :
  kv (snd (recordFailureAndMaybeNotify R env err w)) !! "last_error_msg"
  = Some (err_message err).
Proof. rewrite recordFailure_kv. apply lookup_insert_eq. Qed.

Lemma recordFailure_keeps (err : JsError) (w : World) :
  keeps ["fail_count"; "last_error_msg"] w
    (snd (recordFailureAndMaybeNotify R env err w)).
Proof.
  intros k Hk. rewrite recordFailure_kv.
  rewrite !lookup_insert_ne; [reflexivity| |]; intros <-; apply Hk;
    repeat constructor.
Qed.

(** The count that the next failure reads is the count that this one
    wrote. *)
Lemma fail_count_read_next (err : JsError) (w : World) :
  fail_count_read (snd (recordFailureAndMaybeNotify R env err w))
  = option_map (fun p => p + 1) (fail_count_read w).
Proof.
  unfold fail_count_read at 1. rewrite recordFailure_count, next_fail_count_read.
  destruct (fail_count_read w) as [n|]; cbn [option_map number_toString or_default].
  - rewrite toString_nonempty. apply parseInt_toString.
  - reflexivity.
Qed.

Lemma failures_snoc (errs : list JsError) (e : JsError) (w : World) :
  failures R env (errs ++ [e]) w
  = snd (recordFailureAndMaybeNotify R env e (failures R env errs w)).
Proof. unfold failures. now rewrite fold_left_app. Qed.

Lemma fail_count_read_failures (errs : list JsError) (w : World) :
  fail_count_read (failures R env errs w)
  = option_map (fun p => p + Z.of_nat (length errs)) (fail_count_read w).
Proof.
  revert w. induction errs as [|e errs IH]; intros w.
  - cbn. destruct (fail_count_read w); cbn; [f_equal; lia | reflexivity].
  - change (failures R env (e :: errs) w)
      with (failures R env errs (snd (recordFailureAndMaybeNotify R env e w))).
    rewrite IH, fail_count_read_next.
    destruct (fail_count_read w); cbn [option_map length]; [f_equal; lia | reflexivity].
Qed.

(** What a recorded failure sends. *)
Lemma recordFailure_telegrams (err : JsError) (w : World) :
  telegrams (snd (recordFailureAndMaybeNotify R env err w))
  = if bool_decide (kv w !! "last_error_msg" = Some (err_message err)) then
      match next_fail_count w with
      | Some c =>
          if (c =? 3) || (c =? 5) || (Z.rem c 10 =? 0)
          then still_failing_text (err_message err) c :: telegrams w
          else telegrams w
      | None => telegrams w
      end
    else error_text (err_message err) (next_fail_count w) :: telegrams w.
Proof.
  destruct (decide (kv w !! "last_error_msg" = Some (err_message err))) as [He | Hne].
  - rewrite bool_decide_eq_true_2 by assumption.
    rewrite FailureTracker.recordFailure_same_message by assumption.
    destruct (next_fail_count w) as [c|]; [|reflexivity].
    destruct (_ || _); [|reflexivity].
    now destruct (FailureTracker.sendTelegram_run R env _ (counted w)
                    (FailureTracker.still_failing_text_truthy (err_message err) c)).
  - rewrite bool_decide_eq_false_2 by assumption.
    rewrite FailureTracker.recordFailure_new_message by assumption.
    match goal with |- context [sendTelegram R env ?t ?w0] =>
      now destruct (FailureTracker.sendTelegram_run R env t w0
                      (FailureTracker.error_text_truthy _ _))
    end.
Qed.

Lemma notifications_due_succ (k : nat) :
  (1 <= k)%nat ->
  notifications_due (S k)
  = (notifications_due k
     + if ((Z.of_nat (S k) =? 3) || (Z.of_nat (S k) =? 5)
           || (Z.rem (Z.of_nat (S k)) 10 =? 0))%Z then 1 else 0)%nat.
Proof.
  intros Hk. unfold notifications_due.
  rewrite Z.rem_mod_nonneg by lia.
  assert (Hd : (S k / 10 = k / 10 + if (Z.of_nat (S k) mod 10 =? 0)%Z then 1 else 0)%nat).
  { pose proof (Nat.div_mod_eq (S k) 10) as E1.
    pose proof (Nat.div_mod_eq k 10) as E2.
    pose proof (Nat.mod_upper_bound (S k) 10 ltac:(discriminate)) as B1.
    pose proof (Nat.mod_upper_bound k 10 ltac:(discriminate)) as B2.
    change 10 with (Z.of_nat 10). rewrite <- Nat2Z.inj_mod.
    destruct (Z.eqb_spec (Z.of_nat (S k mod 10)) 0) as [E | E]; lia. }
  rewrite Hd.
  destruct (Nat.leb_spec 1 (S k)), (Nat.leb_spec 3 (S k)), (Nat.leb_spec 5 (S k)),
    (Nat.leb_spec 1 k), (Nat.leb_spec 3 k), (Nat.leb_spec 5 k),
    (Z.eqb_spec (Z.of_nat (S k)) 3), (Z.eqb_spec (Z.of_nat (S k)) 5),
    (Z.eqb_spec (Z.of_nat (S k) mod 10) 0); cbn [orb]; try lia.
  all: try (exfalso; Z.to_euclidean_division_equations; lia).
  all: try (Z.to_euclidean_division_equations; lia).
Qed.

Lemma repeated_failures (msg : string) (errs : list JsError) (w : World) (k : nat) :
  (1 <= k)%nat ->
  kv w !! "fail_count" = Some (Number_toString (Z.of_nat k)) ->
  kv w !! "last_error_msg" = Some msg ->
  List.Forall (fun e => err_message e = msg) errs ->
  (length (telegrams (failures R env errs w)) + notifications_due k
   = length (telegrams w) + notifications_due (k + length errs))%nat.
Proof.
  intros Hk Hc Hm Hall. revert w k Hk Hc Hm.
  induction Hall as [|e errs He Hall IH]; intros w k Hk Hc Hm.
  - cbn. now rewrite Nat.add_0_r.
  - change (failures R env (e :: errs) w)
      with (failures R env errs (snd (recordFailureAndMaybeNotify R env e w))).
    assert (Hn : next_fail_count w = Some (Z.of_nat (S k))).
    { unfold next_fail_count. rewrite Hc. cbn [or_default].
      rewrite toString_nonempty, parseInt_toString. cbn. f_equal. lia. }
    pose proof (recordFailure_count e w) as Hc1.
    pose proof (recordFailure_message e w) as Hm1.
    pose proof (recordFailure_telegrams e w) as Ht.
    rewrite Hn in Hc1, Ht. rewrite He in Hm1, Ht.
    rewrite bool_decide_eq_true_2 in Ht by assumption.
    specialize (IH _ (S k) ltac:(lia) Hc1 Hm1).
    cbn [length]. replace (k + S (length errs))%nat with (S k + length errs)%nat by lia.
    rewrite notifications_due_succ in IH by assumption.
    destruct ((Z.of_nat (S k) =? 3) || (Z.of_nat (S k) =? 5)
              || (Z.rem (Z.of_nat (S k)) 10 =? 0));
      rewrite Ht in IH; cbn [length] in IH; lia.
Qed.

End Run.

(** X13. Failures recorded one after the other are counted one by one.
    With a stored count that is the decimal form of a number [n] from 0 on
    (or absent or empty, for [n] = 0) and the new count below 2^53, where
    the numbers of the host are exact, the count stored after one or more
    failures is [n] plus their number.  A stored count "NaN" stays
    "NaN". *)
Theorem consecutive_failures_are_counted (R : Remote) (env : Env)
    (e : JsError) (errs : list JsError) (w : World) :
  (forall n,
      0 <= n -> n + Z.of_nat (length (errs ++ [e])) < 9007199254740992 ->
      kv w !! "fail_count" = Some (Number_toString n)
      \/ (n = 0 /\ (kv w !! "fail_count" = None \/ kv w !! "fail_count" = Some "")) ->
      kv (failures R env (errs ++ [e]) w) !! "fail_count"
      = Some (Number_toString (n + Z.of_nat (length (errs ++ [e])))))
  /\ (kv w !! "fail_count" = Some "NaN" ->
      kv (failures R env (errs ++ [e]) w) !! "fail_count" = Some "NaN").
Proof.
  assert (Hgen : kv (failures R env (errs ++ [e]) w) !! "fail_count"
                 = Some (number_toString
                           (option_map (fun n => n + Z.of_nat (length (errs ++ [e])))
                              (fail_count_read w)))).
  { rewrite failures_snoc, recordFailure_count, next_fail_count_read.
    rewrite fail_count_read_failures. f_equal. f_equal.
    rewrite length_app. cbn [length].
    destruct (fail_count_read w); cbn [option_map]; [f_equal; lia | reflexivity]. }
  split.
  - intros n Hn Hsafe Hstored. rewrite Hgen.
    assert (Hread : fail_count_read w = Some n).
    { unfold fail_count_read.
      destruct Hstored as [-> | [-> [-> | ->]]]; [|reflexivity|reflexivity].
      cbn [or_default]. rewrite toString_nonempty. apply parseInt_toString. }
    rewrite Hread. reflexivity.
  - intros Hnan. rewrite Hgen. unfold fail_count_read. rewrite Hnan. reflexivity.
Qed.

(** Three failures after seven, and three failures on a fresh store. *)
Example three_more_failures :
  let boom := mkError "Error" "boom" in
  kv (failures Fixture.remote_ok Fixture.env [boom; boom; boom]
        {| kv := <["fail_count" := "7"]> ∅; trace := [] |}) !! "fail_count"
  = Some "10"
  /\ kv (failures Fixture.remote_ok Fixture.env [boom; boom; boom]
           Fixture.empty_world) !! "fail_count"
     = Some "3".
Proof. split; vm_compute; reflexivity. Qed.

(** X14. The schedule of the notifications: after a reset of the failure
    state, [k] failures in a row with one message send a notification at
    the first, the third, the fifth and every tenth failure, and at no
    other. *)
Theorem escalation_schedule (R : Remote) (env : Env) (msg : string)
    (errs : list JsError) (w : World) :
  List.Forall (fun e => err_message e = msg) errs ->
  let w0 := snd (resetFailureCount w) in
  length (telegrams (failures R env errs w0))
  = (length (telegrams w) + notifications_due (length errs))%nat.
Proof.
  intros Hall w0. destruct Hall as [|e errs He Hall];
    [symmetry; apply Nat.add_0_r|].
  change (failures R env (e :: errs) w0)
    with (failures R env errs (snd (recordFailureAndMaybeNotify R env e w0))).
  assert (Hn : next_fail_count w0 = Some 1).
  { unfold next_fail_count, w0. rewrite Orchestrator.resetFailureCount_run.
    cbn [snd kv]. rewrite lookup_delete_ne by done. now rewrite lookup_insert_eq. }
  assert (Hl : kv w0 !! "last_error_msg" = None) by apply lookup_delete_eq.
  pose proof (recordFailure_count R env e w0) as Hc1.
  pose proof (recordFailure_message R env e w0) as Hm1.
  pose proof (recordFailure_telegrams R env e w0) as Ht.
  rewrite Hn in Hc1, Ht. rewrite He in Hm1.
  rewrite bool_decide_eq_false_2 in Ht by (rewrite Hl; discriminate).
  pose proof (repeated_failures R env msg errs _ 1 ltac:(lia) Hc1 Hm1 Hall) as Hrep.
  rewrite Ht in Hrep. cbn [length] in *.
  change (telegrams w0) with (telegrams w) in Hrep.
  change (notifications_due 1) with 1%nat in Hrep.
  change (1 + length errs)%nat with (S (length errs)) in Hrep. lia.
Qed.

Lemma escalation_schedule_witness :
  length (telegrams (failures Fixture.remote_ok Fixture.env
                       (repeat (mkError "Error" "boom") 20)
                       (snd (resetFailureCount Fixture.failing_twice))))
  = 5%nat.
Proof.
  apply (escalation_schedule Fixture.remote_ok Fixture.env "boom"
           (repeat (mkError "Error" "boom") 20) Fixture.failing_twice).
  repeat constructor.
Defined.

End CounterFacts.

(* ===================================================================== *)
(** * Whole cycles *)
(* ===================================================================== *)

Module CycleFacts.
Import JSString JSStringFacts Worker Observed Frames DecimalFacts CounterFacts
  Fetching.

(** Inclusion and exclusion among lists of keys that are written out. *)
Ltac sub_keys :=
  let k := fresh "k" in
  let Hin := fresh "Hin" in
  intros k Hin; apply list_elem_of_In in Hin; apply list_elem_of_In;
  unfold worker_keys; cbn in Hin |- *; tauto.

Ltac not_key :=
  let Hin := fresh "Hin" in
  intros Hin; apply list_elem_of_In in Hin; cbn in Hin; intuition discriminate.

Section Run.
Variables (H : Host) (R : Remote) (env : Env).

Lemma ensureAuth_keeps (w : World) :
  keeps ["Cookie"; "Last_auth"] w (snd (ensureAuth H R env w)).
Proof.
  rewrite ensureAuth_cases.
  destruct (kv w !! "Cookie") as [v|];
    [|apply login_keeps; repeat constructor].
  destruct (cookie_of_json H v) as [[c|]|e|]; try apply keeps_refl.
  apply login_keeps; repeat constructor.
Qed.

Lemma maybeNotify_keeps dates range (w : World) :
  keeps ["Last_dates"] w (snd (maybeNotifyNewDates H R env dates range w)).
Proof.
  destruct (decide (kv w !! "Last_dates" = Some (sha256 H (join "," dates))))
    as [He | Hne].
  - rewrite ChangeNotifier.maybeNotify_same_hash by assumption. now apply keeps_same.
  - rewrite ChangeNotifier.maybeNotify_new_hash by assumption.
    intros k Hk. rewrite sendTelegram_kv. cbn [kv].
    apply lookup_insert_ne. intros <-. apply Hk. repeat constructor.
Qed.

Lemma reset_keeps (w : World) :
  keeps ["fail_count"; "last_error_msg"] w (snd (resetFailureCount w)).
Proof.
  intros k Hk. rewrite Orchestrator.resetFailureCount_run. cbn [snd kv].
  rewrite lookup_delete_ne, lookup_insert_ne; [reflexivity| |]; intros <-;
    apply Hk; repeat constructor.
Qed.

Lemma in_worker_keys (keys : list string) :
  forallb (fun k => bool_decide (k ∈ worker_keys)) keys = true ->
  forall k, k ∈ keys -> k ∈ worker_keys.
Proof.
  intros Hall k Hk. rewrite forallb_forall in Hall.
  apply list_elem_of_In in Hk. apply Hall in Hk.
  now apply bool_decide_eq_true in Hk.
Qed.

(** The guarded block: nothing but the keys of the worker is written, and
    a block that throws has not touched the failure state. *)
Lemma runCheck_try_keeps (fuel : nat) (w : World) :
  keeps worker_keys w (snd (runCheck_try H R env fuel w))
  /\ (forall e, fst (runCheck_try H R env fuel w) = Throw e ->
        keeps ["Cookie"; "Last_auth"; "Last"; "Last_dates"] w
          (snd (runCheck_try H R env fuel w))).
Proof.
  unfold runCheck_try, bind.
  pose proof (ensureAuth_keeps w) as Ha.
  destruct (ensureAuth H R env w) as [[c|e|] w1]; cbn [fst snd] in *;
    try (split; [|intros e0 _];
         (eapply keeps_weaken; [|exact Ha]); sub_keys).
  pose proof (fetch_keeps H R env fuel c w1) as Hf.
  destruct (fetchAvailableDates H R env fuel c w1) as [[[dates range]|e|] w2];
    cbn [fst snd] in *;
    try (split; [|intros e0 _];
         (eapply keeps_trans;
          [eapply keeps_weaken; [|exact Ha] | eapply keeps_weaken; [|exact Hf]]);
         sub_keys).
  assert (H2 : keeps ["Cookie"; "Last_auth"; "Last"; "Last_dates"] w w2).
  { eapply keeps_trans;
      [eapply keeps_weaken; [|exact Ha] | eapply keeps_weaken; [|exact Hf]];
      sub_keys. }
  destruct (0 <? Z.of_nat (length dates)).
  - pose proof (maybeNotify_keeps dates range w2) as Hn.
    destruct (maybeNotifyNewDates H R env dates range w2) as [[[]|e|] w3];
      cbn [fst snd] in *.
    + split; [|discriminate].
      eapply keeps_trans; [eapply keeps_weaken; [|exact H2]; sub_keys|].
      eapply keeps_trans; [eapply keeps_weaken; [|exact Hn]; sub_keys|].
      eapply keeps_weaken; [|apply reset_keeps]. sub_keys.
    + assert (H3 : keeps ["Cookie"; "Last_auth"; "Last"; "Last_dates"] w w3).
      { eapply keeps_trans; [exact H2|].
        eapply keeps_weaken; [|exact Hn]. sub_keys. }
      split; [|intros _ _; exact H3].
      eapply keeps_weaken; [|exact H3]. sub_keys.
    + split; [|discriminate].
      eapply keeps_trans; [eapply keeps_weaken; [|exact H2]; sub_keys|].
      eapply keeps_weaken; [|exact Hn]. sub_keys.
  - rewrite Orchestrator.resetFailureCount_run. cbn. split; [|discriminate].
    eapply keeps_trans; [eapply keeps_weaken; [|exact H2]; sub_keys|].
    intros k Hk. cbn.
    rewrite lookup_insert_ne, lookup_delete_ne, lookup_insert_ne; [reflexivity| | |];
      intros <-; apply Hk; unfold worker_keys; repeat constructor.
Qed.

Lemma runCheck_keeps (fuel : nat) (w : World) :
  keeps worker_keys w (snd (runCheck H R env fuel w)).
Proof.
  destruct (runCheck_try_keeps fuel w) as [Hk _].
  destruct (runCheck_try H R env fuel w) as [[[]|e|] w1] eqn:Et.
  - unfold runCheck, try_catch. rewrite Et. exact Hk.
  - rewrite (Orchestrator.runCheck_caught H R env fuel w w1 e Et).
    eapply keeps_trans; [exact Hk|].
    eapply keeps_trans;
      [|eapply keeps_weaken; [|apply recordFailure_keeps]; sub_keys].
    now apply keeps_same.
  - unfold runCheck, try_catch. rewrite Et. exact Hk.
Qed.


End Run.

Section Ends.
Variables (H : Host) (R : Remote) (env : Env).





End Ends.

(** X18. Each part of the worker writes its own keys of the store and no
    other: the authentication "Cookie" and "Last_auth", the fetch these
    and "Last", the notifier "Last_dates", the failure tracker and the
    reset "fail_count" and "last_error_msg"; a send to the messaging bot
    writes nothing.  A whole cycle, and the manual trigger with it, leaves
    every key outside these six as it was. *)
Theorem parts_write_their_own_keys (H : Host) (R : Remote) (env : Env)
    (fuel : nat) (c : AuthCookie) (dates : list string) (range : MonthRange)
    (err : JsError) (t : string) (w : World) :
  keeps ["Cookie"; "Last_auth"] w (snd (ensureAuth H R env w))
  /\ keeps ["Cookie"; "Last_auth"; "Last"] w
       (snd (fetchAvailableDates H R env fuel c w))
  /\ keeps ["Last_dates"] w (snd (maybeNotifyNewDates H R env dates range w))
  /\ keeps ["fail_count"; "last_error_msg"] w
       (snd (recordFailureAndMaybeNotify R env err w))
  /\ keeps ["fail_count"; "last_error_msg"] w (snd (resetFailureCount w))
  /\ kv (snd (sendTelegram R env t w)) = kv w
  /\ keeps worker_keys w (snd (runCheck H R env fuel w))
  /\ keeps worker_keys w (snd (scheduled H R env fuel w))
  /\ keeps worker_keys w (snd (fetch_handler H R env fuel w)).
Proof.
  repeat split.
  - apply ensureAuth_keeps.
  - apply fetch_keeps.
  - apply maybeNotify_keeps.
  - apply recordFailure_keeps.
  - apply reset_keeps.
  - apply sendTelegram_kv.
  - apply runCheck_keeps.
  - apply runCheck_keeps.
  - pose proof (runCheck_keeps H R env fuel w) as Hk.
    unfold fetch_handler, bind, try_catch.
    destruct (runCheck H R env fuel w) as [[[]|e|] w1]; cbn; exact Hk.
Qed.

(** X15. A cycle whose guarded block throws is counted once: the stored
    failure count becomes the count read at the start of the cycle plus
    one, the message of the exception becomes the last recorded message,
    and when it differs from the one recorded before, the latest text sent
    to the messaging bot reports it with the new count. *)
Theorem failed_cycle_is_counted (H : Host) (R : Remote) (env : Env)
    (fuel : nat) (w : World) (e : JsError) :
  fst (runCheck_try H R env fuel w) = Throw e ->
  let w' := snd (runCheck H R env fuel w) in
  kv w' !! "fail_count" = Some (number_toString (next_fail_count w))
  /\ kv w' !! "last_error_msg" = Some (err_message e)
  /\ (kv w !! "last_error_msg" <> Some (err_message e) ->
      head (telegrams w') = Some (error_text (err_message e) (next_fail_count w))).
Proof.
  intros Ht w'. subst w'.
  destruct (runCheck_try_keeps H R env fuel w) as [_ Hk].
  destruct (runCheck_try H R env fuel w) as [o w1] eqn:Et. cbn [fst snd] in *.
  subst o. specialize (Hk e eq_refl).
  rewrite (Orchestrator.runCheck_caught H R env fuel w w1 e Et).
  set (w0 := {| kv := kv w1; trace := EvConsole "runCheck error" :: trace w1 |}).
  assert (Hc : kv w0 !! "fail_count" = kv w !! "fail_count")
    by (apply Hk; not_key).
  assert (Hm : kv w0 !! "last_error_msg" = kv w !! "last_error_msg")
    by (apply Hk; not_key).
  assert (Hn : next_fail_count w0 = next_fail_count w)
    by (unfold next_fail_count; now rewrite Hc).
  rewrite recordFailure_count, recordFailure_message, Hn.
  repeat split. intros Hne.
  rewrite recordFailure_telegrams, Hn.
  rewrite bool_decide_eq_false_2 by (rewrite Hm; exact Hne). reflexivity.
Qed.

Lemma failed_cycle_is_counted_witness :
  let w' := snd (runCheck Fixture.host Fixture.remote_login_down Fixture.env 1
                   Fixture.failing_twice) in
  kv w' !! "fail_count" = Some "3"
  /\ kv w' !! "last_error_msg" = Some "Login failed: 503 busy"
  /\ head (telegrams w') = Some "❗ Error: Login failed: 503 busy (fail #3)".
Proof.
  destruct (failed_cycle_is_counted Fixture.host Fixture.remote_login_down
              Fixture.env 1 Fixture.failing_twice
              (mkError "Error" "Login failed: 503 busy") eq_refl) as (Hc & Hm & Ht).
  split; [exact Hc | split; [exact Hm|]].
  apply Ht. vm_compute. discriminate.
Defined.



End CycleFacts.

(* ===================================================================== *)
(** * The available days of any range *)
(* ===================================================================== *)

Module DaysFacts.
Import JSString JSStringFacts JSDate JSDateFacts Worker Observed MonthRangeFacts
  AvailableDays.

Lemma year_string_length (y : Z) : (4 <= String.length (year_string y))%nat.
Proof.
  unfold year_string. destruct (_ && _).
  - now rewrite digitsN_length.
  - rewrite length_append, digitsN_length. lia.
Qed.

(** The date that the loop pushes has ten characters. *)
Lemma pushed_length (t : Z) : String.length (slice (iso_string t) 0 10) = 10%nat.
Proof.
  rewrite slice_0 by lia. rewrite substring_0_length.
  unfold iso_string. rewrite !length_append, !digitsN_length.
  pose proof (year_string_length (YearFromTime t)). cbn [String.length Z.to_nat].
  change (Pos.to_nat 10) with 10%nat. lia.
Qed.

Lemma all_dates_loop_lengths (budget : nat) (d e : Date) (acc l : list string) :
  all_dates_loop budget d e acc = Ret l ->
  List.Forall (fun s => String.length s = 10%nat) acc ->
  List.Forall (fun s => String.length s = 10%nat) l.
Proof.
  revert d acc. induction budget as [|budget IH]; intros d acc; cbn [all_dates_loop].
  - destruct (le d e); [discriminate|]. now intros [= <-].
  - destruct (le d e); [|now intros [= <-]].
    destruct d as [t|]; [|discriminate]. cbn [toISOString].
    intros Hrun Hacc. apply (IH _ _ Hrun).
    apply Forall_app. split; [exact Hacc|].
    constructor; [apply pushed_length | constructor].
Qed.

(** The test of the filter of [computeAvailableDays], on a date of ten
    characters. *)
Lemma not_disabled_test (l : list DisabledDateRecord) (s : string) :
  String.length s = 10%nat ->
  negb (bool_decide (s ∈ (list_to_set (filter_Boolean (map disabled_iso l))
                          : gset string)))
  = negb (bool_decide (s ∈ disabled_prefixes l)).
Proof.
  intros Hs. f_equal. apply bool_decide_ext, disabled_set_prefixes.
  intros ->. discriminate.
Qed.

Lemma computeAvailableDays_filter (l : list DisabledDateRecord) (range : MonthRange) :
  exists all,
    List.Forall (fun s => String.length s = 10%nat) all
    /\ (parse (startISO range +:+ "T00:00:00.000Z") = None
        \/ parse (endISO range +:+ "T00:00:00.000Z") = None -> all = [])
    /\ forall l',
        computeAvailableDays l' range
        = Ret (List.filter (fun s => negb (bool_decide (s ∈ disabled_prefixes l'))) all).
Proof.
  destruct (computeAvailableDays_returns l range) as [a Ha].
  unfold computeAvailableDays in *.
  set (d := parse (startISO range +:+ "T00:00:00.000Z")) in *.
  set (e := parse (endISO range +:+ "T00:00:00.000Z")) in *.
  destruct (all_dates_loop (loop_budget d e) d e []) as [all|err|] eqn:E;
    try discriminate.
  pose proof (all_dates_loop_lengths _ _ _ _ _ E (List.Forall_nil _)) as Hall.
  exists all. split; [exact Hall | split].
  - intros Hnone.
    assert (Hle : le d e = false)
      by (destruct Hnone as [-> | ->]; [reflexivity | now destruct d]).
    destruct (loop_budget d e); cbn [all_dates_loop] in E; rewrite Hle in E;
      now injection E as <-.
  - intros l'. f_equal. apply filter_ext_in. intros s Hs.
    apply not_disabled_test. rewrite List.Forall_forall in Hall. now apply Hall.
Qed.

(** The days of a range of two dates of the years 0 to 9999. *)
Lemma computeAvailableDays_dates (l : list DisabledDateRecord)
    (y1 m1 d1 y2 m2 d2 : Z) (month year : option Z) :
  0 <= y1 <= 9999 -> Calendar.valid_date y1 m1 d1 ->
  0 <= y2 <= 9999 -> Calendar.valid_date y2 m2 d2 ->
  computeAvailableDays l {| startISO := Calendar.iso_date y1 m1 d1;
                            endISO := Calendar.iso_date y2 m2 d2;
                            displayMonth := month; displayYear := year |}
  = Ret (map Calendar.iso_of_day
           (List.filter
              (fun n => negb (bool_decide (Calendar.iso_of_day n ∈ disabled_prefixes l)))
              (Calendar.days_from_to (Calendar.day_number y1 m1 d1)
                 (Calendar.day_number y2 m2 d2)))).
Proof.
  intros Hy1 Hv1 Hy2 Hv2.
  destruct (iso_of_day_number y1 m1 d1 Hy1 Hv1) as (Hwa & _ & Hpa).
  destruct (iso_of_day_number y2 m2 d2 Hy2 Hv2) as (Hwb & _ & Hpb).
  unfold Calendar.in_window in Hwa, Hwb.
  unfold computeAvailableDays. cbn [startISO endISO].
  rewrite Hpa, Hpb, loop_budget_days.
  rewrite (all_dates_loop_run (Calendar.day_number y2 m2 d2) _
             (Calendar.day_number y1 m1 d1) []) by lia.
  cbn [app]. rewrite filter_map_swap. f_equal. f_equal.
  apply filter_ext_in. intros n _. f_equal.
  apply bool_decide_ext, disabled_set_prefixes, iso_of_day_nonempty.
Qed.

Lemma all_dates_loop_no_throw (n : nat) (d e : Date) (acc : list string)
    (err : JsError) :
  all_dates_loop n d e acc <> Throw err.
Proof.
  revert d acc. induction n as [|n IH]; intros d acc; cbn [all_dates_loop].
  - destruct (le d e); discriminate.
  - destruct (le d e) eqn:Hle; [|discriminate].
    destruct d as [ta|]; [|discriminate]. cbn [toISOString]. apply IH.
Qed.

Lemma all_dates_loop_none (n : nat) (d e : Date) :
  le d e = false -> all_dates_loop n d e [] = Ret [].
Proof. intros Hle. destruct n; cbn [all_dates_loop]; now rewrite Hle. Qed.

(** The days between two dates, whatever the dates. *)
Lemma available_between_filter (d e : Date) :
  exists all,
    List.Forall (fun s => String.length s = 10%nat) all
    /\ (le d e = false -> all = [])
    /\ forall l,
        available_days_between d e l
        = Ret (List.filter (fun s => negb (bool_decide (s ∈ disabled_prefixes l))) all).
Proof.
  unfold available_days_between.
  pose proof (all_dates_loop_terminates (loop_budget d e) d e [] ltac:(lia)) as Hn.
  destruct (all_dates_loop (loop_budget d e) d e []) as [all|err|] eqn:E.
  - pose proof (all_dates_loop_lengths _ _ _ _ _ E (List.Forall_nil _)) as Hall.
    exists all. split; [exact Hall | split].
    + intros Hle. rewrite all_dates_loop_none in E by exact Hle. now injection E as <-.
    + intros l. f_equal. apply filter_ext_in. intros s Hs.
      apply not_disabled_test. rewrite List.Forall_forall in Hall. now apply Hall.
  - exfalso. exact (all_dates_loop_no_throw _ _ _ _ _ E).
  - congruence.
Qed.

(** X10. [computeAvailableDays] is [available_days_between] of the two
    dates that its range is read as.  Whatever these two dates are, and
    whatever the records (objects with an optional text as their date),
    the loop over the days ends and nothing is thrown; every date that is
    returned has ten characters and is not the ten-character prefix of the
    date of any record; and no date is returned when one of the two dates
    is invalid or the first is after the second. *)
Theorem available_days_are_never_disabled (l : list DisabledDateRecord) :
  (forall range,
      computeAvailableDays l range
      = available_days_between (parse (startISO range +:+ "T00:00:00.000Z"))
          (parse (endISO range +:+ "T00:00:00.000Z")) l)
  /\ forall d e : Date,
       exists a,
         available_days_between d e l = Ret a
         /\ (forall s, In s a ->
               String.length s = 10%nat /\ s ∉ disabled_prefixes l)
         /\ (d = None \/ e = None -> a = [])
         /\ (forall td te, d = Some td -> e = Some te -> te < td -> a = []).
Proof.
  split; [reflexivity|]. intros d e.
  destruct (available_between_filter d e) as (all & Hall & Hnone & Hrun).
  eexists. split; [apply Hrun | split; [|split]].
  - intros s Hs. apply filter_In in Hs as [Hin Hs].
    rewrite List.Forall_forall in Hall. split; [now apply Hall|].
    now apply negb_true_iff, bool_decide_eq_false in Hs.
  - intros Hn. rewrite Hnone; [reflexivity|].
    destruct Hn as [-> | ->]; [reflexivity | now destruct d].
  - intros td te -> -> Hlt. rewrite Hnone; [reflexivity|].
    cbn [le]. apply Z.leb_gt. exact Hlt.
Qed.

(** The thirtieth of February is read as the second of March, and the
    days from it to the third of March are two. *)
Example day_beyond_the_month :
  parse "2025-02-30T00:00:00.000Z" = parse "2025-03-02T00:00:00.000Z"
  /\ computeAvailableDays []
       {| startISO := "2025-02-30"; endISO := "2025-03-03";
          displayMonth := Some 2; displayYear := Some 2025 |}
     = Ret ["2025-03-02"; "2025-03-03"].
Proof. split; vm_compute; reflexivity. Qed.

(** X11. The available days depend on the records only through the
    ten-character prefixes of their dates: two lists of records with the
    same prefixes of ten characters give the same days, whatever the order
    of the records, their repetitions, what follows the tenth character,
    and the records without a date or with a shorter one. *)
Theorem available_days_depend_on_the_prefixes (l1 l2 : list DisabledDateRecord)
    (range : MonthRange) :
  (forall s, String.length s = 10%nat ->
             (s ∈ disabled_prefixes l1 <-> s ∈ disabled_prefixes l2)) ->
  computeAvailableDays l1 range = computeAvailableDays l2 range.
Proof.
  intros Hsame.
  destruct (computeAvailableDays_filter l1 range) as (all & Hall & _ & Hrun).
  rewrite (Hrun l1), (Hrun l2). f_equal. apply filter_ext_in. intros s Hs.
  rewrite List.Forall_forall in Hall. f_equal.
  apply bool_decide_ext, Hsame, Hall, Hs.
Qed.

Lemma available_days_depend_on_the_prefixes_witness :
  computeAvailableDays Fixture.july_disabled Fixture.july_range
  = computeAvailableDays Fixture.july_disabled_raw Fixture.july_range.
Proof.
  apply (available_days_depend_on_the_prefixes Fixture.july_disabled
           Fixture.july_disabled_raw Fixture.july_range).
  intros s Hs.
  change (disabled_prefixes Fixture.july_disabled)
    with ["2025-07-01"; "2025-07-05"].
  change (disabled_prefixes Fixture.july_disabled_raw)
    with ["2025-07-01"; "2025-07-05"; ""].
  rewrite !elem_of_cons, !elem_of_nil. split.
  - intros [-> | [-> | []]]; auto.
  - intros [-> | [-> | [-> | []]]]; auto. discriminate Hs.
Defined.

End DaysFacts.

(* ===================================================================== *)
(** * The notifier over several calls *)
(* ===================================================================== *)

Module NotifierFacts.
Import JSString JSStringFacts Worker.

(** X12. The notifier remembers the latest list only: after a call with
    another list (another hash), a call with the first list sends its
    message again. *)
Theorem changed_back_is_notified_again (H : Host) (R : Remote) (env : Env)
    (dates other : list string) (range range' : MonthRange) (w : World) :
  sha256 H (join "," other) <> sha256 H (join "," dates) ->
  let w1 := snd (maybeNotifyNewDates H R env other range' w) in
  let w2 := snd (maybeNotifyNewDates H R env dates range w1) in
  telegrams w2 = buildDatesMessage dates range :: telegrams w1
  /\ kv w2 !! "Last_dates" = Some (sha256 H (join "," dates)).
Proof.
  intros Hne w1 w2. subst w2. split; [|apply ChangeNotifier.maybeNotify_stores_hash].
  pose proof (ChangeNotifier.maybeNotify_stores_hash H R env other range' w) as Hst.
  fold w1 in Hst.
  rewrite ChangeNotifier.maybeNotify_new_hash
    by (rewrite Hst; intros [= E]; contradiction).
  match goal with |- context [sendTelegram R env ?t ?w0] =>
    now destruct (FailureTracker.sendTelegram_run R env t w0
                    (ChangeNotifier.buildDatesMessage_truthy dates range))
  end.
Qed.

Lemma changed_back_is_notified_again_witness :
  let w1 := snd (maybeNotifyNewDates Fixture.host Fixture.remote_ok Fixture.env
                   ["2025-07-02"] Fixture.july_range Fixture.empty_world) in
  let w2 := snd (maybeNotifyNewDates Fixture.host Fixture.remote_ok Fixture.env
                   ["2025-07-03"] Fixture.july_range w1) in
  telegrams w2 = buildDatesMessage ["2025-07-03"] Fixture.july_range :: telegrams w1.
Proof.
  refine (proj1 (changed_back_is_notified_again Fixture.host Fixture.remote_ok
                   Fixture.env ["2025-07-03"] ["2025-07-02"] Fixture.july_range
                   Fixture.july_range Fixture.empty_world _)).
  vm_compute. discriminate.
Defined.

End NotifierFacts.

(* ===================================================================== *)
(** * The ranges of the months *)
(* ===================================================================== *)

Module RangeFacts.
Import JSString JSStringFacts JSDate JSDateFacts Worker Observed Frames
  MonthRangeFacts AvailableDays DaysFacts UrlFacts.

(** The range of a target month of the years 100 to 9999. *)
Lemma month_range_in_window (R : Remote) (o : Z) (w : World) :
  let t := clock R (count is_clock (trace w)) in
  let k := MonthFromTime t + o in
  let Y := YearFromTime t + k / 12 in
  let M := k mod 12 + 1 in
  100 <= YearFromTime t ->
  100 <= Y <= 9999 ->
  fst (calculateMonthRange R (Some o) w)
  = Ret {| startISO := Calendar.iso_date Y M 1;
           endISO := Calendar.iso_date Y M (Calendar.days_in_month Y M);
           displayMonth := Some M;
           displayYear := Some Y |}.
Proof.
  intros t k Y M Hnow HY.
  assert (Hm : 0 <= k mod 12 <= 11) by zdiv.
  pose proof (MonthLength_range (k mod 12) _ (LeapOfYear_cases Y)) as Hl.
  fold (DaysInMonth Y (k mod 12)) in Hl.
  destruct (midnight_of_date Y (k mod 12) 1 ltac:(lia) Hm ltac:(lia))
    as (Hc1 & Hy1 & Hm1 & Hd1 & Hs1).
  destruct (midnight_of_date Y (k mod 12) (DaysInMonth Y (k mod 12))
              ltac:(lia) Hm ltac:(lia))
    as (Hc2 & Hy2 & Hm2 & Hd2 & Hs2).
  unfold calculateMonthRange, bind, now. cbn [fst snd trace kv].
  fold t. cbn [getUTCFullYear getUTCMonth option_map].
  rewrite UTC_full_year by lia.
  fold k. rewrite (MakeDay_carry (YearFromTime t) k 1). fold Y.
  rewrite Hc1. cbn [getUTCFullYear getUTCMonth option_map].
  rewrite Hy1, Hm1.
  rewrite UTC_full_year by lia.
  rewrite MakeDay_last_day by assumption. rewrite Hc2.
  cbn [toISOString lift ret fst]. rewrite Hs1, Hs2.
  rewrite DaysInMonth_calendar by assumption. reflexivity.
Qed.

Lemma month_is_valid (Y M : Z) :
  1 <= M <= 12 ->
  Calendar.valid_date Y M 1 /\ Calendar.valid_date Y M (Calendar.days_in_month Y M).
Proof.
  intros HM.
  assert (28 <= Calendar.days_in_month Y M <= 31).
  { unfold Calendar.days_in_month.
    destruct (M =? 2); [destruct (Calendar.is_leap_year Y); lia|].
    destruct (_ || _); lia. }
  unfold Calendar.valid_date. lia.
Qed.

(** X8. Whatever the clock and the offset, [calculateMonthRange] reads
    the clock once and leaves the store alone; it either throws the
    [RangeError] of an invalid date (always so for an offset that is no
    number) or returns a range whose two dates have ten characters, with a
    month from 1 to 12. *)
Theorem month_range_outcome (R : Remote) (o : option Z) (w : World) :
  snd (calculateMonthRange R o w) = {| kv := kv w; trace := EvClock :: trace w |}
  /\ (fst (calculateMonthRange R o w) = Throw (mkError "RangeError" "Invalid time value")
      \/ exists r m y,
           fst (calculateMonthRange R o w) = Ret r
           /\ String.length (startISO r) = 10%nat
           /\ String.length (endISO r) = 10%nat
           /\ displayMonth r = Some m /\ 1 <= m <= 12
           /\ displayYear r = Some y)
  /\ (o = None ->
      fst (calculateMonthRange R o w) = Throw (mkError "RangeError" "Invalid time value")).
Proof.
  split; [apply calculateMonthRange_world | split].
  - unfold calculateMonthRange, bind, now, lift, ret. cbn [fst snd].
    destruct (UTC (getUTCFullYear _) _ (Some 1)) as [t1|]; [|now left].
    destruct (UTC _ _ (Some 0)) as [t2|]; [|now left].
    right. eexists _, (MonthFromTime t1 + 1), (YearFromTime t1).
    cbn [toISOString fst]. split; [reflexivity|].
    cbn [startISO endISO displayMonth displayYear getUTCMonth getUTCFullYear
         option_map].
    rewrite !pushed_length. pose proof (MonthFromTime_range t1).
    repeat split; lia.
  - intros ->. reflexivity.
Qed.

(** X9. The ranges of two offsets in a row are two months in a row: with
    the target months in the years 100 to 9999, the day after the last day
    of the range of the offset [o] is the first day of the range of the
    offset [o + 1]. *)
Theorem month_ranges_are_adjacent (R : Remote) (o : Z) (w : World) :
  let t := clock R (count is_clock (trace w)) in
  let Y i := YearFromTime t + (MonthFromTime t + i) / 12 in
  100 <= YearFromTime t ->
  100 <= Y o <= 9999 -> 100 <= Y (o + 1) <= 9999 ->
  exists r1 r2 last,
    fst (calculateMonthRange R (Some o) w) = Ret r1
    /\ fst (calculateMonthRange R (Some (o + 1)) w) = Ret r2
    /\ parse (endISO r1 +:+ "T00:00:00.000Z") = Some last
    /\ parse (startISO r2 +:+ "T00:00:00.000Z") = Some (last + msPerDay).
Proof.
  intros t Y Hnow HY1 HY2. subst Y. cbv beta in *.
  pose proof (month_range_in_window R o w Hnow HY1) as E1.
  pose proof (month_range_in_window R (o + 1) w Hnow HY2) as E2.
  cbv zeta in E1, E2. fold t in E1, E2 |- *.
  set (k := MonthFromTime t + o) in *.
  replace (MonthFromTime t + (o + 1)) with (k + 1) in * by (unfold k; lia).
  set (Y1 := YearFromTime t + k / 12) in *.
  set (Y2 := YearFromTime t + (k + 1) / 12) in *.
  assert (Hm1 : 1 <= k mod 12 + 1 <= 12) by zdiv.
  assert (Hm2 : 1 <= (k + 1) mod 12 + 1 <= 12) by zdiv.
  destruct (month_is_valid Y1 _ Hm1) as [_ Hv1].
  destruct (month_is_valid Y2 _ Hm2) as [Hv2 _].
  destruct (iso_of_day_number Y1 _ _ ltac:(lia) Hv1) as (_ & _ & Hp1).
  destruct (iso_of_day_number Y2 _ _ ltac:(lia) Hv2) as (_ & _ & Hp2).
  eexists _, _, _. split; [exact E1 | split; [exact E2 | split; [exact Hp1|]]].
  cbn [startISO]. rewrite Hp2. f_equal.
  unfold Calendar.day_number.
  replace (k mod 12 + 1 - 1) with (k mod 12) by lia.
  replace ((k + 1) mod 12 + 1 - 1) with ((k + 1) mod 12) by lia.
  rewrite <- (DaysInMonth_calendar Y1 (k mod 12)) by zdiv.
  assert (Hnext : MakeDay Y2 ((k + 1) mod 12) 1
                  = MakeDay Y1 (k mod 12) (DaysInMonth Y1 (k mod 12)) + 1).
  { rewrite <- MakeDay_last_day by zdiv.
    rewrite (MakeDay_carry Y1 (k mod 12 + 1) 0).
    replace (Y1 + (k mod 12 + 1) / 12) with Y2 by (unfold Y1, Y2; zdiv).
    replace ((k mod 12 + 1) mod 12) with ((k + 1) mod 12) by zdiv.
    apply (MakeDay_shift Y2 ((k + 1) mod 12) 0 1). }
  rewrite Hnext. unfold MakeDate, msPerDay. lia.
Qed.

Lemma month_ranges_are_adjacent_witness :
  exists r1 r2 last,
    fst (calculateMonthRange Fixture.remote_ok (Some 5) Fixture.empty_world) = Ret r1
    /\ fst (calculateMonthRange Fixture.remote_ok (Some 6) Fixture.empty_world) = Ret r2
    /\ parse (endISO r1 +:+ "T00:00:00.000Z") = Some last
    /\ parse (startISO r2 +:+ "T00:00:00.000Z") = Some (last + msPerDay).
Proof.
  apply (month_ranges_are_adjacent Fixture.remote_ok 5 Fixture.empty_world);
    vm_compute; try split; discriminate.
Defined.

End RangeFacts.

(* ===================================================================== *)
(** * The fetch of a month *)
(* ===================================================================== *)

Module FetchOfMonth.
Import JSString JSStringFacts JSDate JSDateFacts Worker Observed Frames
  MonthRangeFacts AvailableDays DaysFacts UrlFacts RangeFacts.

(** A success of the availability endpoint is neither 401 nor 403. *)
Lemma ok_not_refused {A} (res : Response A) :
  ok res = true -> (status res =? 401) || (status res =? 403) = false.
Proof.
  unfold ok. intros Hok. apply andb_true_iff in Hok as [H1 H2].
  apply Z.leb_le in H1, H2. apply orb_false_iff. split; apply Z.eqb_neq; lia.
Qed.

(** The run of the fetch of a target month of the years 100 to 9999 on a
    success of the availability endpoint. *)
Lemma fetch_month_run (H : Host) (R : Remote) (env : Env)
    (fuel : nat) (c : AuthCookie) (w : World) (o : Z)
    (res : Response (list DisabledDateRecord)) (l : list DisabledDateRecord) :
  let t := clock R (count is_clock (trace w)) in
  let k := MonthFromTime t + o in
  let Y := YearFromTime t + k / 12 in
  let M := k mod 12 + 1 in
  let D := Calendar.days_in_month Y M in
  let range := {| startISO := Calendar.iso_date Y M 1;
                  endISO := Calendar.iso_date Y M D;
                  displayMonth := Some M; displayYear := Some Y |} in
  month_offset env = Some o ->
  100 <= YearFromTime t -> 100 <= Y <= 9999 ->
  dates_reply R (count is_dates (trace w)) = Responded res ->
  ok res = true -> json res = Ret l ->
  fetchAvailableDates H R env (S fuel) c w
  = (Ret (map Calendar.iso_of_day
            (List.filter
               (fun n => negb (bool_decide
                                 (Calendar.iso_of_day n ∈ disabled_prefixes l)))
               (Calendar.days_from_to (Calendar.day_number Y M 1)
                  (Calendar.day_number Y M D))),
          range),
     answered H R "200" (requested H env range c w)).
Proof.
  intros t k Y M D range Hoff Hnow HY Hrep Hok Hjson.
  pose proof (month_range_in_window R o w Hnow HY) as Hrange.
  cbv zeta in Hrange. fold t k Y M D in Hrange. fold range in Hrange.
  change (fetchAvailableDates H R env (S fuel))
    with (fetchAvailableDates_body H R env (fetchAvailableDates H R env fuel)).
  rewrite fetch_body_run, Hoff, Hrange. cbv zeta. rewrite Hrep.
  rewrite (ok_not_refused res Hok), Hok, Hjson. cbn [negb].
  assert (HM : 1 <= M <= 12) by (unfold M; zdiv).
  destruct (month_is_valid Y M HM) as [Hv1 Hv2]. fold D in Hv2.
  unfold range at 1.
  rewrite (computeAvailableDays_dates l Y M 1 Y M D (Some M) (Some Y))
    by (assumption || lia).
  reflexivity.
Qed.

(** X3. The fetch of the target month, from the clock to the result: with
    the target month [M] of the year [Y] (100 to 9999) and a success of the
    availability endpoint whose body is the list [l], [fetchAvailableDates]
    asks for the dates from 01/MM/YYYY to DD/MM/YYYY, [DD] the last day of
    the month, with the site and the number of persons of the
    configuration (16 and 1 when absent or empty) and the token of the
    credential, and returns the days of the month that are not disabled by
    [l], in ascending order, with the range of the month. *)
Theorem fetch_of_the_target_month (H : Host) (R : Remote) (env : Env)
    (fuel : nat) (c : AuthCookie) (w : World) (o : Z)
    (res : Response (list DisabledDateRecord)) (l : list DisabledDateRecord) :
  let t := clock R (count is_clock (trace w)) in
  let k := MonthFromTime t + o in
  let Y := YearFromTime t + k / 12 in
  let M := k mod 12 + 1 in
  let D := Calendar.days_in_month Y M in
  month_offset env = Some o ->
  100 <= YearFromTime t -> 100 <= Y <= 9999 ->
  dates_reply R (count is_dates (trace w)) = Responded res ->
  ok res = true -> json res = Ret l ->
  let run := fetchAvailableDates H R env (S fuel) c w in
  let days :=
    List.filter
      (fun n => negb (bool_decide (Calendar.iso_of_day n ∈ disabled_prefixes l)))
      (Calendar.days_from_to (Calendar.day_number Y M 1) (Calendar.day_number Y M D)) in
  fst run
  = Ret (map Calendar.iso_of_day days,
         {| startISO := Calendar.iso_date Y M 1; endISO := Calendar.iso_date Y M D;
            displayMonth := Some M; displayYear := Some Y |})
  /\ In (EvDates
           (BASE_URL +:+ DISABLED_DATES_ENDPOINT
            +:+ "?start=" +:+ "01/" +:+ digitsN 2 M +:+ "/" +:+ digitsN 4 Y
            +:+ "&end=" +:+ digitsN 2 D +:+ "/" +:+ digitsN 2 M +:+ "/" +:+ digitsN 4 Y
            +:+ "&siteId=" +:+ or_default (TARGET_SITE_ID env) "16"
            +:+ "&persons=" +:+ or_default (PERSONS env) "1")
           ("Bearer " +:+ accessToken c) (prepareCookie H c))
        (trace (snd run)).
Proof.
  intros t k Y M D Hoff Hnow HY Hrep Hok Hjson run days. subst run.
  rewrite (fetch_month_run H R env fuel c w o res l Hoff Hnow HY Hrep Hok Hjson).
  fold t k Y M D. split; [reflexivity|].
  cbn [snd answered requested trace]. right. right. left.
  unfold dates_request. cbn [startISO endISO].
  rewrite !toDDMMYYYY_of_date by lia.
  assert (E1 : digitsN 2 1 = "01") by reflexivity. rewrite E1.
  rewrite !append_assoc. reflexivity.
Qed.

Lemma fetch_of_the_target_month_witness :
  let run := fetchAvailableDates Fixture.host Fixture.remote_ok Fixture.env 1
               Fixture.credential Fixture.empty_world in
  fst run = Ret (Fixture.july_available, Fixture.july_range)
  /\ In (EvDates "https://ru.almaviva-visa.services/api/sites/disabled-dates/?start=01/07/2025&end=31/07/2025&siteId=16&persons=1"
           "Bearer T" (prepareCookie Fixture.host Fixture.credential))
        (trace (snd run)).
Proof.
  assert (Hnow : 100 <= YearFromTime (clock Fixture.remote_ok
                     (count is_clock (trace Fixture.empty_world))))
    by (vm_compute; discriminate).
  pose proof (fetch_of_the_target_month Fixture.host Fixture.remote_ok Fixture.env 0
              Fixture.credential Fixture.empty_world 0
              {| status := 200; text := "";
                 json := Ret [ {| date := Some "2025-07-01" |};
                               {| date := Some "2025-07-05T00:00:00" |};
                               {| date := None |} ] |}
              [ {| date := Some "2025-07-01" |};
                {| date := Some "2025-07-05T00:00:00" |}; {| date := None |} ]
              eq_refl Hnow) as Hthm.
  cbv zeta in Hthm.
  specialize (Hthm ltac:(vm_compute; split; discriminate)).
  specialize (Hthm eq_refl eq_refl eq_refl).
  destruct Hthm as [Hrun Hreq].
  split.
  - refine (eq_trans Hrun _). vm_compute. reflexivity.
  - vm_compute in Hreq. vm_compute. exact Hreq.
Defined.

End FetchOfMonth.

(* ===================================================================== *)
(** * The cycle of a month *)
(* ===================================================================== *)

Module CycleOfMonth.
Import JSString JSStringFacts JSDate JSDateFacts Worker Observed Frames
  MonthRangeFacts AvailableDays DaysFacts UrlFacts RangeFacts FetchOfMonth.

(** X16. A whole cycle on a success of the availability endpoint, with a
    stored credential, the target month [M] of the year [Y] (100 to 9999)
    and a messaging bot that answers: the cycle ends normally and the
    failure state is reset.  With no free day nothing is sent and the
    stored hash stays; with free days their hash is stored, and their
    message is sent exactly when the hash differs from the stored one. *)
Theorem cycle_of_the_target_month (H : Host) (R : Remote) (env : Env)
    (fuel : nat) (v : string) (c : AuthCookie) (w : World) (o : Z)
    (res : Response (list DisabledDateRecord)) (l : list DisabledDateRecord)
    (r : Response unit) :
  let t := clock R (count is_clock (trace w)) in
  let k := MonthFromTime t + o in
  let Y := YearFromTime t + k / 12 in
  let M := k mod 12 + 1 in
  let D := Calendar.days_in_month Y M in
  let range := {| startISO := Calendar.iso_date Y M 1;
                  endISO := Calendar.iso_date Y M D;
                  displayMonth := Some M; displayYear := Some Y |} in
  let dates :=
    map Calendar.iso_of_day
      (List.filter
         (fun n => negb (bool_decide (Calendar.iso_of_day n ∈ disabled_prefixes l)))
         (Calendar.days_from_to (Calendar.day_number Y M 1)
            (Calendar.day_number Y M D))) in
  let hash := sha256 H (join "," dates) in
  kv w !! "Cookie" = Some v -> cookie_of_json H v = Ret (Some c) ->
  month_offset env = Some o ->
  100 <= YearFromTime t -> 100 <= Y <= 9999 ->
  dates_reply R (count is_dates (trace w)) = Responded res ->
  ok res = true -> json res = Ret l ->
  telegram_reply R (count is_telegram (trace w)) = Responded r ->
  let w' := snd (runCheck H R env (S fuel) w) in
  fst (runCheck H R env (S fuel) w) = Ret tt
  /\ kv w' !! "fail_count" = Some "0"
  /\ kv w' !! "last_error_msg" = None
  /\ (dates = [] ->
      telegrams w' = telegrams w /\ kv w' !! "Last_dates" = kv w !! "Last_dates")
  /\ (dates <> [] ->
      kv w' !! "Last_dates" = Some hash
      /\ telegrams w'
         = if bool_decide (kv w !! "Last_dates" = Some hash) then telegrams w
           else buildDatesMessage dates range :: telegrams w).
Proof.
  intros t k Y M D range dates hash Hcookie Hparse Hoff Hnow HY Hrep Hok Hjson Hbot w'.
  subst w'. unfold runCheck, try_catch, runCheck_try, bind.
  rewrite ensureAuth_cases, Hcookie, Hparse.
  rewrite (fetch_month_run H R env fuel c w o res l Hoff Hnow HY Hrep Hok Hjson).
  fold t k Y M D. fold range. fold dates.
  set (w2 := answered H R "200" (requested H env range c w)).
  assert (Hd2 : kv w2 !! "Last_dates" = kv w !! "Last_dates")
    by (unfold w2; cbn [kv answered]; now rewrite lookup_insert_ne by done).
  assert (Ht2 : telegrams w2 = telegrams w) by reflexivity.
  assert (Hc2 : count is_telegram (trace w2) = count is_telegram (trace w))
    by reflexivity.
  destruct dates as [|d1 dates'] eqn:Edates.
  - change (0 <? Z.of_nat (length (@nil string))) with false. cbv beta iota.
    rewrite Orchestrator.resetFailureCount_run.
    unfold timestamp, bind, now, ret, KV_put. cbn [fst snd kv trace].
    repeat split; try discriminate; try contradiction.
    + rewrite lookup_insert_ne, lookup_delete_ne by done. apply lookup_insert_eq.
    + rewrite lookup_insert_ne by done. apply lookup_delete_eq.
    + rewrite lookup_insert_ne, lookup_delete_ne, lookup_insert_ne by done.
      exact Hd2.
  - replace (0 <? Z.of_nat (length (d1 :: dates'))) with true
      by (symmetry; apply Z.ltb_lt; cbn [length]; lia).
    cbv beta iota.
    assert (Hreset : forall w3 : World,
               kv w3 !! "Last_dates" = Some hash ->
               let w4 := snd (resetFailureCount w3) in
               fst (resetFailureCount w3) = Ret tt
               /\ kv w4 !! "fail_count" = Some "0"
               /\ kv w4 !! "last_error_msg" = None
               /\ kv w4 !! "Last_dates" = Some hash
               /\ telegrams w4 = telegrams w3).
    { intros w3 H3. rewrite Orchestrator.resetFailureCount_run. cbn [fst snd kv].
      repeat split.
      - rewrite lookup_delete_ne by done. apply lookup_insert_eq.
      - apply lookup_delete_eq.
      - rewrite lookup_delete_ne, lookup_insert_ne by done. exact H3. }
    destruct (decide (kv w !! "Last_dates" = Some hash)) as [He | Hne].
    + rewrite bool_decide_eq_true_2 by assumption.
      rewrite ChangeNotifier.maybeNotify_same_hash by (rewrite Hd2; exact He).
      match goal with |- context [resetFailureCount ?w3] =>
        destruct (Hreset w3 ltac:(cbn [kv]; rewrite Hd2; exact He))
          as (Hr & Hf & Hm & Hl & Ht)
      end.
      cbv zeta in *. cbn [fst snd] in *.
      destruct (resetFailureCount _) as [o4 w4]. cbn [fst snd] in *. subst o4.
      repeat split; try assumption; discriminate.
    + rewrite bool_decide_eq_false_2 by assumption.
      rewrite ChangeNotifier.maybeNotify_new_hash by (rewrite Hd2; exact Hne).
      fold hash.
      set (w3 := {| kv := <["Last_dates" := hash]> (kv w2);
                    trace := EvKvPut "Last_dates" hash None :: trace w2 |}).
      assert (Hbot3 : telegram_reply R (count is_telegram (trace w3)) = Responded r)
        by (change (count is_telegram (trace w3))
              with (count is_telegram (trace w2)); rewrite Hc2; exact Hbot).
      destruct (Orchestrator.sendTelegram_responded R env
                  (buildDatesMessage (d1 :: dates') range) w3 r Hbot3) as [Hs Hk].
      destruct (FailureTracker.sendTelegram_run R env
                  (buildDatesMessage (d1 :: dates') range) w3
                  (ChangeNotifier.buildDatesMessage_truthy _ _)) as [_ Hts].
      cbv zeta in Hts.
      destruct (sendTelegram R env _ w3) as [o3 w3']. cbn [fst snd] in *. subst o3.
      destruct (Hreset w3' ltac:(rewrite Hk; apply lookup_insert_eq))
        as (Hr & Hf & Hm & Hl & Ht).
      cbv zeta in *.
      destruct (resetFailureCount w3') as [o4 w4]. cbn [fst snd] in *. subst o4.
      repeat split; try assumption; try discriminate.
      cbn [snd]. rewrite Ht, Hts. reflexivity.
Qed.

Lemma cycle_of_the_target_month_witness :
  let w := {| kv := <["Cookie" := "T"]> ∅; trace := [] |} in
  let w' := snd (runCheck Fixture.host Fixture.remote_ok Fixture.env 1 w) in
  fst (runCheck Fixture.host Fixture.remote_ok Fixture.env 1 w) = Ret tt
  /\ kv w' !! "fail_count" = Some "0"
  /\ telegrams w' = [Fixture.july_message].
Proof.
  intros w w'.
  assert (Hnow : 100 <= YearFromTime (clock Fixture.remote_ok
                                        (count is_clock (trace w))))
    by (vm_compute; discriminate).
  pose proof (cycle_of_the_target_month Fixture.host Fixture.remote_ok Fixture.env 0
                "T" {| accessToken := "T"; cookie_json := "T" |} w 0
                {| status := 200; text := "";
                   json := Ret [ {| date := Some "2025-07-01" |};
                                 {| date := Some "2025-07-05T00:00:00" |};
                                 {| date := None |} ] |}
                [ {| date := Some "2025-07-01" |};
                  {| date := Some "2025-07-05T00:00:00" |}; {| date := None |} ]
                {| status := 200; text := ""; json := Ret tt |}
                eq_refl eq_refl eq_refl Hnow) as Hthm.
  cbv zeta in Hthm.
  specialize (Hthm ltac:(vm_compute; split; discriminate) eq_refl eq_refl eq_refl
                eq_refl).
  destruct Hthm as (Hrun & Hfail & _ & _ & Hsent).
  split; [exact Hrun | split; [exact Hfail|]].
  destruct Hsent as [_ Hsent]; [vm_compute; discriminate|].
  refine (eq_trans Hsent _). vm_compute. reflexivity.
Defined.

End CycleOfMonth.
